(** * collector.py: deduplicated ingestion and batched digest delivery

    A shallow embedding of [collector.py] and the properties its
    specification states about it.

    Conventions of the embedding.
    - A Python [str] is a list of Unicode code points ([N]); [len] counts
      code points, as Python does.  String literals of the source are
      written as Rocq strings and decoded from UTF-8 by [py].
    - Python [int]s are [Z].
    - The SQLite file is a [store]: the rows of table [pending] in rowid
      order, the AUTOINCREMENT counter, and table [meta] as a finite map.
    - The outside world (GitHub, Algora, Slack, the clock) is an [env] of
      responses; the functions of the source run in a small state-and-
      exception monad over a [world] (store, clock ticks, calls made, files
      written).
    - The search request to GitHub is modelled by the answer it gets (status
      code and body), [fetch_profile_languages] and [algora_list] by what
      they return or raise.  A request to Slack gets an answer or none:
      [requests.post] then raises, and so may [mkdir] and [open] when the
      export is written and uploaded.  Failures of SQLite are outside the
      model, a file that was opened for writing is written in full, and the
      time stamps are ones [datetime] accepts.  Logging is left out. *)

From Stdlib Require Import ZArith NArith List Lia Bool String Ascii Sorted.
From stdpp Require Import base gmap.
Import ListNotations.
Open Scope Z_scope.

(** ** Python strings *)

Module Py.

Definition char := N.
Definition str := list N.

(** Decoding of a UTF-8 source literal into code points. *)
Fixpoint utf8_decode (bs : list N) : str :=
  match bs with
  | [] => []
  | b0 :: r0 =>
      if (b0 <? 128)%N then b0 :: utf8_decode r0
      else match r0 with
      | [] => [b0]
      | b1 :: r1 =>
          if (b0 <? 224)%N
          then ((b0 - 192) * 64 + (b1 - 128))%N :: utf8_decode r1
          else match r1 with
          | [] => [b0; b1]
          | b2 :: r2 =>
              if (b0 <? 240)%N
              then ((b0 - 224) * 4096 + (b1 - 128) * 64 + (b2 - 128))%N
                     :: utf8_decode r2
              else match r2 with
              | [] => [b0; b1; b2]
              | b3 :: r3 =>
                  ((b0 - 240) * 262144 + (b1 - 128) * 4096
                   + (b2 - 128) * 64 + (b3 - 128))%N :: utf8_decode r3
              end
          end
      end
  end.

Definition py (s : string) : str :=
  utf8_decode (List.map N_of_ascii (list_ascii_of_string s)).

Definition len (s : str) : Z := Z.of_nat (length s).

(** Truthiness of a string: [if s], [while s]. *)
Definition truthy (s : str) : bool :=
  match s with [] => false | _ :: _ => true end.

Definition str_eqb (a b : str) : bool := bool_decide (a = b).

Definition NL : char := 10%N.

(** [str.isspace] on one code point: the Unicode white space of CPython. *)
Definition isspace (c : char) : bool :=
  ((9 <=? c) && (c <=? 13) || (28 <=? c) && (c <=? 32)
   || (c =? 133) || (c =? 160) || (c =? 5760)
   || (8192 <=? c) && (c <=? 8202)
   || (c =? 8232) || (c =? 8233) || (c =? 8239) || (c =? 8287)
   || (c =? 12288))%N.

(** [s.lstrip()] *)
Fixpoint lstrip (s : str) : str :=
  match s with
  | [] => []
  | c :: s' => if isspace c then lstrip s' else s
  end.

(** [s.strip()] *)
Definition strip (s : str) : str := rev (lstrip (rev (lstrip s))).

(** A slice bound [i] of a string of length [n], as Python normalises it:
    negative bounds count from the end, and the result is clamped to
    [0..n]. *)
Definition clamp (n : nat) (i : Z) : nat :=
  if i <? 0 then Z.to_nat (Z.max 0 (Z.of_nat n + i))
  else Nat.min n (Z.to_nat i).

(** [s[:i]] and [s[i:]] *)
Definition slice_to (s : str) (i : Z) : str := firstn (clamp (length s) i) s.
Definition slice_from (s : str) (i : Z) : str := skipn (clamp (length s) i) s.

(** Highest index of [c] in [s], or [-1]. *)
Fixpoint rindex (c : char) (s : str) : Z :=
  match s with
  | [] => -1
  | x :: s' =>
      let r := rindex c s' in
      if 0 <=? r then r + 1 else if (x =? c)%N then 0 else -1
  end.

(** [s.rfind(c, 0, stop)] for a one-character [c]. *)
Definition rfind (c : char) (s : str) (stop : Z) : Z :=
  rindex c (slice_to s stop).

(** [s.startswith(p)] *)
Fixpoint startswith (s p : str) : bool :=
  match p, s with
  | [], _ => true
  | _ :: _, [] => false
  | a :: p', b :: s' => (a =? b)%N && startswith s' p'
  end.

(** [sep.join(parts)] *)
Fixpoint join (sep : str) (parts : list str) : str :=
  match parts with
  | [] => []
  | [p] => p
  | p :: ps => p ++ sep ++ join sep ps
  end.

(** [str(n)] for an [int]. *)
Definition digit (d : Z) : char := Z.to_N (48 + d).

Fixpoint digits (fuel : nat) (n : Z) (acc : str) : str :=
  match fuel with
  | O => acc
  | S fuel' =>
      if n <? 10 then digit n :: acc
      else digits fuel' (n / 10) (digit (n mod 10) :: acc)
  end.

Definition str_of_int (n : Z) : str :=
  if n <? 0 then 45%N :: digits (S (Z.to_nat (Z.log2 (- n)))) (- n) []
  else digits (S (Z.to_nat (Z.log2 n))) n [].

End Py.
Export Py.

(** ** Settings read as lists *)

(** [s.split(c)] for a one-character separator. *)
Fixpoint split_on (c : char) (s : str) : list str :=
  match s with
  | [] => [[]]
  | x :: s' =>
      if (x =? c)%N then [] :: split_on c s'
      else match split_on c s' with
           | p :: ps => (x :: p) :: ps
           | [] => [[x]]
           end
  end.

(** [env_csv(name, default)], [value] being what the environment holds
    under [name], if anything:
    [[x.strip() for x in s.split(",") if x.strip()]]. *)
Definition env_csv (value : option str) (default : str) : list str :=
  let s := match value with Some v => v | None => default end in
  List.map strip
    (List.filter (fun x => truthy (strip x)) (split_on 44%N s)).

(** ** chunk_text *)

(** The [while s:] loop of [chunk_text].  [fuel] bounds the number of
    iterations; [None] means the bound was reached with the loop still
    running.  For [limit <= 0] the Python loop can run forever (a remainder
    without leading white space never shrinks). *)
Fixpoint chunk_loop (fuel : nat) (s : str) (limit : Z) (chunks : list str)
  : option (list str) :=
  match fuel with
  | O => None
  | S fuel' =>
      if negb (truthy s) then Some chunks
      else if len s <=? limit then Some (chunks ++ [s])
      else
        let cut := rfind NL s limit in
        let cut := if cut <=? 0 then limit else cut in
        chunk_loop fuel' (lstrip (slice_from s cut)) limit
                   (chunks ++ [slice_to s cut])
  end.

(** Every iteration but the last removes at least one character when
    [limit >= 1], so [length text + 1] iterations are enough. *)
Definition chunk_text (text : str) (limit : Z) : option (list str) :=
  chunk_loop (S (length text)) text limit [].

(** ** Python builtins the source relies on

    [float(s)], [format(x, ".0f")], [repr(s)] and [strftime] are not code of
    the repository; the embedding takes them as an interface.  [pyfloat] is
    the type of Python floats (SQLite REAL). *)
Class PyBuiltins := {
  pyfloat : Type;
  (** [float(s)]; [None] when it raises [ValueError]. *)
  float_of_str : str -> option pyfloat;
  (** [f"{x:.0f}"] *)
  format_0f : pyfloat -> str;
  (** [repr(s)] of a string, as printed inside a dict. *)
  repr_str : str -> str;
  (** [datetime.fromtimestamp(t, timezone.utc).strftime("%H:%MZ")] *)
  utc_hhmm : Z -> str;
  (** [datetime.fromtimestamp(t, timezone.utc).strftime("%Y%m%d_%H%M")] *)
  utc_stamp : Z -> str;
}.

(** ** Exceptions, requests and outcomes *)

Inductive exn :=
| HTTPError            (* requests.HTTPError, from [raise_for_status] *)
| JSONDecodeError      (* from [r.json()] on a body that is not JSON *)
| KeyError             (* from [it['id']], [l["name"]] *)
| ConnectionError      (* from [requests.post]: no answer came *)
| OSError              (* from [mkdir], [open] *)
| KeyboardInterrupt.

(** [except requests.HTTPError] and [except Exception]. *)
Definition is_HTTPError (e : exn) : bool :=
  match e with HTTPError => true | _ => false end.

Definition is_Exception (e : exn) : bool :=
  match e with KeyboardInterrupt => false | _ => true end.

Definition is_KeyboardInterrupt (e : exn) : bool :=
  match e with KeyboardInterrupt => true | _ => false end.

(** Requests sent to the outside. *)
Inductive call :=
| GithubProfile
| GithubSearch (languages : list str) (since_minutes : Z)
| AlgoraList
| SlackBot (text : str)
| SlackThread (ts text : str)
| SlackWebhook (text : str)
| SlackUpload (path title : str).

Inductive outcome (A : Type) :=
| Ret (a : A)
| Raise (e : exn)
| Hang.                                 (* the loop of [chunk_text] never ends *)
Arguments Ret {A} a.
Arguments Raise {A} e.
Arguments Hang {A}.

Section Model.
Context {B : PyBuiltins}.

(** ** The record store *)

(** One row of table [pending].  Column [id] is [rid] here; column [labels]
    holds [json.dumps] of a list of strings and is read back with
    [json.loads], which the embedding keeps as the list itself. *)
Record row := mkRow {
  rid : Z;
  source : str;
  key : str;
  title : str;
  url : str;
  repo : str;
  labels : list str;
  language : str;
  amount : option pyfloat;
  currency : option str;
  created_at : Z;
  notified : Z
}.

(** Values kept in table [meta] (JSON text in the source). *)
Inductive json :=
| JInt (n : Z)
| JStrs (l : list str).

Record store := mkStore {
  pending : list row;          (* rows in rowid order *)
  seq : Z;                     (* sqlite_sequence of [pending] *)
  meta : gmap str json
}.

Definition empty_store : store := mkStore [] 0 ∅.

(** [meta_get(conn, k)] with the default [None]. *)
Definition meta_get (st : store) (k : str) : option json := meta st !! k.

(** [meta_set(conn, k, v)]: INSERT OR REPLACE. *)
Definition meta_set (st : store) (k : str) (v : json) : store :=
  mkStore (pending st) (seq st) (<[k := v]> (meta st)).

(** [SELECT 1 FROM pending WHERE source=? AND key=?] finds a row. *)
Definition same_identity (s k : str) (r : row) : bool :=
  str_eqb (source r) s && str_eqb (key r) k.

Definition present (st : store) (s k : str) : bool :=
  existsb (same_identity s k) (pending st).

(** The id AUTOINCREMENT gives the next row: one more than the largest id
    ever used. *)
Definition next_id (st : store) : Z :=
  1 + fold_right Z.max (seq st) (List.map rid (pending st)).

(** [INSERT INTO pending(...) VALUES(..., 0)] *)
Definition insert_pending (st : store) (s k t u rp : str) (ls : list str)
    (lang : str) (amt : option pyfloat) (cur : option str) (ca : Z) : store :=
  let i := next_id st in
  mkStore (pending st ++ [mkRow i s k t u rp ls lang amt cur ca 0]) i (meta st).

(** [ORDER BY created_at DESC]: SQL leaves the order of ties open; the
    embedding keeps ties in rowid order (a stable sort). *)
Fixpoint insert_desc (x : row) (l : list row) : list row :=
  match l with
  | [] => [x]
  | y :: l' =>
      if created_at y <=? created_at x then x :: l
      else y :: insert_desc x l'
  end.

Definition sort_desc (l : list row) : list row :=
  fold_right insert_desc [] l.

(** [LIMIT n]: a negative [n] means no limit in SQLite. *)
Definition sql_limit (n : Z) (l : list row) : list row :=
  if n <? 0 then l else firstn (Z.to_nat n) l.

Definition is_pending (since : Z) (r : row) : bool :=
  (since <=? created_at r) && (notified r =? 0).

(** The query of [digest]:
    [SELECT ... FROM pending WHERE created_at>=? AND notified=0
     ORDER BY created_at DESC LIMIT ?] *)
Definition select_pending (st : store) (since limit : Z) : list row :=
  sql_limit limit (sort_desc (List.filter (is_pending since) (pending st))).

Definition set_notified (r : row) : row :=
  mkRow (rid r) (source r) (key r) (title r) (url r) (repo r) (labels r)
        (language r) (amount r) (currency r) (created_at r) 1.

(** [UPDATE pending SET notified=1 WHERE id=?] *)
Definition update_notified (i : Z) (rows : list row) : list row :=
  List.map (fun r => if rid r =? i then set_notified r else r) rows.

(** [conn.executemany("UPDATE pending SET notified=1 WHERE id=?", ids)] *)
Definition mark_notified (st : store) (ids : list Z) : store :=
  mkStore (fold_left (fun rows i => update_notified i rows) ids (pending st))
          (seq st) (meta st).

(** ** The world and the monad of effects *)

Record world := mkWorld {
  conn : store;
  ticks : nat;                          (* readings of the clock so far *)
  calls : list call;                    (* requests made, oldest first *)
  files : gmap str (list row)           (* CSV files written *)
}.

Definition set_conn (w : world) (st : store) : world :=
  mkWorld st (ticks w) (calls w) (files w).

Definition M (A : Type) : Type := world -> outcome A * world.

Definition ret {A} (a : A) : M A := fun w => (Ret a, w).

Definition bind {A C} (m : M A) (k : A -> M C) : M C :=
  fun w =>
    match m w with
    | (Ret a, w') => k a w'
    | (Raise e, w') => (Raise e, w')
    | (Hang, w') => (Hang, w')
    end.

Definition raise {A} (e : exn) : M A := fun w => (Raise e, w).

(** [try: m  except <class>: handler], the class given by [catches]. *)
Definition try_except {A} (m : M A) (catches : exn -> bool)
    (handler : exn -> M A) : M A :=
  fun w =>
    match m w with
    | (Raise e, w') => if catches e then handler e w' else (Raise e, w')
    | r => r
    end.

Definition get_conn : M store := fun w => (Ret (conn w), w).
Definition put_conn (st : store) : M unit := fun w => (Ret tt, set_conn w st).

Definition send (c : call) : M unit :=
  fun w => (Ret tt, mkWorld (conn w) (ticks w) (calls w ++ [c]) (files w)).

Definition write_file (path : str) (rows : list row) : M unit :=
  fun w => (Ret tt, mkWorld (conn w) (ticks w) (calls w)
                            (<[path := rows]> (files w))).

End Model.

Notation "'let!' x ':=' m 'in' k" := (bind m (fun x => k))
  (at level 10, x name, m at level 100, k at level 200).

(** ** Configuration and the outside world *)

(** The module-level settings read from the environment. *)
Record config := mkConfig {
  SLACK_BOT_TOKEN : str;
  SLACK_WEBHOOK_URL : str;
  USE_PROFILE_LANGS : bool;
  STATIC_LANGUAGES : list str;
  WINDOW_MINUTES : Z;
  BOOTSTRAP_DAYS : Z;
  ALGORA_ORGS : list str;
  DIGEST_LOOKBACK_MIN : Z;
  DIGEST_MIN_COUNT : Z;
  MAX_ITEMS_IN_DIGEST : Z;
  MAX_SLACK_CHARS : Z;
  POST_LONG_AS_THREAD : bool;
  WRITE_CSV : bool;
  CSV_DIR : str;
  UPLOAD_CSV_TO_SLACK : bool
}.

(** One element of ["items"] in a GitHub search response.  A field is [None]
    when the JSON object lacks it. *)
Record gh_item := mkGhItem {
  gh_id : option Z;
  gh_title : option str;
  gh_html_url : option str;
  gh_repository_url : option str;
  gh_labels : list (option str);        (* the ["name"] of each label *)
  gh_created_at : str                   (* upstream ["created_at"] *)
}.

(** The response to the search request: status code and, when the body is
    JSON, its ["items"]. *)
Record gh_response := mkGhResponse {
  gh_status : Z;
  gh_body : option (list gh_item)
}.

(** The JSON answer of [chat.postMessage]. *)
Record slack_reply := mkReply {
  ok : bool;
  ts : option str;
  message_ts : option str
}.

Section Program.
Context {B : PyBuiltins}.

(** One dict built by [algora_list]. *)
Record al_item := mkAlItem {
  al_id : str;
  al_source : str;
  al_title : str;
  al_url : str;
  al_repo : str;
  al_labels : list str;
  al_amount : option pyfloat;
  al_currency : option str;
  al_created_at : option Z
}.

Record env := mkEnv {
  (** the n-th reading of the clock, in whole seconds *)
  clock : nat -> Z;
  (** what [fetch_profile_languages] computes, or the exception it raises *)
  profile_api : exn + list str;
  github_api : list str -> Z -> gh_response;
  (** what [algora_list] returns, or the exception it raises *)
  algora_api : exn + list al_item;
  (** the bot post of a text: the exception [requests.post] raises, or the
      answer, [None] when its body is not JSON *)
  slack_bot_api : str -> exn + option slack_reply;
  (** a thread post made after [n] other requests: the exception
      [requests.post] raises, if it raises; the answer is not looked at *)
  slack_thread_api : nat -> str -> str -> option exn;
  (** the webhook post: the exception [requests.post] raises, or the status
      code and body of the answer *)
  slack_webhook_api : str -> exn + Z * str;
  (** the upload of a file that was opened: the exception [requests.post]
      raises, if it raises *)
  slack_upload_api : str -> str -> option exn;
  (** [Path(dir).mkdir(parents=True, exist_ok=True)]: the exception raised,
      if one is *)
  mkdir_api : str -> option exn;
  (** [open(path, mode)]: the exception raised, if one is *)
  open_api : str -> str -> option exn
}.

Variable C : config.
Variable E : env.

(** [int(time.time())], [datetime.now(timezone.utc)] *)
Definition now : M Z :=
  fun w => (Ret (clock E (ticks w)),
            mkWorld (conn w) (S (ticks w)) (calls w) (files w)).

(** [for x in xs: body(x)] *)
Fixpoint for_each {A} (xs : list A) (body : A -> M unit) : M unit :=
  match xs with
  | [] => ret tt
  | x :: xs' => let! _ := body x in for_each xs' body
  end.

(** *** Languages *)

Definition json_truthy (j : json) : bool :=
  match j with
  | JInt n => negb (n =? 0)
  | JStrs l => match l with [] => false | _ => true end
  end.

Definition fetch_profile_languages : M (list str) :=
  let! _ := send GithubProfile in
  match profile_api E with
  | inl e => raise e
  | inr top =>
      ret (match top with
           | [] => [py "TypeScript"; py "Go"; py "Python"]
           | _ => top
           end)
  end.

(** The two keys are written by [ensure_languages] only: a list of strings
    and an integer. *)
Definition ensure_languages : M (list str) :=
  if USE_PROFILE_LANGS C then
    let! st := get_conn in
    let! hit :=
      match meta_get st (py "profile_languages"),
            meta_get st (py "profile_languages_ts") with
      | Some (JStrs cached), Some (JInt t) =>
          if json_truthy (JStrs cached) && json_truthy (JInt t) then
            let! n := now in
            ret (if n - t <? 24 * 3600 then Some cached else None)
          else ret None
      | _, _ => ret None
      end in
    match hit with
    | Some cached => ret cached
    | None =>
        let! langs := fetch_profile_languages in
        let! st1 := get_conn in
        let! _ := put_conn (meta_set st1 (py "profile_languages") (JStrs langs)) in
        let! n := now in
        let! st2 := get_conn in
        let! _ := put_conn (meta_set st2 (py "profile_languages_ts") (JInt n)) in
        ret langs
    end
  else ret (STATIC_LANGUAGES C).

(** *** Sources *)

(** [github_search]: the query is built from [languages] and the clock, the
    request is sent, [r.raise_for_status()] raises on a 4xx or 5xx status and
    [r.json()] raises on a body that is not JSON. *)
Definition github_search (languages : list str) (since_minutes : Z)
  : M (list gh_item) :=
  let! _ := now in
  let! _ := send (GithubSearch languages since_minutes) in
  let r := github_api E languages since_minutes in
  if (400 <=? gh_status r) && (gh_status r <? 600) then raise HTTPError
  else match gh_body r with
       | None => raise JSONDecodeError
       | Some items => ret items
       end.

Definition algora_list : M (list al_item) :=
  match ALGORA_ORGS C with
  | [] => ret []
  | _ =>
      let! _ := send AlgoraList in
      match algora_api E with
      | inl e => raise e
      | inr items => ret items
      end
  end.

(** *** collect *)

(** [x or d] for an optional integer. *)
Definition or_int (x : option Z) (d : Z) : Z :=
  match x with
  | Some v => if v =? 0 then d else v
  | None => d
  end.

Definition upsert_pending (source key title url repo : str)
    (labels : list str) (language : str) (amount : option pyfloat)
    (currency : option str) (created_at : option Z) : M bool :=
  let! st := get_conn in
  if present st source key then ret false
  else
    let! ca := match created_at with
               | Some t => if t =? 0 then now else ret t
               | None => now
               end in
    let! _ := put_conn (insert_pending st source key title url repo labels
                                       language amount currency ca) in
    ret true.

(** The text after the last ["repos/"], when there is one:
    [u.split("repos/")[-1] if "repos/" in u else ""]. *)
Fixpoint after_last (sep s : str) : option str :=
  match s with
  | [] => None
  | _ :: s' =>
      match after_last sep s' with
      | Some r => Some r
      | None => if startswith s sep then Some (skipn (length sep) s) else None
      end
  end.

Definition gh_repo (it : gh_item) : str :=
  match after_last (py "repos/") (default [] (gh_repository_url it)) with
  | Some r => r
  | None => []
  end.

(** [[l["name"] for l in it.get("labels", [])]] *)
Fixpoint label_names (ls : list (option str)) : M (list str) :=
  match ls with
  | [] => ret []
  | None :: _ => raise KeyError
  | Some n :: ls' => let! ns := label_names ls' in ret (n :: ns)
  end.

(** The body of the GitHub loop.  No [created_at] is passed. *)
Definition collect_github_item (it : gh_item) : M unit :=
  let! k := match gh_id it with
            | Some i => ret (py "gh:" ++ str_of_int i)
            | None => raise KeyError
            end in
  let! names := label_names (gh_labels it) in
  let! _ := upsert_pending (py "github") k (default [] (gh_title it))
              (default [] (gh_html_url it)) (gh_repo it) names []
              None None None in
  ret tt.

Definition collect_algora_item (b : al_item) : M unit :=
  let! _ := upsert_pending (al_source b) (al_id b) (al_title b) (al_url b)
              (al_repo b) (al_labels b) [] (al_amount b) (al_currency b)
              (al_created_at b) in
  ret tt.

(** The GitHub part of [collect]: [try: ... except requests.HTTPError]. *)
Definition collect_github (languages : list str) (since_minutes : option Z)
  : M unit :=
  try_except
    (let! items := github_search languages
                     (or_int since_minutes (WINDOW_MINUTES C)) in
     for_each items collect_github_item)
    is_HTTPError (fun _ => ret tt).

(** The Algora part of [collect]: [try: ... except Exception]. *)
Definition collect_algora : M unit :=
  try_except
    (let! bs := algora_list in for_each bs collect_algora_item)
    is_Exception (fun _ => ret tt).

(** The counters [gh_new] and [al_new] only feed the log and are left
    out. *)
Definition collect (since_minutes : option Z) (include_algora : bool)
  : M unit :=
  let! languages := ensure_languages in
  let! _ := collect_github languages since_minutes in
  if include_algora then collect_algora else ret tt.

(** *** Slack *)

Definition no_reply : slack_reply := mkReply false None None.

Definition post_slack_bot (text : str) : M slack_reply :=
  if negb (truthy (SLACK_BOT_TOKEN C)) then ret no_reply
  else
    let! _ := send (SlackBot text) in
    match slack_bot_api E text with
    | inl e => raise e
    | inr (Some r) => ret r
    | inr None => ret no_reply
    end.

(** How many requests were made so far. *)
Definition requests_made : M nat := fun w => (Ret (length (calls w)), w).

(** The reply of a thread post is not looked at by the caller. *)
Definition post_slack_thread (thread_ts text : str) : M unit :=
  let! n := requests_made in
  let! _ := send (SlackThread thread_ts text) in
  match slack_thread_api E n thread_ts text with
  | Some e => raise e
  | None => ret tt
  end.

(** The webhook accepted the text: status 200 and a body that is ["ok"] or
    empty once stripped. *)
Definition webhook_ok (status : Z) (body : str) : bool :=
  (status =? 200)
  && (str_eqb (strip body) (py "ok") || str_eqb (strip body) []).

Definition post_slack_webhook (text : str) : M bool :=
  if negb (truthy (SLACK_WEBHOOK_URL C)) then ret false
  else
    let! _ := send (SlackWebhook text) in
    match slack_webhook_api E text with
    | inl e => raise e
    | inr (status, body) => ret (webhook_ok status body)
    end.

(** [open(path, mode)] *)
Definition open_file (path mode : str) : M unit :=
  match open_api E path mode with
  | Some e => raise e
  | None => ret tt
  end.

Definition upload_file_to_slack (path title : str) : M unit :=
  if negb (truthy (SLACK_BOT_TOKEN C) && UPLOAD_CSV_TO_SLACK C) then ret tt
  else
    let! _ := open_file path (py "rb") in
    let! _ := send (SlackUpload path title) in
    match slack_upload_api E path title with
    | Some e => raise e
    | None => ret tt
    end.

(** *** The digest text *)

(** [Counter(keys)], in order of first occurrence. *)
Fixpoint count_add (k : str) (c : list (str * Z)) : list (str * Z) :=
  match c with
  | [] => [(k, 1)]
  | (k', n) :: c' =>
      if str_eqb k' k then (k', n + 1) :: c' else (k', n) :: count_add k c'
  end.

Definition Counter (keys : list str) : list (str * Z) :=
  fold_left (fun c k => count_add k c) keys [].

(** [c.most_common(n)]: by count, largest first, ties in order of first
    occurrence. *)
Fixpoint insert_count (x : str * Z) (l : list (str * Z)) : list (str * Z) :=
  match l with
  | [] => [x]
  | y :: l' => if snd y <=? snd x then x :: l else y :: insert_count x l'
  end.

Definition most_common (n : nat) (c : list (str * Z)) : list (str * Z) :=
  firstn n (fold_right insert_count [] c).

(** [str(dict(c))] *)
Definition dict_repr (c : list (str * Z)) : str :=
  py "{" ++ join (py ", ")
              (List.map (fun kv => repr_str (fst kv) ++ py ": "
                                   ++ str_of_int (snd kv)) c)
         ++ py "}".

(** The loop over the labels in [bullet]: the first label that starts with
    ["USD "] and whose rest is a number. *)
Fixpoint label_amount (labs : list str) : str :=
  match labs with
  | [] => []
  | lab :: labs' =>
      if startswith lab (py "USD ") then
        match float_of_str (skipn 4 lab) with
        | Some x => py "$" ++ format_0f x
        | None => label_amount labs'
        end
      else label_amount labs'
  end.

(** The variable [amount] of [bullet]. *)
Definition bullet_amount (r : row) : str :=
  match amount r with
  | Some x => py "$" ++ format_0f x
  | None => label_amount (labels r)
  end.

Definition dash : str := py " — ".

Definition bullet (r : row) : str :=
  let amt := if truthy (bullet_amount r) then bullet_amount r ++ dash else [] in
  let rep := if truthy (repo r) then repo r ++ dash else [] in
  py "• " ++ amt ++ rep ++ title r ++ [NL] ++ py "  " ++ url r
    ++ py " (" ++ utc_hhmm (created_at r) ++ py ")".

Definition digest_header (rows : list row) (lookback_min : Z) : str :=
  let count := Z.of_nat (length rows) in
  py "💎 Bounty digest — last " ++ str_of_int lookback_min ++ py " min · "
    ++ str_of_int count ++ py " item" ++ (if count =? 1 then [] else py "s").

Definition digest_summary (rows : list row) (lookback_min : Z) : str :=
  let by_source := Counter (List.map source rows) in
  let by_repo :=
    Counter (List.filter truthy (List.map repo rows)) in
  let top_repos :=
    match by_repo with
    | [] => py "—"
    | _ => join (py ", ")
             (List.map (fun kv => fst kv ++ py " (" ++ str_of_int (snd kv)
                                  ++ py ")")
                       (most_common 5 by_repo))
    end in
  digest_header rows lookback_min ++ [NL] ++ py "Sources: "
    ++ dict_repr by_source ++ [NL] ++ py "Top repos: " ++ top_repos
    ++ [NL; NL].

Definition make_digest_text (rows : list row) (lookback_min : Z)
  : str * option str :=
  let bullets := join [NL] (List.map bullet rows) in
  let body := digest_summary rows lookback_min ++ bullets in
  if len body <=? MAX_SLACK_CHARS C then (body, None)
  else (digest_summary rows lookback_min ++ py "(Details in thread ⤵️)",
        Some bullets).

(** *** The export *)

(** [os.path.join(dir, name)] for a [name] that is not absolute. *)
Definition path_join (dir name : str) : str :=
  match rev dir with
  | [] => name
  | c :: _ => if (c =? 47)%N then dir ++ name else dir ++ py "/" ++ name
  end.

(** [pathlib.Path(dir).mkdir(parents=True, exist_ok=True)] *)
Definition mkdir (dir : str) : M unit :=
  match mkdir_api E dir with
  | Some e => raise e
  | None => ret tt
  end.

Definition write_csv (rows : list row) (target_dir : str) : M str :=
  let! _ := mkdir target_dir in
  let! t := now in
  let path := path_join target_dir
                (py "bounty_digest_" ++ utc_stamp t ++ py ".csv") in
  let! _ := open_file path (py "w") in
  let! _ := write_file path rows in
  ret path.

(** *** digest *)

Definition truthy_opt (s : option str) : bool :=
  match s with Some x => truthy x | None => false end.

(** [for i, chunk in enumerate(chunks): post_slack_thread(...)] *)
Fixpoint post_chunks (thread_ts : str) (i : nat) (chunks : list str)
  : M unit :=
  match chunks with
  | [] => ret tt
  | chunk :: rest =>
      let prefix := match i with O => [] | S _ => py "(cont.)" ++ [NL] end in
      let! _ := post_slack_thread thread_ts (prefix ++ chunk) in
      post_chunks thread_ts (S i) rest
  end.

Definition hang {A} : M A := fun w => (Hang, w).

Definition digest (lookback_override_min : option Z) : M unit :=
  let! st := get_conn in
  let! t := now in
  let lookback := or_int lookback_override_min (DIGEST_LOOKBACK_MIN C) in
  let since := t - lookback * 60 in
  let rows := select_pending st since (MAX_ITEMS_IN_DIGEST C) in
  if Z.of_nat (length rows) <? DIGEST_MIN_COUNT C then ret tt
  else
    let text := fst (make_digest_text rows lookback) in
    let thread_details := snd (make_digest_text rows lookback) in
    (* post header *)
    let! res := post_slack_bot text in
    let! posted :=
      if ok res then
        let thread_ts :=
          if truthy_opt (ts res) then ts res else message_ts res in
        let! _ :=
          match thread_details, thread_ts with
          | Some details, Some tts =>
              if truthy details && POST_LONG_AS_THREAD C && truthy tts then
                match chunk_text details (MAX_SLACK_CHARS C) with
                | Some chunks => post_chunks tts O chunks
                | None => hang
                end
              else ret tt
          | _, _ => ret tt
          end in
        ret true
      else ret false in
    (* webhook fallback *)
    let! posted :=
      if negb posted && truthy (SLACK_WEBHOOK_URL C) then
        post_slack_webhook
          (if truthy_opt thread_details
           then text ++ [NL; NL] ++ default [] thread_details
           else text)
      else ret posted in
    (* CSV *)
    let! _ :=
      if WRITE_CSV C then
        let! path := write_csv rows (CSV_DIR C) in
        if posted && UPLOAD_CSV_TO_SLACK C
        then upload_file_to_slack path (py "Bounty digest CSV")
        else ret tt
      else ret tt in
    if posted then
      let! st' := get_conn in
      put_conn (mark_notified st' (List.map rid rows))
    else ret tt.

(** *** test, bootstrap and main *)

Definition inject_dummy : M unit :=
  let! t1 := now in
  let! t2 := now in
  let! _ := upsert_pending (py "test") (py "dummy:" ++ str_of_int t1)
              (py "(TEST) Example Bounty Title")
              (py "https://example.com/bounty") (py "owner/repo")
              [py "USD 123.00"; py "bounty"] (py "Python")
              (float_of_str (py "123.0")) (Some (py "USD")) (Some t2) in
  ret tt.

Definition bootstrap : M unit :=
  let minutes := Z.max 1 (BOOTSTRAP_DAYS C * 1440) in
  let! _ := collect (Some minutes) true in
  digest (Some minutes).

(** The [__main__] block, [mode] being [MODE]. *)
Definition main (mode : str) : M unit :=
  try_except
    (if str_eqb mode (py "digest") then digest None
     else if str_eqb mode (py "langs") then
       let! _ := ensure_languages in ret tt
     else if str_eqb mode (py "test_digest") then
       let! _ := inject_dummy in digest (Some 60)
     else if str_eqb mode (py "bootstrap") then bootstrap
     else collect None true)
    is_KeyboardInterrupt (fun _ => ret tt).

End Program.

(** ** The languages of the profile, page by page

    [fetch_profile_languages] asks for the repositories of the user a page
    at a time, [pages p] being the answer to page [p]: the exception
    [raise_for_status] raises, or the ["language"] of each repository of
    the page ([None] when it has none).  It stops at an empty page and
    after page 5.  [profile_api] of an [env] stands for what this
    computes. *)

(** [for repo in repos: lang = repo.get("language"); if lang: langs[lang] += 1] *)
Definition count_languages (repos : list (option str))
    (langs : list (str * Z)) : list (str * Z) :=
  fold_left
    (fun c l => match l with
                | Some lang => if truthy lang then count_add lang c else c
                | None => c
                end)
    repos langs.

(** The [while True:] loop, [left] pages being still allowed. *)
Fixpoint read_pages (pages : Z -> exn + list (option str)) (left : nat)
    (page : Z) (langs : list (str * Z)) : exn + list (str * Z) :=
  match left with
  | O => inr langs
  | S left' =>
      match pages page with
      | inl e => inl e
      | inr [] => inr langs
      | inr repos =>
          read_pages pages left' (page + 1) (count_languages repos langs)
      end
  end.

Definition profile_languages (pages : Z -> exn + list (option str))
  : exn + list str :=
  match read_pages pages 5 1 [] with
  | inl e => inl e
  | inr langs =>
      inr (match List.map fst (most_common 8 langs) with
           | [] => [py "TypeScript"; py "Go"; py "Python"]
           | top => top
           end)
  end.

(** ** A reference instance of the builtins

    Used to run the model on concrete inputs.  Floats are exact decimals
    here; the instance reads plain literals (sign, digits, a point) and agrees
    with CPython on those whose value binary64 holds exactly, which is all the
    examples below use.  [repr] is right for strings of printable characters
    without quotes or backslashes. *)

Record decimal := mkDec {
  dec_neg : bool;
  dec_mant : Z;            (* the digits, as a number *)
  dec_scale : nat          (* how many of them follow the point *)
}.

Definition is_digit (c : char) : bool := ((48 <=? c) && (c <=? 57))%N.

(** The number written by a string of digits, and how many there are. *)
Fixpoint read_digits (s : str) (acc : Z) : option Z :=
  match s with
  | [] => Some acc
  | c :: s' =>
      if is_digit c then read_digits s' (10 * acc + (Z.of_N c - 48))
      else None
  end.

Fixpoint split_point (s : str) : str * option str :=
  match s with
  | [] => ([], None)
  | c :: s' =>
      if (c =? 46)%N then ([], Some s')
      else let '(a, b) := split_point s' in (c :: a, b)
  end.

Definition read_unsigned (neg : bool) (s : str) : option decimal :=
  let '(ip, fp) := split_point s in
  let fp' := default [] fp in
  if negb (truthy ip) && negb (truthy fp') then None
  else match read_digits (ip ++ fp') 0 with
       | Some m => Some (mkDec neg m (length fp'))
       | None => None
       end.

Definition read_decimal (s : str) : option decimal :=
  match strip s with
  | 45%N :: s' => read_unsigned true s'
  | 43%N :: s' => read_unsigned false s'
  | s' => read_unsigned false s'
  end.

(** Rounding to the nearest integer, ties to even. *)
Definition round_half_even (m : Z) (scale : nat) : Z :=
  let p := 10 ^ Z.of_nat scale in
  let q := m / p in
  let r := m mod p in
  if 2 * r <? p then q
  else if p <? 2 * r then q + 1
  else if Z.even q then q else q + 1.

Definition show_rounded (d : decimal) : str :=
  (if dec_neg d then py "-" else [])
    ++ str_of_int (round_half_even (dec_mant d) (dec_scale d)).

Definition two_digits (n : Z) : str := [digit (n / 10); digit (n mod 10)].

Definition four_digits (n : Z) : str :=
  [digit (n / 1000); digit (n / 100 mod 10); digit (n / 10 mod 10);
   digit (n mod 10)].

Definition show_hhmm (t : Z) : str :=
  two_digits (t mod 86400 / 3600) ++ py ":"
    ++ two_digits (t mod 3600 / 60) ++ py "Z".

(** The civil date of a day number (days since 1970-01-01). *)
Definition civil (days : Z) : Z * Z * Z :=
  let z := days + 719468 in
  let era := z / 146097 in
  let doe := z - era * 146097 in
  let yoe := (doe - doe / 1460 + doe / 36524 - doe / 146096) / 365 in
  let doy := doe - (365 * yoe + yoe / 4 - yoe / 100) in
  let mp := (5 * doy + 2) / 153 in
  let d := doy - (153 * mp + 2) / 5 + 1 in
  let m := if mp <? 10 then mp + 3 else mp - 9 in
  let y := yoe + era * 400 + (if m <=? 2 then 1 else 0) in
  (y, m, d).

Definition show_stamp (t : Z) : str :=
  let '(y, m, d) := civil (t / 86400) in
  four_digits y ++ two_digits m ++ two_digits d ++ py "_"
    ++ two_digits (t mod 86400 / 3600) ++ two_digits (t mod 3600 / 60).

Definition plain_builtins : PyBuiltins := {|
  pyfloat := decimal;
  float_of_str := read_decimal;
  format_0f := show_rounded;
  repr_str := fun s => py "'" ++ s ++ py "'";
  utc_hhmm := show_hhmm;
  utc_stamp := show_stamp
|}.

(** * Vocabulary of the properties *)

(** ** Fragments *)

Definition all_space (s : str) : Prop := Forall (fun c => isspace c = true) s.

(** The fragments with the white space trimmed after each of them put
    back. *)
Fixpoint weave (chunks gaps : list str) : str :=
  match chunks, gaps with
  | c :: cs, g :: gs => c ++ g ++ weave cs gs
  | _, _ => []
  end.

(** Where the loop of [chunk_text] cuts a text longer than the budget. *)
Definition cut_of (B : Z) (s : str) : Z :=
  let cut := rfind NL s B in if cut <=? 0 then B else cut.

Definition fragment_ok (B : Z) (c : str) : Prop := c <> [] /\ len c <= B.

(** ** Rows and stores *)

Section StoreVocabulary.
Context {B : PyBuiltins}.

(** How many rows carry the identity [(s, k)]. *)
Definition count_rows (s k : str) (st : store) : nat :=
  length (List.filter (same_identity s k) (pending st)).

(** No identity is held by two rows. *)
Definition unique_identity (st : store) : Prop :=
  forall s k, (count_rows s k st <= 1)%nat.

(** What may happen to a row: nothing, or its flag is set. *)
Definition row_step (r r' : row) : Prop := r' = r \/ r' = set_notified r.

(** What may happen to the table: rows stay in place, each untouched or
    flagged, and new rows are added at the end. *)
Definition evolves (rows rows' : list row) : Prop :=
  exists kept added, rows' = kept ++ added /\ Forall2 row_step rows kept.


(** The transport answered a request with acceptance: the bot answer is
    JSON with a true ["ok"], or the webhook answer passes [webhook_ok]. *)
Definition accepted_call (E : env) (c : call) : bool :=
  match c with
  | SlackBot text =>
      match slack_bot_api E text with
      | inr (Some r) => ok r
      | _ => false
      end
  | SlackWebhook text =>
      match slack_webhook_api E text with
      | inr (status, body) => webhook_ok status body
      | inl _ => false
      end
  | _ => false
  end.

(** The request is one to the primary transport carrying [text]. *)
Definition primary_text (c : call) : option str :=
  match c with
  | SlackBot text => Some text
  | SlackThread _ text => Some text
  | _ => None
  end.

(** The time stored by an insertion, and the clock readings taken once it
    is done: [created_at or int(time.time())]. *)
Definition stamp_of (E : env) (created_at : option Z) (w : world) : Z * nat :=
  match created_at with
  | Some t => if t =? 0 then (clock E (ticks w), S (ticks w))
              else (t, ticks w)
  | None => (clock E (ticks w), S (ticks w))
  end.

(** The operations of the program on the store, and the entry points that
    run them. *)
Inductive op :=
| Upsert (s k t u rp : str) (ls : list str) (lang : str)
         (amt : option pyfloat) (cur : option str) (ca : option Z)
| MetaSet (k : str) (v : json)
| MarkNotified (ids : list Z)
| EnsureLanguages
| Collect (since_minutes : option Z) (include_algora : bool)
| Digest (lookback_override_min : option Z)
| InjectDummy
| Bootstrap
| Main (mode : str).

(** The world an operation leaves, whatever way it ends. *)
Definition run_op (C : config) (E : env) (o : op) (w : world) : world :=
  match o with
  | Upsert s k t u rp ls lang amt cur ca =>
      snd (upsert_pending E s k t u rp ls lang amt cur ca w)
  | MetaSet k v => set_conn w (meta_set (conn w) k v)
  | MarkNotified ids => set_conn w (mark_notified (conn w) ids)
  | EnsureLanguages => snd (ensure_languages C E w)
  | Collect since_minutes include_algora =>
      snd (collect C E since_minutes include_algora w)
  | Digest lookback_override_min => snd (digest C E lookback_override_min w)
  | InjectDummy => snd (inject_dummy E w)
  | Bootstrap => snd (bootstrap C E w)
  | Main mode => snd (main C E mode w)
  end.

(** A history: operations, each under the settings and the outside world of
    its own run. *)
Definition run_all (h : list (config * env * op)) (w : world) : world :=
  fold_left (fun w x => run_op (fst (fst x)) (snd (fst x)) (snd x) w) h w.

(** [a] is at least as recent as [b]. *)
Definition newer (a b : row) : Prop := created_at b <= created_at a.

(** A row after the commit of [ids]. *)
Definition flag (ids : list Z) (r : row) : row :=
  if existsb (Z.eqb (rid r)) ids then set_notified r else r.

(** A computation that takes the store to one related to it by [R],
    however it ends. *)
Definition keeps (R : store -> store -> Prop) {A} (m : M A) : Prop :=
  forall w, R (conn w) (conn (snd (m w))).

(** The table of the later store has evolved from that of the earlier. *)
Definition evolved (st st' : store) : Prop :=
  evolves (pending st) (pending st').

(** Uniqueness of identities is carried over. *)
Definition stays_unique (st st' : store) : Prop :=
  unique_identity st -> unique_identity st'.

(** From [w] to [w'] the clock was only read and GitHub rows were only
    added, each stamped with one of the readings taken in between. *)
Definition stamped (E : env) (w w' : world) : Prop :=
  (ticks w <= ticks w')%nat
  /\ exists added,
       pending (conn w') = pending (conn w) ++ added
       /\ Forall (fun r =>
                    source r = py "github"
                    /\ exists n : nat,
                         (ticks w <= n < ticks w')%nat
                         /\ created_at r = clock E n) added.

(** A label that [bullet] does not read an amount from. *)
Definition not_an_amount (lab : str) : Prop :=
  startswith lab (py "USD ") = false \/ float_of_str (skipn 4 lab) = None.

End StoreVocabulary.

(** ** Identifiers and lineage of rows *)

Section LineageVocabulary.
Context {B : PyBuiltins}.

(** The largest id ever used in the table. *)
Definition top_id (st : store) : Z :=
  fold_right Z.max (seq st) (List.map rid (pending st)).

(** No id is held by two rows. *)
Definition ids_unique (st : store) : Prop :=
  NoDup (List.map rid (pending st)).

Definition keeps_ids_unique (st st' : store) : Prop :=
  ids_unique st -> ids_unique st'.

(** Every row of the later store is a row of the earlier one, untouched or
    flagged, or carries an id above all those the earlier store had used. *)
Definition descends (st st' : store) : Prop :=
  top_id st <= top_id st'
  /\ forall r', In r' (pending st') ->
       (exists r, In r (pending st) /\ row_step r r') \/ top_id st < rid r'.

(** [r'] is [r] but for the flag, which is kept or raised. *)
Definition same_record (r r' : row) : Prop :=
  rid r' = rid r /\ source r' = source r /\ key r' = key r
  /\ title r' = title r /\ url r' = url r /\ repo r' = repo r
  /\ labels r' = labels r /\ language r' = language r
  /\ amount r' = amount r /\ currency r' = currency r
  /\ created_at r' = created_at r
  /\ (notified r' = notified r \/ notified r' = 1).

End LineageVocabulary.

(** ** One digest cycle

    The values [digest] computes on its way, as functions of the settings,
    the outside world and the world it starts in: those of a cycle that runs
    to its end.  A cycle that is cut short has computed the first of them. *)

Section DigestVocabulary.
Context {B : PyBuiltins}.
Variable C : config.
Variable E : env.
Variable lb : option Z.          (* [lookback_override_min] *)
Variable w : world.

Definition digest_lookback : Z := or_int lb (DIGEST_LOOKBACK_MIN C).

Definition digest_since : Z := clock E (ticks w) - digest_lookback * 60.

(** [rows_raw], [rows] *)
Definition digest_rows : list row :=
  select_pending (conn w) digest_since (MAX_ITEMS_IN_DIGEST C).

(** How many rows are pending in the window, whatever the limit. *)
Definition pending_in_window : Z :=
  Z.of_nat (length (List.filter (is_pending digest_since) (pending (conn w)))).

(** [text], [thread_details] *)
Definition digest_text : str :=
  fst (make_digest_text C digest_rows digest_lookback).

Definition digest_details : option str :=
  snd (make_digest_text C digest_rows digest_lookback).

(** [len(rows_raw) < DIGEST_MIN_COUNT] *)
Definition suppressed : bool :=
  Z.of_nat (length digest_rows) <? DIGEST_MIN_COUNT C.

(** [res] *)
Definition bot_reply : slack_reply :=
  if truthy (SLACK_BOT_TOKEN C)
  then match slack_bot_api E digest_text with
       | inr (Some r) => r
       | _ => no_reply
       end
  else no_reply.

(** [thread_ts] *)
Definition thread_handle : option str :=
  if truthy_opt (ts bot_reply) then ts bot_reply else message_ts bot_reply.

(** The texts handed to [post_slack_thread], the first being number [i]. *)
Fixpoint thread_texts (i : nat) (chunks : list str) : list str :=
  match chunks with
  | [] => []
  | chunk :: rest =>
      (match i with O => [] | S _ => py "(cont.)" ++ [NL] end ++ chunk)
        :: thread_texts (S i) rest
  end.

Definition bot_calls : list call :=
  if truthy (SLACK_BOT_TOKEN C) then [SlackBot digest_text] else [].

Definition thread_calls : list call :=
  if ok bot_reply then
    match digest_details, thread_handle with
    | Some details, Some tts =>
        if truthy details && POST_LONG_AS_THREAD C && truthy tts
        then List.map (SlackThread tts)
               (thread_texts O
                  (default [] (chunk_text details (MAX_SLACK_CHARS C))))
        else []
    | _, _ => []
    end
  else [].

(** The text given to the webhook. *)
Definition webhook_text : str :=
  if truthy_opt digest_details
  then digest_text ++ [NL; NL] ++ default [] digest_details
  else digest_text.

Definition webhook_called : bool :=
  negb (ok bot_reply) && truthy (SLACK_WEBHOOK_URL C).

Definition webhook_calls : list call :=
  if webhook_called then [SlackWebhook webhook_text] else [].

(** [posted], once the fallback is over. *)
Definition digest_posted : bool :=
  if webhook_called
  then match slack_webhook_api E webhook_text with
       | inr (status, body) => webhook_ok status body
       | inl _ => false
       end
  else ok bot_reply.

(** [path] in [write_csv], named after the second reading of the clock. *)
Definition csv_path : str :=
  path_join (CSV_DIR C)
    (py "bounty_digest_" ++ utc_stamp (clock E (S (ticks w))) ++ py ".csv").

Definition upload_calls : list call :=
  if WRITE_CSV C && (digest_posted && UPLOAD_CSV_TO_SLACK C)
     && truthy (SLACK_BOT_TOKEN C)
  then [SlackUpload csv_path (py "Bounty digest CSV")]
  else [].

Definition digest_calls : list call :=
  bot_calls ++ thread_calls ++ webhook_calls ++ upload_calls.

(** The world a digest cycle leaves when it runs to its end. *)
Definition digest_world : world :=
  if suppressed then mkWorld (conn w) (S (ticks w)) (calls w) (files w)
  else
    mkWorld
      (if digest_posted
       then mark_notified (conn w) (List.map rid digest_rows)
       else conn w)
      (if WRITE_CSV C then S (S (ticks w)) else S (ticks w))
      (calls w ++ digest_calls)
      (if WRITE_CSV C then <[csv_path := digest_rows]> (files w)
       else files w).

End DigestVocabulary.

(** ** Concrete settings, worlds and answers

    Used to run the model; the floats are those of [plain_builtins]. *)

(** The settings of the source with their defaults, a bot token, no webhook
    and one Algora organisation. *)
Definition default_config : config := {|
  SLACK_BOT_TOKEN := py "xoxb-token";
  SLACK_WEBHOOK_URL := [];
  USE_PROFILE_LANGS := true;
  STATIC_LANGUAGES := [py "TypeScript"; py "Go"; py "Python"];
  WINDOW_MINUTES := 12;
  BOOTSTRAP_DAYS := 7;
  ALGORA_ORGS := [py "acme"];
  DIGEST_LOOKBACK_MIN := 60;
  DIGEST_MIN_COUNT := 1;
  MAX_ITEMS_IN_DIGEST := 50;
  MAX_SLACK_CHARS := 3500;
  POST_LONG_AS_THREAD := true;
  WRITE_CSV := true;
  CSV_DIR := py "./bounty_csv";
  UPLOAD_CSV_TO_SLACK := false
|}.

(** 2026-11-04 00:00:00 UTC *)
Definition t0 : Z := 1793750400.

(** An outside world where everything answers and accepts: the clock
    advances one second per reading, the sources have nothing new. *)
Definition calm_env : @env plain_builtins := {|
  clock := fun n => t0 + Z.of_nat n;
  profile_api := inr [py "Python"];
  github_api := fun _ _ => mkGhResponse 200 (Some []);
  algora_api := inr [];
  slack_bot_api := fun _ => inr (Some (mkReply true (Some (py "1793750400.000100")) None));
  slack_webhook_api := fun _ => inr (200, py "ok");
  slack_thread_api := fun _ _ _ => None;
  slack_upload_api := fun _ _ => None;
  mkdir_api := fun _ => None;
  open_api := fun _ _ => None
|}.

Definition fresh_world : @world plain_builtins :=
  mkWorld empty_store 0 [] ∅.

(** A GitHub issue as [collect] stores it. *)
Definition issue_row (i : Z) (t : str) (ca : Z) : @row plain_builtins :=
  mkRow i (py "github") (py "gh:" ++ str_of_int i) t
        (py "https://github.com/o/r/issues/" ++ str_of_int i) (py "o/r")
        [py "bounty"] [] None None ca 0.

Definition world_of (rows : list (@row plain_builtins)) : world :=
  mkWorld (mkStore rows (Z.of_nat (length rows)) ∅) 0 [] ∅.

(** The default settings with a threshold of three records. *)
Definition threshold_config : config := {|
  SLACK_BOT_TOKEN := py "xoxb-token";
  SLACK_WEBHOOK_URL := [];
  USE_PROFILE_LANGS := true;
  STATIC_LANGUAGES := [py "TypeScript"; py "Go"; py "Python"];
  WINDOW_MINUTES := 12;
  BOOTSTRAP_DAYS := 7;
  ALGORA_ORGS := [py "acme"];
  DIGEST_LOOKBACK_MIN := 60;
  DIGEST_MIN_COUNT := 3;
  MAX_ITEMS_IN_DIGEST := 50;
  MAX_SLACK_CHARS := 3500;
  POST_LONG_AS_THREAD := true;
  WRITE_CSV := true;
  CSV_DIR := py "./bounty_csv";
  UPLOAD_CSV_TO_SLACK := false
|}.

(** The default settings with a webhook and no bot token. *)
Definition webhook_config : config := {|
  SLACK_BOT_TOKEN := [];
  SLACK_WEBHOOK_URL := py "https://hooks.slack.com/services/T/B/X";
  USE_PROFILE_LANGS := true;
  STATIC_LANGUAGES := [py "TypeScript"; py "Go"; py "Python"];
  WINDOW_MINUTES := 12;
  BOOTSTRAP_DAYS := 7;
  ALGORA_ORGS := [py "acme"];
  DIGEST_LOOKBACK_MIN := 60;
  DIGEST_MIN_COUNT := 1;
  MAX_ITEMS_IN_DIGEST := 50;
  MAX_SLACK_CHARS := 3500;
  POST_LONG_AS_THREAD := true;
  WRITE_CSV := true;
  CSV_DIR := py "./bounty_csv";
  UPLOAD_CSV_TO_SLACK := false
|}.

(** An outside world where Slack refuses: the bot answer is not JSON and
    the webhook answers 500. *)
Definition deaf_env : @env plain_builtins := {|
  clock := fun n => t0 + Z.of_nat n;
  profile_api := inr [py "Python"];
  github_api := fun _ _ => mkGhResponse 200 (Some []);
  algora_api := inr [];
  slack_bot_api := fun _ => inr (None);
  slack_webhook_api := fun _ => inr (500, py "server error");
  slack_thread_api := fun _ _ _ => None;
  slack_upload_api := fun _ _ => None;
  mkdir_api := fun _ => None;
  open_api := fun _ _ => None
|}.

(** GitHub answers 200 with a body that is not JSON; Algora has an item. *)
Definition garbled_env : @env plain_builtins := {|
  clock := fun n => t0 + Z.of_nat n;
  profile_api := inr [py "Python"];
  github_api := fun _ _ => mkGhResponse 200 None;
  algora_api :=
    inr [@mkAlItem plain_builtins (py "algora:7") (py "algora") (py "Add a cache")
                  (py "https://github.com/o/r/issues/7") (py "o/r")
                  [py "USD 50.00"] (@float_of_str plain_builtins (py "50.0"))
                  (Some (py "USD")) (Some t0)];
  slack_bot_api := fun _ => inr (Some (mkReply true (Some (py "1793750400.000100")) None));
  slack_webhook_api := fun _ => inr (200, py "ok");
  slack_thread_api := fun _ _ _ => None;
  slack_upload_api := fun _ _ => None;
  mkdir_api := fun _ => None;
  open_api := fun _ _ => None
|}.

(** GitHub answers 503; Algora has an item. *)
Definition busy_env : @env plain_builtins := {|
  clock := fun n => t0 + Z.of_nat n;
  profile_api := inr [py "Python"];
  github_api := fun _ _ => mkGhResponse 503 None;
  algora_api :=
    inr [@mkAlItem plain_builtins (py "algora:7") (py "algora") (py "Add a cache")
                  (py "https://github.com/o/r/issues/7") (py "o/r")
                  [py "USD 50.00"] (@float_of_str plain_builtins (py "50.0"))
                  (Some (py "USD")) (Some t0)];
  slack_bot_api := fun _ => inr (Some (mkReply true (Some (py "1793750400.000100")) None));
  slack_webhook_api := fun _ => inr (200, py "ok");
  slack_thread_api := fun _ _ _ => None;
  slack_upload_api := fun _ _ => None;
  mkdir_api := fun _ => None;
  open_api := fun _ _ => None
|}.

(** GitHub has nothing new; the Algora answer is not JSON. *)
Definition algora_down_env : @env plain_builtins := {|
  clock := fun n => t0 + Z.of_nat n;
  profile_api := inr [py "Python"];
  github_api := fun _ _ => mkGhResponse 200 (Some []);
  algora_api := inl JSONDecodeError;
  slack_bot_api := fun _ => inr (Some (mkReply true (Some (py "1793750400.000100")) None));
  slack_webhook_api := fun _ => inr (200, py "ok");
  slack_thread_api := fun _ _ _ => None;
  slack_upload_api := fun _ _ => None;
  mkdir_api := fun _ => None;
  open_api := fun _ _ => None
|}.

(** The default settings with a budget of 120 characters. *)
Definition small_budget_config : config := {|
  SLACK_BOT_TOKEN := py "xoxb-token";
  SLACK_WEBHOOK_URL := [];
  USE_PROFILE_LANGS := true;
  STATIC_LANGUAGES := [py "TypeScript"; py "Go"; py "Python"];
  WINDOW_MINUTES := 12;
  BOOTSTRAP_DAYS := 7;
  ALGORA_ORGS := [py "acme"];
  DIGEST_LOOKBACK_MIN := 60;
  DIGEST_MIN_COUNT := 1;
  MAX_ITEMS_IN_DIGEST := 50;
  MAX_SLACK_CHARS := 120;
  POST_LONG_AS_THREAD := true;
  WRITE_CSV := true;
  CSV_DIR := py "./bounty_csv";
  UPLOAD_CSV_TO_SLACK := false
|}.

(** The default settings with a budget of 50 characters. *)
Definition tiny_budget_config : config := {|
  SLACK_BOT_TOKEN := py "xoxb-token";
  SLACK_WEBHOOK_URL := [];
  USE_PROFILE_LANGS := true;
  STATIC_LANGUAGES := [py "TypeScript"; py "Go"; py "Python"];
  WINDOW_MINUTES := 12;
  BOOTSTRAP_DAYS := 7;
  ALGORA_ORGS := [py "acme"];
  DIGEST_LOOKBACK_MIN := 60;
  DIGEST_MIN_COUNT := 1;
  MAX_ITEMS_IN_DIGEST := 50;
  MAX_SLACK_CHARS := 50;
  POST_LONG_AS_THREAD := true;
  WRITE_CSV := true;
  CSV_DIR := py "./bounty_csv";
  UPLOAD_CSV_TO_SLACK := false
|}.

(** One pending issue whose title is 256 letters x. *)
Definition long_title_world : @world plain_builtins :=
  world_of [issue_row 1 (repeat 120%N 256) t0].

(** The lengths of the texts handed to the primary transport. *)
Definition primary_lengths (cs : list call) : list Z :=
  omap (fun c => option_map len (primary_text c)) cs.


(** The request is one to the bot, to the webhook. *)
Definition is_bot_call (c : call) : bool :=
  match c with SlackBot _ => true | _ => false end.

Definition is_webhook_call (c : call) : bool :=
  match c with SlackWebhook _ => true | _ => false end.

(** An item of a search answer that [collect] can read: it has an id, and
    each of its labels has a name. *)
Definition readable (it : gh_item) : Prop :=
  gh_id it <> None /\ Forall (fun l => l <> None) (gh_labels it).

(** A fragment that does not begin with white space. *)
Definition starts_clean (c : str) : Prop :=
  match c with
  | x :: _ => isspace x = false
  | [] => False
  end.

(** [top or ["TypeScript","Go","Python"]], what [fetch_profile_languages]
    returns for the list [top] it has counted. *)
Definition or_default (top : list str) : list str :=
  match top with
  | [] => [py "TypeScript"; py "Go"; py "Python"]
  | _ => top
  end.

(** A search answer with a readable item, one without an id, and a third. *)
Definition broken_item_env : @env plain_builtins := {|
  clock := fun n => t0 + Z.of_nat n;
  profile_api := inr [py "Python"];
  github_api := fun _ _ =>
    mkGhResponse 200
      (Some [mkGhItem (Some 11) (Some (py "first")) None None
                      [Some (py "bounty")] (py "2026-11-03T23:59:00Z");
             mkGhItem None (Some (py "second")) None None [] [];
             mkGhItem (Some 13) (Some (py "third")) None None [] []]);
  algora_api := inr [];
  slack_bot_api := fun _ => inr (Some (mkReply true (Some (py "1793750400.000100")) None));
  slack_webhook_api := fun _ => inr (200, py "ok");
  slack_thread_api := fun _ _ _ => None;
  slack_upload_api := fun _ _ => None;
  mkdir_api := fun _ => None;
  open_api := fun _ _ => None
|}.

(** The profile request fails with an HTTP error. *)
Definition no_profile_env : @env plain_builtins := {|
  clock := fun n => t0 + Z.of_nat n;
  profile_api := inl HTTPError;
  github_api := fun _ _ => mkGhResponse 200 (Some []);
  algora_api := inr [];
  slack_bot_api := fun _ => inr (Some (mkReply true (Some (py "1793750400.000100")) None));
  slack_webhook_api := fun _ => inr (200, py "ok");
  slack_thread_api := fun _ _ _ => None;
  slack_upload_api := fun _ _ => None;
  mkdir_api := fun _ => None;
  open_api := fun _ _ => None
|}.

(** The outside world of [calm_env] where the directory of the export
    cannot be made. *)
Definition readonly_env : @env plain_builtins := {|
  clock := fun n => t0 + Z.of_nat n;
  profile_api := inr [py "Python"];
  github_api := fun _ _ => mkGhResponse 200 (Some []);
  algora_api := inr [];
  slack_bot_api := fun _ => inr (Some (mkReply true (Some (py "1793750400.000100")) None));
  slack_webhook_api := fun _ => inr (200, py "ok");
  slack_thread_api := fun _ _ _ => None;
  slack_upload_api := fun _ _ => None;
  mkdir_api := fun _ => Some OSError;
  open_api := fun _ _ => None
|}.


(** The default settings with a budget of no character. *)
Definition zero_budget_config : config := {|
  SLACK_BOT_TOKEN := py "xoxb-token";
  SLACK_WEBHOOK_URL := [];
  USE_PROFILE_LANGS := true;
  STATIC_LANGUAGES := [py "TypeScript"; py "Go"; py "Python"];
  WINDOW_MINUTES := 12;
  BOOTSTRAP_DAYS := 7;
  ALGORA_ORGS := [py "acme"];
  DIGEST_LOOKBACK_MIN := 60;
  DIGEST_MIN_COUNT := 1;
  MAX_ITEMS_IN_DIGEST := 50;
  MAX_SLACK_CHARS := 0;
  POST_LONG_AS_THREAD := true;
  WRITE_CSV := true;
  CSV_DIR := py "./bounty_csv";
  UPLOAD_CSV_TO_SLACK := false
|}.

(** An entry of a list setting as [env_csv] returns it: not empty, without
    white space at either end, without a comma. *)
Definition entry (x : str) : Prop :=
  x <> [] /\ strip x = x /\ ~ In 44%N x.

(** An entry written with white space before and after it. *)
Definition padded (t : str * str * str) : str :=
  let '(a, x, b) := t in a ++ x ++ b.

Definition body (t : str * str * str) : str :=
  let '(_, x, _) := t in x.

Definition well_padded (t : str * str * str) : Prop :=
  let '(a, x, b) := t in all_space a /\ entry x /\ all_space b.

(** * Properties *)

(** ** Strings *)

Lemma lstrip_split (s : str) :
  exists w, s = w ++ lstrip s /\ all_space w.
Proof.
  induction s as [|c s IH]; simpl.
  - exists []. split; [reflexivity | constructor].
  - destruct (isspace c) eqn:Hc.
    + destruct IH as (w & Hw & Hsp). exists (c :: w). split.
      * simpl. congruence.
      * constructor; assumption.
    + exists []. split; [reflexivity | constructor].
Qed.

Lemma lstrip_length (s : str) : (length (lstrip s) <= length s)%nat.
Proof.
  induction s as [|c s IH]; simpl; [lia|].
  destruct (isspace c); simpl; lia.
Qed.

Lemma rindex_range (c : char) (s : str) : -1 <= rindex c s < len s.
Proof.
  unfold len. induction s as [|x s IH]; simpl length; simpl rindex; [lia|].
  destruct (0 <=? rindex c s) eqn:H0; [lia|].
  destruct (x =? c)%N; lia.
Qed.

Lemma rindex_hit (c : char) (s : str) :
  0 <= rindex c s -> s !! Z.to_nat (rindex c s) = Some c.
Proof.
  induction s as [|x s IH]; simpl rindex; [lia|].
  destruct (0 <=? rindex c s) eqn:H0.
  - intros _. apply Z.leb_le in H0.
    replace (Z.to_nat (rindex c s + 1)) with (S (Z.to_nat (rindex c s))) by lia.
    simpl. apply IH. exact H0.
  - destruct (x =? c)%N eqn:Hx; [|lia].
    intros _. apply N.eqb_eq in Hx. subst. reflexivity.
Qed.

Lemma rindex_last (c : char) (s : str) (j : nat) :
  s !! j = Some c -> Z.of_nat j <= rindex c s.
Proof.
  revert j. induction s as [|x s IH]; intros j Hj; [discriminate|].
  simpl rindex. destruct j as [|j].
  - simpl in Hj. injection Hj as ->.
    pose proof (rindex_range c s) as Hr.
    destruct (0 <=? rindex c s) eqn:H0; [apply Z.leb_le in H0; lia|].
    rewrite N.eqb_refl. lia.
  - simpl in Hj. apply IH in Hj.
    destruct (0 <=? rindex c s) eqn:H0; [lia|].
    apply Z.leb_gt in H0. lia.
Qed.

(** ** chunk_text *)

Section Chunking.
Variable B : Z.
Hypothesis B_pos : 1 <= B.

Lemma slice_to_take (s : str) (i : Z) :
  0 <= i <= len s -> slice_to s i = take (Z.to_nat i) s.
Proof using Type.
  unfold slice_to, clamp, len. intros Hi.
  destruct (i <? 0) eqn:Hn; [apply Z.ltb_lt in Hn; lia|].
  f_equal. lia.
Qed.

Lemma slice_from_drop (s : str) (i : Z) :
  0 <= i <= len s -> slice_from s i = drop (Z.to_nat i) s.
Proof using Type.
  unfold slice_from, clamp, len. intros Hi.
  destruct (i <? 0) eqn:Hn; [apply Z.ltb_lt in Hn; lia|].
  f_equal. lia.
Qed.

Lemma rfind_range (s : str) : B < len s -> -1 <= rfind NL s B < B.
Proof using B_pos.
  intros Hlen. unfold rfind.
  pose proof (rindex_range NL (slice_to s B)) as Hr.
  rewrite slice_to_take in * by lia.
  unfold len in *. rewrite length_take in Hr. lia.
Qed.

Lemma cut_of_range (s : str) : B < len s -> 1 <= cut_of B s <= B.
Proof using B_pos.
  intros Hlen. unfold cut_of. pose proof (rfind_range s Hlen).
  destruct (rfind NL s B <=? 0) eqn:Hc;
    [apply Z.leb_le in Hc | apply Z.leb_gt in Hc]; lia.
Qed.

(** The cut is at a line break whenever one lies strictly inside the first
    [B] characters, and then at the last such one; otherwise it is at [B]. *)
Lemma cut_of_rule (s : str) :
  B < len s ->
  (forall i : nat, 1 <= Z.of_nat i < B -> s !! i = Some NL ->
     s !! Z.to_nat (cut_of B s) = Some NL /\ Z.of_nat i <= cut_of B s < B)
  /\ ((forall i : nat, 1 <= Z.of_nat i < B -> s !! i <> Some NL) ->
      cut_of B s = B).
Proof using B_pos.
  intros Hlen. pose proof (rfind_range s Hlen) as Hr.
  unfold cut_of, rfind in *. rewrite slice_to_take in * by lia.
  set (p := take (Z.to_nat B) s) in *.
  split.
  - intros i Hi Hs.
    assert (Hp : p !! i = Some NL).
    { unfold p. rewrite lookup_take_lt by lia. exact Hs. }
    apply rindex_last in Hp.
    destruct (rindex NL p <=? 0) eqn:Hc;
      [apply Z.leb_le in Hc; lia | apply Z.leb_gt in Hc].
    split; [|lia].
    assert (Hh : p !! Z.to_nat (rindex NL p) = Some NL)
      by (apply rindex_hit; lia).
    rewrite <- Hh. symmetry. apply lookup_take_lt. lia.
  - intros Hnone.
    destruct (rindex NL p <=? 0) eqn:Hc; [reflexivity|].
    apply Z.leb_gt in Hc. exfalso.
    assert (Hh : p !! Z.to_nat (rindex NL p) = Some NL)
      by (apply rindex_hit; lia).
    apply (Hnone (Z.to_nat (rindex NL p))); [lia|].
    rewrite <- Hh. symmetry. apply lookup_take_lt. lia.
Qed.

(** One step of the loop on a text longer than the budget. *)
Lemma chunk_loop_step (fuel : nat) (s : str) (acc : list str) :
  B < len s ->
  chunk_loop (S fuel) s B acc =
  chunk_loop fuel (lstrip (drop (Z.to_nat (cut_of B s)) s)) B
             (acc ++ [take (Z.to_nat (cut_of B s)) s]).
Proof using B_pos.
  intros Hlen. pose proof (cut_of_range s Hlen) as Hc.
  simpl. destruct s as [|x s]; [unfold len in Hlen; simpl in Hlen; lia|].
  cbn [truthy negb].
  destruct (len (x :: s) <=? B) eqn:Hle; [apply Z.leb_le in Hle; lia|].
  fold (cut_of B (x :: s)).
  rewrite slice_to_take, slice_from_drop by lia. reflexivity.
Qed.

Lemma chunk_loop_ok (fuel : nat) :
  forall (s : str) (acc : list str),
    (length s < fuel)%nat ->
    exists out gaps,
      chunk_loop fuel s B acc = Some (acc ++ out)
      /\ Forall (fragment_ok B) out
      /\ length gaps = length out
      /\ Forall all_space gaps
      /\ weave out gaps = s.
Proof using B_pos.
  induction fuel as [|fuel IH]; intros s acc Hfuel; [lia|].
  destruct s as [|x s'] eqn:Es.
  - exists [], []. simpl. rewrite app_nil_r. repeat split; constructor.
  - rewrite <- Es in *. assert (Hne : s <> []) by (subst; discriminate).
    destruct (Z.leb_spec (len s) B) as [Hle|Hgt].
    + exists [s], [[]]. repeat split.
      * subst s. simpl. apply Z.leb_le in Hle. rewrite Hle. reflexivity.
      * constructor; [split; assumption | constructor].
      * constructor; [constructor | constructor].
      * simpl. rewrite !app_nil_r. reflexivity.
    + pose proof (cut_of_range s Hgt) as Hc.
      rewrite chunk_loop_step by exact Hgt.
      set (n := Z.to_nat (cut_of B s)) in *.
      destruct (lstrip_split (drop n s)) as (w & Hw & Hsp).
      destruct (IH (lstrip (drop n s)) (acc ++ [take n s])) as
        (out & gaps & Hrun & Hok & Hlen & Hgaps & Hweave).
      { pose proof (lstrip_length (drop n s)) as Hl.
        rewrite length_drop in Hl. unfold len in Hgt. lia. }
      exists (take n s :: out), (w :: gaps). repeat split.
      * rewrite Hrun, <- app_assoc. reflexivity.
      * constructor; [|exact Hok]. split.
        -- intros Hnil. apply (f_equal (@length _)) in Hnil.
           rewrite length_take in Hnil. simpl in Hnil.
           unfold len in Hgt. lia.
        -- unfold len. rewrite length_take. lia.
      * simpl. congruence.
      * constructor; assumption.
      * simpl. rewrite Hweave, <- Hw. apply take_drop.
Qed.

Lemma chunk_loop_more_fuel (fuel : nat) :
  forall (s : str) (acc out : list str),
    chunk_loop fuel s B acc = Some out ->
    chunk_loop (S fuel) s B acc = Some out.
Proof using Type.
  induction fuel as [|fuel IH]; intros s acc out H; [discriminate|].
  simpl in H. change (chunk_loop (S (S fuel)) s B acc) with
    (if negb (truthy s) then Some acc
     else if len s <=? B then Some (acc ++ [s])
     else
       chunk_loop (S fuel)
         (lstrip (slice_from s (if rfind NL s B <=? 0 then B else rfind NL s B)))
         B (acc ++ [slice_to s (if rfind NL s B <=? 0 then B else rfind NL s B)])).
  destruct (negb (truthy s)); [exact H|].
  destruct (len s <=? B); [exact H|].
  apply IH. exact H.
Qed.

Lemma chunk_loop_enough (fuel : nat) (s : str) (out : list str) :
  (length s < fuel)%nat ->
  chunk_text s B = Some out -> chunk_loop fuel s B [] = Some out.
Proof using Type.
  unfold chunk_text. intros Hf H.
  assert (Hk : forall k, chunk_loop (k + S (length s)) s B [] = Some out).
  { induction k as [|k IHk]; [exact H|].
    apply chunk_loop_more_fuel in IHk. exact IHk. }
  specialize (Hk (fuel - S (length s))%nat).
  replace (fuel - S (length s) + S (length s))%nat with fuel in Hk by lia.
  exact Hk.
Qed.

(** The accumulator is a prefix of the result. *)
Lemma chunk_loop_acc (fuel : nat) :
  forall (s : str) (acc : list str),
    chunk_loop fuel s B acc = option_map (app acc) (chunk_loop fuel s B []).
Proof using Type.
  induction fuel as [|fuel IH]; intros s acc; [reflexivity|].
  simpl. destruct (negb (truthy s)); [simpl; rewrite app_nil_r; reflexivity|].
  destruct (len s <=? B); [reflexivity|].
  rewrite IH. symmetry. rewrite IH.
  destruct (chunk_loop fuel _ B []) as [r|]; simpl; [|reflexivity].
  rewrite <- app_assoc. reflexivity.
Qed.

End Chunking.

(** C4 (as amended).  For every text [T] and budget [B >= 1], [chunk_text]
    ends (any fuel above the length of [T] gives the same result) with
    fragments that are non-empty and at most [B] long; putting back the white
    space trimmed after each fragment rebuilds [T]; a text of length at most
    [B] comes back as the single fragment [T], or as no fragment at all when
    [T] is empty; and a longer text is cut at the last line break found at a
    position from [1] to [B - 1], or at [B] when there is none there, the
    rest being chunked the same way after its leading white space is
    dropped. *)
Theorem chunk_text_law (T : str) (B : Z) :
  1 <= B ->
  exists chunks,
    chunk_text T B = Some chunks
    /\ (forall fuel, (length T < fuel)%nat ->
          chunk_loop fuel T B [] = Some chunks)
    /\ Forall (fragment_ok B) chunks
    /\ (exists gaps,
          length gaps = length chunks /\ Forall all_space gaps
          /\ weave chunks gaps = T)
    /\ (len T <= B -> chunks = match T with [] => [] | _ => [T] end)
    /\ (B < len T ->
        let cut := Z.to_nat (cut_of B T) in
        exists rest,
          chunks = take cut T :: rest
          /\ chunk_text (lstrip (drop cut T)) B = Some rest
          /\ (forall i : nat, 1 <= Z.of_nat i < B -> T !! i = Some NL ->
                T !! cut = Some NL /\ (i <= cut)%nat /\ Z.of_nat cut < B)
          /\ ((forall i : nat, 1 <= Z.of_nat i < B -> T !! i <> Some NL) ->
              Z.of_nat cut = B)).
Proof.
  intros HB.
  destruct (chunk_loop_ok B HB (S (length T)) T []) as
    (chunks & gaps & Hrun & Hok & Hlen & Hsp & Hweave); [lia|].
  simpl app in Hrun. exists chunks.
  split; [exact Hrun|].
  split; [intros fuel Hf; apply chunk_loop_enough; assumption|].
  split; [exact Hok|].
  split; [exists gaps; auto|].
  split.
  - intros Hle. unfold chunk_text in Hrun. simpl in Hrun.
    destruct T as [|x T']; simpl in Hrun; [congruence|].
    apply Z.leb_le in Hle. rewrite Hle in Hrun. congruence.
  - intros Hgt cut.
    pose proof (cut_of_range B HB T Hgt) as Hc.
    pose proof (cut_of_rule B HB T Hgt) as [Hnl Hhard].
    unfold chunk_text in Hrun.
    rewrite (chunk_loop_step B HB) in Hrun by exact Hgt.
    rewrite chunk_loop_acc in Hrun. fold cut in Hrun.
    destruct (chunk_loop_ok B HB (S (length (lstrip (drop cut T))))
                (lstrip (drop cut T)) []) as
      (rest & _ & Hrest & _); [lia|].
    simpl app in Hrest.
    assert (Hfuel : chunk_loop (length T) (lstrip (drop cut T)) B []
                    = Some rest).
    { apply chunk_loop_enough; [|exact Hrest].
      pose proof (lstrip_length (drop cut T)) as Hl.
      rewrite length_drop in Hl. unfold len in Hgt. unfold cut in *. lia. }
    rewrite Hfuel in Hrun. simpl in Hrun.
    injection Hrun as Hrun.
    exists rest. split; [symmetry; exact Hrun|]. split; [exact Hrest|]. split.
    + intros i Hi Hs. destruct (Hnl i Hi Hs) as [H1 H2].
      split; [exact H1|]. unfold cut. lia.
    + intros Hnone. unfold cut. rewrite Z2Nat.id by lia. auto.
Qed.

(** The law at a two-line text and a budget of four. *)
Lemma chunk_text_law_witness :
  1 <= 4 /\
  exists chunks,
    chunk_text (py "ab" ++ [NL] ++ py "cd ef gh") 4 = Some chunks
    /\ Forall (fragment_ok 4) chunks.
Proof.
  split; [lia|].
  destruct (chunk_text_law (py "ab" ++ [NL] ++ py "cd ef gh") 4)
    as (chunks & H1 & _ & H3 & _); [lia|].
  exists chunks. split; assumption.
Defined.

(** C4, where the claim as stated fails: the empty text gives no fragment
    at all, not the single fragment [T]; and a line break at position 0,
    inside the range searched, is not cut at: the fragment is cut at the
    budget. *)
Lemma chunk_text_claim_counterexample :
  (len [] <= 1 /\ chunk_text [] 1 = Some [] /\ chunk_text [] 1 <> Some [[]])
  /\ (let T := [NL] ++ py "abcdef" in
      T !! 0%nat = Some NL
      /\ chunk_text T 3 = Some [[NL] ++ py "ab"; py "cde"; py "f"]
      /\ take 3 T !! 0%nat = Some NL).
Proof.
  split.
  - split; [unfold len; simpl; lia|].
    split; [reflexivity | discriminate].
  - repeat split.
Qed.

(** ** The store: upsert *)

Section StoreFacts.
Context {B : PyBuiltins}.
Variable E : env.

Lemma set_conn_same (w : world) : set_conn w (conn w) = w.
Proof using Type. destruct w; reflexivity. Qed.

Lemma count_rows_zero (s k : str) (st : store) :
  present st s k = false -> count_rows s k st = 0%nat.
Proof using Type.
  unfold present, count_rows. induction (pending st) as [|r l IH]; simpl.
  - reflexivity.
  - destruct (same_identity s k r); simpl; [discriminate | exact IH].
Qed.

Lemma count_rows_pos (s k : str) (st : store) :
  present st s k = true -> (1 <= count_rows s k st)%nat.
Proof using Type.
  unfold present, count_rows. induction (pending st) as [|r l IH]; simpl.
  - discriminate.
  - destruct (same_identity s k r); simpl; [lia | exact IH].
Qed.

Lemma same_identity_refl (s k t u rp : str) ls lang amt cur ca i n :
  same_identity s k (mkRow i s k t u rp ls lang amt cur ca n) = true.
Proof using Type.
  unfold same_identity, str_eqb. simpl.
  rewrite !bool_decide_eq_true_2 by reflexivity. reflexivity.
Qed.

Lemma same_identity_eq (s k : str) (r : row) :
  same_identity s k r = true <-> source r = s /\ key r = k.
Proof using Type.
  unfold same_identity, str_eqb. rewrite andb_true_iff.
  rewrite !bool_decide_eq_true. reflexivity.
Qed.

Lemma count_rows_insert (s k s' k' t u rp : str) ls lang amt cur ca st :
  count_rows s' k' (insert_pending st s k t u rp ls lang amt cur ca) =
  (count_rows s' k' st
   + if same_identity s' k' (mkRow (next_id st) s k t u rp ls lang amt cur ca 0)
     then 1 else 0)%nat.
Proof using Type.
  unfold count_rows, insert_pending. simpl.
  rewrite List.filter_app, length_app. simpl.
  destruct (same_identity s' k' _); reflexivity.
Qed.

Lemma present_insert (s k t u rp : str) ls lang amt cur ca st :
  present (insert_pending st s k t u rp ls lang amt cur ca) s k = true.
Proof using Type.
  unfold present, insert_pending. simpl. rewrite existsb_app. simpl.
  rewrite same_identity_refl. rewrite orb_true_r. reflexivity.
Qed.

Lemma upsert_present (s k t u rp : str) ls lang amt cur ca (w : world) :
  present (conn w) s k = true ->
  upsert_pending E s k t u rp ls lang amt cur ca w = (Ret false, w).
Proof using Type.
  intros Hp. unfold upsert_pending, bind, get_conn. rewrite Hp. reflexivity.
Qed.

Lemma upsert_absent (s k t u rp : str) ls lang amt cur ca (w : world) :
  present (conn w) s k = false ->
  upsert_pending E s k t u rp ls lang amt cur ca w =
  (Ret true,
   mkWorld (insert_pending (conn w) s k t u rp ls lang amt cur
                           (fst (stamp_of E ca w)))
           (snd (stamp_of E ca w)) (calls w) (files w)).
Proof using Type.
  intros Hp. unfold upsert_pending, bind, get_conn, stamp_of. rewrite Hp.
  destruct ca as [c|]; [destruct (c =? 0)|]; reflexivity.
Qed.

Lemma unique_identity_insert (s k t u rp : str) ls lang amt cur ca st :
  unique_identity st -> present st s k = false ->
  unique_identity (insert_pending st s k t u rp ls lang amt cur ca).
Proof using Type.
  intros Hu Hp s' k'. rewrite count_rows_insert.
  destruct (same_identity s' k' _) eqn:Hs.
  - apply same_identity_eq in Hs. simpl in Hs. destruct Hs as [-> ->].
    rewrite (count_rows_zero _ _ _ Hp). lia.
  - specialize (Hu s' k'). lia.
Qed.

End StoreFacts.

(** C3.  [upsert_pending] on an identity already present changes nothing and
    returns [False]; on an absent one it appends exactly one row, with that
    identity and [notified = 0], and returns [True].  A second upsert of the
    same identity (whatever its other fields) returns [False] and changes
    nothing, and in a store where no identity is held twice the identity is
    then held by exactly one row. *)
Theorem upsert_pending_idempotent {B : PyBuiltins} (E : env)
    (s k t u rp : str) (ls : list str) (lang : str) (amt : option pyfloat)
    (cur : option str) (ca : option Z)
    (t2 u2 rp2 : str) (ls2 : list str) (lang2 : str) (amt2 : option pyfloat)
    (cur2 : option str) (ca2 : option Z) (w : world) :
  unique_identity (conn w) ->
  let first := upsert_pending E s k t u rp ls lang amt cur ca w in
  let second :=
    upsert_pending E s k t2 u2 rp2 ls2 lang2 amt2 cur2 ca2 (snd first) in
  (present (conn w) s k = true -> first = (Ret false, w))
  /\ (present (conn w) s k = false ->
      fst first = Ret true
      /\ meta (conn (snd first)) = meta (conn w)
      /\ exists r,
           pending (conn (snd first)) = pending (conn w) ++ [r]
           /\ source r = s /\ key r = k /\ notified r = 0)
  /\ second = (Ret false, snd first)
  /\ count_rows s k (conn (snd second)) = 1%nat
  /\ unique_identity (conn (snd second)).
Proof.
  intros Hu first second.
  destruct (present (conn w) s k) eqn:Hp.
  - assert (Hf : first = (Ret false, w)) by (apply upsert_present; exact Hp).
    assert (Hs : second = (Ret false, w)).
    { unfold second. rewrite Hf. simpl. apply upsert_present. exact Hp. }
    split; [intros _; exact Hf|].
    split; [discriminate|].
    rewrite Hs, Hf. simpl.
    split; [reflexivity|].
    split; [|exact Hu].
    pose proof (count_rows_pos s k _ Hp). specialize (Hu s k). lia.
  - pose proof (upsert_absent E s k t u rp ls lang amt cur ca w Hp) as Hf.
    fold first in Hf.
    assert (Hp' : present (conn (snd first)) s k = true).
    { rewrite Hf. simpl. apply present_insert. }
    assert (Hs : second = (Ret false, snd first))
      by (apply upsert_present; exact Hp').
    split; [discriminate|].
    split.
    { intros _. rewrite Hf. simpl. split; [reflexivity|].
      split; [reflexivity|]. eexists. split; [reflexivity|]. auto. }
    split; [exact Hs|].
    rewrite Hs. simpl. rewrite Hf. simpl. split.
    + rewrite count_rows_insert, same_identity_refl.
      rewrite (count_rows_zero _ _ _ Hp). reflexivity.
    + apply unique_identity_insert; assumption.
Qed.

(** C3 at the empty store: one GitHub item upserted twice. *)
Lemma upsert_pending_idempotent_witness :
  unique_identity (conn fresh_world)
  /\ count_rows (py "github") (py "gh:1")
       (conn (snd (upsert_pending calm_env (py "github") (py "gh:1")
                     (py "again") [] [] [] [] None None None
                     (snd (upsert_pending calm_env (py "github") (py "gh:1")
                             (py "first") [] [] [] [] None None None
                             fresh_world)))))
     = 1%nat.
Proof.
  assert (H : unique_identity (conn fresh_world))
    by (intros s k; unfold count_rows; simpl; lia).
  split; [exact H|].
  exact (proj1 (proj2 (proj2 (proj2
    (upsert_pending_idempotent calm_env (py "github") (py "gh:1")
       (py "first") [] [] [] [] None None None
       (py "again") [] [] [] [] None None None fresh_world H))))).
Defined.

(** ** The store: selection and commit *)

Section SelectFacts.
Context {B : PyBuiltins}.

Lemma In_insert_desc (x r : row) (l : list row) :
  In r (insert_desc x l) <-> r = x \/ In r l.
Proof using Type.
  induction l as [|y l IH]; simpl.
  - intuition congruence.
  - destruct (created_at y <=? created_at x); simpl.
    + intuition congruence.
    + rewrite IH. intuition congruence.
Qed.

Lemma In_sort_desc (r : row) (l : list row) :
  In r (sort_desc l) <-> In r l.
Proof using Type.
  induction l as [|x l IH]; simpl; [reflexivity|].
  rewrite In_insert_desc, IH. intuition congruence.
Qed.

Lemma length_insert_desc (x : row) (l : list row) :
  length (insert_desc x l) = S (length l).
Proof using Type.
  induction l as [|y l IH]; simpl; [reflexivity|].
  destruct (created_at y <=? created_at x); simpl; congruence.
Qed.

Lemma length_sort_desc (l : list row) : length (sort_desc l) = length l.
Proof using Type.
  induction l as [|x l IH]; simpl; [reflexivity|].
  rewrite length_insert_desc. congruence.
Qed.

Lemma insert_desc_sorted (x : row) (l : list row) :
  StronglySorted newer l -> StronglySorted newer (insert_desc x l).
Proof using Type.
  induction 1 as [|y l Hs IH Hall]; simpl.
  - constructor; constructor.
  - destruct (Z.leb_spec (created_at y) (created_at x)) as [Hle|Hgt].
    + constructor; [constructor; assumption|].
      constructor; [exact Hle|].
      eapply List.Forall_impl; [|exact Hall].
      unfold newer. intros. simpl in *. lia.
    + constructor; [exact IH|].
      apply List.Forall_forall. intros r Hr. apply In_insert_desc in Hr.
      destruct Hr as [->|Hr]; [unfold newer; lia|].
      rewrite List.Forall_forall in Hall. auto.
Qed.

Lemma sort_desc_sorted (l : list row) : StronglySorted newer (sort_desc l).
Proof using Type.
  induction l as [|x l IH]; simpl; [constructor|].
  apply insert_desc_sorted. exact IH.
Qed.




Lemma In_firstn (n : nat) (r : row) (l : list row) :
  In r (firstn n l) -> In r l.
Proof using Type.
  revert l. induction n as [|n IH]; intros [|x l]; simpl; try tauto.
  intros [->|H]; auto.
Qed.

Lemma In_sql_limit (n : Z) (r : row) (l : list row) :
  In r (sql_limit n l) -> In r l.
Proof using Type.
  unfold sql_limit. destruct (n <? 0); [auto|]. apply In_firstn.
Qed.

Lemma In_select_pending (st : store) (since limit : Z) (r : row) :
  In r (select_pending st since limit) ->
  In r (pending st) /\ since <= created_at r /\ notified r = 0.
Proof using Type.
  unfold select_pending. intros H. apply In_sql_limit in H.
  apply (proj1 (In_sort_desc _ _)) in H. apply List.filter_In in H.
  destruct H as [Hin Hp]. unfold is_pending in Hp.
  apply andb_true_iff in Hp. destruct Hp as [H1 H2].
  apply Z.leb_le in H1. apply Z.eqb_eq in H2. auto.
Qed.

Lemma length_select_pending (st : store) (since limit : Z) :
  Z.of_nat (length (select_pending st since limit)) =
  let n := Z.of_nat (length (List.filter (is_pending since) (pending st))) in
  if limit <? 0 then n else Z.min limit n.
Proof using Type.
  unfold select_pending, sql_limit. cbv zeta.
  destruct (Z.ltb_spec limit 0) as [Hn|Hn].
  - rewrite length_sort_desc. reflexivity.
  - rewrite length_firstn, length_sort_desc. lia.
Qed.




(** *** Commit *)

Lemma set_notified_fixed (r : row) : notified r = 1 -> set_notified r = r.
Proof using Type. destruct r; simpl; intros ->; reflexivity. Qed.

Lemma set_notified_twice (r : row) :
  set_notified (set_notified r) = set_notified r.
Proof using Type. reflexivity. Qed.

Lemma mark_notified_rows (st : store) (ids : list Z) :
  pending (mark_notified st ids) = List.map (flag ids) (pending st).
Proof using Type.
  unfold mark_notified. simpl. generalize (pending st) as rows.
  induction ids as [|i ids IH]; intros rows; simpl.
  - unfold flag. simpl. symmetry. apply List.map_id.
  - rewrite IH. unfold update_notified. rewrite List.map_map.
    apply List.map_ext. intros r. unfold flag. simpl.
    destruct (rid r =? i) eqn:Hi; simpl.
    + destruct (existsb (Z.eqb (rid r)) ids); reflexivity.
    + reflexivity.
Qed.

Lemma row_step_refl (r : row) : row_step r r.
Proof using Type. left. reflexivity. Qed.

Lemma row_step_trans (a b c : row) :
  row_step a b -> row_step b c -> row_step a c.
Proof using Type.
  unfold row_step. intros [->| ->] [->| ->]; auto.
Qed.

Lemma evolves_refl (rows : list row) : evolves rows rows.
Proof using Type.
  exists rows, []. rewrite app_nil_r. split; [reflexivity|].
  induction rows; constructor; auto using row_step_refl.
Qed.

Lemma Forall2_row_step_trans (a b c : list row) :
  Forall2 row_step a b -> Forall2 row_step b c -> Forall2 row_step a c.
Proof using Type.
  intros Hab. revert c. induction Hab as [|x y a b Hxy Hab IH]; intros c Hbc.
  - inversion Hbc. constructor.
  - inversion Hbc as [|y' z b' c' Hyz Hbc']; subst.
    constructor; [eapply row_step_trans; eassumption | apply IH; assumption].
Qed.

Lemma evolves_trans (a b c : list row) :
  evolves a b -> evolves b c -> evolves a c.
Proof using Type.
  intros (k1 & a1 & -> & H1) (k2 & a2 & -> & H2).
  apply List.Forall2_app_inv_l in H2.
  destruct H2 as (k2a & k2b & Hka & Hkb & ->).
  exists k2a, (k2b ++ a2). rewrite app_assoc. split; [reflexivity|].
  eapply Forall2_row_step_trans; eassumption.
Qed.

Lemma evolves_mark (st : store) (ids : list Z) :
  evolves (pending st) (pending (mark_notified st ids)).
Proof using Type.
  rewrite mark_notified_rows. exists (List.map (flag ids) (pending st)), [].
  rewrite app_nil_r. split; [reflexivity|].
  induction (pending st) as [|r l IH]; simpl; constructor; [|exact IH].
  unfold flag, row_step. destruct (existsb _ ids); auto.
Qed.

Lemma evolves_insert (st : store) (s k t u rp : str) ls lang amt cur ca :
  evolves (pending st)
          (pending (insert_pending st s k t u rp ls lang amt cur ca)).
Proof using Type.
  unfold insert_pending. simpl. eexists _, _. split; [reflexivity|].
  induction (pending st); constructor; auto using row_step_refl.
Qed.

(** A flagged row stays where it is, as it is. *)
Lemma evolves_keeps_flagged (rows rows' : list row) (i : nat) (r : row) :
  evolves rows rows' -> rows !! i = Some r -> notified r = 1 ->
  rows' !! i = Some r.
Proof using Type.
  intros (kept & added & -> & HF) Hi Hn.
  apply lookup_app_l_Some.
  revert i Hi. induction HF as [|x y a b Hxy HF IH]; intros i Hi.
  - discriminate.
  - destruct i as [|i]; simpl in *.
    + injection Hi as ->. destruct Hxy as [->| ->]; [reflexivity|].
      rewrite set_notified_fixed by exact Hn. reflexivity.
    + apply IH. exact Hi.
Qed.

End SelectFacts.

(** ** What every operation preserves *)

(** The store changes in three ways only: a row is inserted for an identity
    not yet present, rows are flagged, a metadata entry is set.  A relation
    between stores that is a preorder and holds across these three holds
    across every operation of the program. *)
Section Invariant.
Context {B : PyBuiltins}.
Variable R : store -> store -> Prop.
Hypothesis R_refl : forall st, R st st.
Hypothesis R_trans : forall a b c, R a b -> R b c -> R a c.
Hypothesis R_insert :
  forall st s k t u rp ls lang amt cur ca,
    present st s k = false ->
    R st (insert_pending st s k t u rp ls lang amt cur ca).
Hypothesis R_mark : forall st ids, R st (mark_notified st ids).
Hypothesis R_meta : forall st k v, R st (meta_set st k v).

Collection preorder := R_refl R_trans.
Collection changes := R_refl R_trans R_insert R_mark R_meta.

Lemma keeps_ret {A} (a : A) : keeps R (ret a).
Proof using preorder. intros w. apply R_refl. Qed.

Lemma keeps_raise {A} (e : exn) : keeps R (@raise _ A e).
Proof using preorder. intros w. apply R_refl. Qed.

Lemma keeps_hang {A} : keeps R (@hang _ A).
Proof using preorder. intros w. apply R_refl. Qed.

Lemma keeps_get_conn : keeps R get_conn.
Proof using preorder. intros w. apply R_refl. Qed.

Lemma keeps_send (c : call) : keeps R (send c).
Proof using preorder. intros w. apply R_refl. Qed.

Lemma keeps_write_file (path : str) (rows : list row) :
  keeps R (write_file path rows).
Proof using preorder. intros w. apply R_refl. Qed.

Lemma keeps_now (E : env) : keeps R (now E).
Proof using preorder. intros w. apply R_refl. Qed.

Lemma keeps_requests_made : keeps R requests_made.
Proof using preorder. intros w. apply R_refl. Qed.

Lemma keeps_bind {A D} (m : M A) (k : A -> M D) :
  keeps R m -> (forall a, keeps R (k a)) -> keeps R (bind m k).
Proof using preorder.
  intros Hm Hk w. unfold bind. specialize (Hm w).
  destruct (m w) as [[a|e|] w'] eqn:Em; cbn [snd] in *; try exact Hm.
  eapply R_trans; [exact Hm | apply Hk].
Qed.

Lemma keeps_try_except {A} (m : M A) (catches : exn -> bool)
    (handler : exn -> M A) :
  keeps R m -> (forall e, keeps R (handler e)) ->
  keeps R (try_except m catches handler).
Proof using preorder.
  intros Hm Hh w. unfold try_except. specialize (Hm w).
  destruct (m w) as [[a|e|] w'] eqn:Em; cbn [snd] in *; try exact Hm.
  destruct (catches e); cbn [snd]; [|exact Hm].
  eapply R_trans; [exact Hm | apply Hh].
Qed.

Lemma keeps_for_each {A} (xs : list A) (body : A -> M unit) :
  (forall x, keeps R (body x)) -> keeps R (for_each xs body).
Proof using preorder.
  intros Hb. induction xs as [|x xs IH]; cbn [for_each].
  - apply keeps_ret.
  - apply keeps_bind; [apply Hb | intros _; exact IH].
Qed.

(** Reading the store and writing back a later state of it. *)
Lemma keeps_update {A} (f : store -> store) (rest : M A) :
  (forall st, R st (f st)) ->
  keeps R rest ->
  keeps R (bind get_conn (fun st => bind (put_conn (f st)) (fun _ => rest))).
Proof using preorder.
  intros Hf Hr w. unfold bind, get_conn, put_conn. cbn [snd].
  eapply R_trans; [apply Hf|]. apply (Hr (set_conn w (f (conn w)))).
Qed.

Lemma keeps_update_last (f : store -> store) :
  (forall st, R st (f st)) ->
  keeps R (bind get_conn (fun st => put_conn (f st))).
Proof using preorder.
  intros Hf w. unfold bind, get_conn, put_conn. cbn [snd conn set_conn].
  apply Hf.
Qed.

Lemma keeps_upsert (E : env) (s k t u rp : str) ls lang amt cur ca :
  keeps R (upsert_pending E s k t u rp ls lang amt cur ca).
Proof using changes.
  intros w. destruct (present (conn w) s k) eqn:Hp.
  - rewrite upsert_present by exact Hp. apply R_refl.
  - rewrite upsert_absent by exact Hp. cbn [snd conn].
    apply R_insert. exact Hp.
Qed.

Ltac keeps_step :=
  first
    [ apply keeps_ret | apply keeps_raise | apply keeps_hang
    | apply keeps_get_conn | apply keeps_send | apply keeps_write_file
    | apply keeps_now | apply keeps_requests_made | apply keeps_upsert
    | apply keeps_update; [intros; apply R_meta|]
    | apply keeps_update_last; intros; apply R_mark
    | apply keeps_bind; [|intros]
    | apply keeps_try_except; [|intros]
    | apply keeps_for_each; intros
    | match goal with
      | |- keeps _ (if ?b then _ else _) => destruct b
      | |- keeps _ (match ?x with _ => _ end) => destruct x
      end ].

Lemma keeps_ensure_languages (C : config) (E : env) :
  keeps R (ensure_languages C E).
Proof using changes.
  unfold ensure_languages, fetch_profile_languages. repeat keeps_step.
Qed.

Lemma keeps_label_names (ls : list (option str)) : keeps R (label_names ls).
Proof using preorder.
  induction ls as [|[n|] ls IH]; cbn [label_names]; repeat keeps_step.
  exact IH.
Qed.

Lemma keeps_collect (C : config) (E : env) (since_minutes : option Z)
    (include_algora : bool) :
  keeps R (collect C E since_minutes include_algora).
Proof using changes.
  unfold collect, collect_github, collect_algora, github_search, algora_list,
    collect_github_item, collect_algora_item.
  apply keeps_bind; [apply keeps_ensure_languages|]. intros languages.
  repeat first [apply keeps_label_names | keeps_step].
Qed.

Lemma keeps_post_chunks (E : env) (tts : str) (chunks : list str) :
  forall i, keeps R (post_chunks E tts i chunks).
Proof using preorder.
  induction chunks as [|c chunks IH]; intros i; cbn [post_chunks].
  - apply keeps_ret.
  - unfold post_slack_thread.
    apply keeps_bind; [repeat keeps_step | intros _; apply IH].
Qed.

Lemma keeps_digest (C : config) (E : env) (lookback_override_min : option Z) :
  keeps R (digest C E lookback_override_min).
Proof using changes.
  unfold digest, post_slack_bot, post_slack_webhook, write_csv,
    upload_file_to_slack, mkdir, open_file.
  repeat first [apply keeps_post_chunks | keeps_step].
Qed.

Lemma keeps_inject_dummy (E : env) : keeps R (inject_dummy E).
Proof using changes. unfold inject_dummy. repeat keeps_step. Qed.

Lemma keeps_bootstrap (C : config) (E : env) : keeps R (bootstrap C E).
Proof using changes.
  unfold bootstrap. apply keeps_bind; [apply keeps_collect|].
  intros _. apply keeps_digest.
Qed.

Lemma keeps_main (C : config) (E : env) (mode : str) :
  keeps R (main C E mode).
Proof using changes.
  unfold main. apply keeps_try_except; [|intros; apply keeps_ret].
  repeat first
    [ apply keeps_digest | apply keeps_collect | apply keeps_bootstrap
    | apply keeps_ensure_languages | apply keeps_inject_dummy | keeps_step ].
Qed.

Lemma run_op_related (C : config) (E : env) (o : op) (w : world) :
  R (conn w) (conn (run_op C E o w)).
Proof using changes.
  destruct o; cbn [run_op].
  - apply keeps_upsert.
  - apply R_meta.
  - apply R_mark.
  - apply keeps_ensure_languages.
  - apply keeps_collect.
  - apply keeps_digest.
  - apply keeps_inject_dummy.
  - apply keeps_bootstrap.
  - apply keeps_main.
Qed.

Lemma run_all_related (h : list (config * env * op)) :
  forall w, R (conn w) (conn (run_all h w)).
Proof using changes.
  unfold run_all. induction h as [|[[C E] o] h IH]; intros w; cbn [fold_left].
  - apply R_refl.
  - eapply R_trans; [apply (run_op_related C E o w) | apply IH].
Qed.

End Invariant.

(** ** No operation clears the flag, none doubles an identity *)

Section Instances.
Context {B : PyBuiltins}.

Lemma evolves_run_all (h : list (config * env * op)) (w : world) :
  evolves (pending (conn w)) (pending (conn (run_all h w))).
Proof using Type.
  apply (run_all_related evolved); unfold evolved.
  - intros st. apply evolves_refl.
  - intros a b c. apply evolves_trans.
  - intros. apply evolves_insert.
  - intros. apply evolves_mark.
  - intros. apply evolves_refl.
Qed.

Lemma count_rows_mark (s k : str) (st : store) (ids : list Z) :
  count_rows s k (mark_notified st ids) = count_rows s k st.
Proof using Type.
  unfold count_rows. rewrite mark_notified_rows.
  induction (pending st) as [|r l IH]; [reflexivity|].
  cbn [List.map List.filter].
  replace (same_identity s k (flag ids r)) with (same_identity s k r).
  - destruct (same_identity s k r); cbn [length]; rewrite IH; reflexivity.
  - unfold flag. destruct (existsb _ ids); reflexivity.
Qed.

(** From a store where no identity is held twice, no history of operations
    leads to one where some identity is. *)
Lemma unique_identity_run_all (h : list (config * env * op)) (w : world) :
  unique_identity (conn w) -> unique_identity (conn (run_all h w)).
Proof using Type.
  apply (run_all_related stays_unique); unfold stays_unique.
  - auto.
  - auto.
  - intros. apply unique_identity_insert; assumption.
  - intros st ids Hu s k. rewrite count_rows_mark. apply Hu.
  - intros st k v Hu. exact Hu.
Qed.

Lemma unique_identity_empty : unique_identity empty_store.
Proof using Type. intros s k. unfold count_rows. cbn. lia. Qed.

End Instances.

(** C2.  Through any history of operations of the program (upserts, metadata
    updates, commits, whole collect and digest cycles and the other entry
    points), a row whose [notified] is 1 is still there afterwards, in the
    same place and unchanged, so its flag is still 1; and a row whose
    [notified] is 1 is never among the rows a digest selects, which all have
    [notified = 0]. *)
Theorem notified_is_monotonic {B : PyBuiltins}
    (h : list (config * env * op)) (w : world) :
  (forall (i : nat) (r : row),
     pending (conn w) !! i = Some r -> notified r = 1 ->
     pending (conn (run_all h w)) !! i = Some r)
  /\ (forall (since limit : Z) (r : row),
        In r (select_pending (conn (run_all h w)) since limit) ->
        notified r = 0 /\ notified r <> 1).
Proof.
  split.
  - intros i r Hi Hn.
    eapply evolves_keeps_flagged; [apply evolves_run_all | exact Hi | exact Hn].
  - intros since limit r Hin. apply In_select_pending in Hin.
    destruct Hin as (_ & _ & H0). split; [exact H0 | lia].
Qed.

(** ** The digest cycle, step by step *)

Section DigestRun.
Context {B : PyBuiltins}.
Variable C : config.
Variable E : env.

(** The thread posts go out in order until one gets no answer. *)
Lemma post_chunks_cases (tts : str) (chunks : list str) :
  forall (i : nat) (w : world),
    exists o sent unsent,
      post_chunks E tts i chunks w
      = (o, mkWorld (conn w) (ticks w)
              (calls w ++ List.map (SlackThread tts) sent) (files w))
      /\ thread_texts i chunks = sent ++ unsent
      /\ ((o = Ret tt /\ unsent = []) \/ exists e, o = Raise e).
Proof using Type.
  induction chunks as [|c chunks IH]; intros i w.
  - exists (Ret tt), [], []. cbn [post_chunks thread_texts List.map app].
    unfold ret. rewrite app_nil_r. destruct w. auto.
  - cbn [post_chunks thread_texts].
    set (t := _ ++ c).
    unfold post_slack_thread, requests_made, send.
    unfold bind at 1 2 3. cbv beta iota.
    destruct (slack_thread_api E (length (calls w)) tts t) as [e|].
    + exists (Raise e), [t], (thread_texts (S i) chunks).
      unfold raise, bind. cbn [List.map app]. eauto.
    + unfold ret at 1. unfold bind. cbv beta iota.
      destruct (IH (S i) (mkWorld (conn w) (ticks w)
                            (calls w ++ [SlackThread tts t]) (files w)))
        as (o & sent & unsent & Hrun & Hsplit & Hend).
      exists o, (t :: sent), unsent. rewrite Hrun.
      cbn [conn ticks calls files List.map app]. rewrite <- app_assoc.
      rewrite Hsplit. auto.
Qed.

Ltac tidy :=
  cbv beta iota;
  cbn [conn ticks calls files ok ts message_ts fst snd negb andb orb
       truthy_opt no_reply default from_option id thread_texts List.map];
  rewrite <- ?app_assoc; cbn [app]; rewrite ?app_nil_r.

(** The run has ended: it returned, or it was cut short. *)
Ltac leaf :=
  intros [= <- <-] _;
  first
    [ left; split; reflexivity
    | right; split; [discriminate|]; split; [reflexivity|]; split;
      [ first
          [ exists [], []; split; [symmetry; apply app_nil_r | reflexivity]
          | eexists _, _; split;
            [reflexivity | first [reflexivity | symmetry; apply app_nil_r]] ]
      | first [left; reflexivity | right; split; reflexivity] ] ].

(** The export, the upload and the commit. *)
Ltac finish_csv :=
  repeat
    (tidy;
     first
       [ leaf
       | match goal with
         | |- context [WRITE_CSV C] => destruct (WRITE_CSV C)
         | |- context [mkdir_api E ?d] => destruct (mkdir_api E d)
         | |- context [open_api E ?p (py "w")] =>
             destruct (open_api E p (py "w"))
         | |- context [UPLOAD_CSV_TO_SLACK C] =>
             destruct (UPLOAD_CSV_TO_SLACK C)
         | |- context [truthy (SLACK_BOT_TOKEN C)] =>
             destruct (truthy (SLACK_BOT_TOKEN C))
         | |- context [open_api E ?p (py "rb")] =>
             destruct (open_api E p (py "rb"))
         | |- context [slack_upload_api E ?p ?t] =>
             destruct (slack_upload_api E p t)
         end ]).

(** How a cycle that is not suppressed ends: it returns and leaves
    [digest_world], or it is cut short with the store as it was, having made
    the first of the requests of [digest_calls] and written no file or the
    one of the cycle. *)
Lemma digest_ends (lb : option Z) (w : world) (o : outcome unit) (w' : world) :
  digest C E lb w = (o, w') ->
  suppressed C E lb w = false ->
  (o = Ret tt /\ w' = digest_world C E lb w)
  \/ (o <> Ret tt
      /\ conn w' = conn w
      /\ (exists made rest,
            calls w' = calls w ++ made
            /\ digest_calls C E lb w = made ++ rest)
      /\ (files w' = files w
          \/ WRITE_CSV C = true
             /\ files w' = <[csv_path C E w := digest_rows C E lb w]> (files w))).
Proof using Type.
  unfold digest_world, digest_calls, upload_calls, digest_posted,
    webhook_calls, webhook_called, webhook_text, thread_calls, thread_handle,
    bot_calls, bot_reply, suppressed, csv_path, digest_text, digest_details,
    digest_rows, digest_since, digest_lookback.
  unfold digest.
  unfold bind at 1. unfold get_conn at 1. unfold bind at 1. unfold now at 1.
  cbv beta iota.
  set (rows := select_pending _ _ _).
  set (mk := make_digest_text C rows _).
  set (title := py "Bounty digest CSV").
  clearbody rows mk title.
  destruct mk as [text details]. cbn [fst snd].
  destruct (Z.of_nat (length rows) <? DIGEST_MIN_COUNT C);
    [intros _ [=]|].
  unfold post_slack_bot, post_slack_webhook, write_csv,
    upload_file_to_slack, mkdir, open_file, write_file, send, now, get_conn,
    put_conn, set_conn, hang, raise.
  unfold bind, ret.
  set (wtext := if truthy_opt details then _ else text). clearbody wtext.
  destruct (truthy (SLACK_BOT_TOKEN C)) eqn:Htok; tidy.
  - destruct (slack_bot_api E text) as [e|[[o1 tso mts]|]]; tidy.
    + (* the bot post got no answer *)
      leaf.
    + destruct o1; tidy.
      * (* the bot accepted *)
        destruct details as [details|]; tidy; [|finish_csv].
        destruct (if truthy_opt tso then tso else mts) as [tts|]; tidy;
          [|finish_csv].
        destruct (truthy details && POST_LONG_AS_THREAD C && truthy tts);
          tidy; [|finish_csv].
        destruct (chunk_text details (MAX_SLACK_CHARS C)) as [chunks|];
          tidy; [|leaf].
        match goal with
        | |- context [post_chunks E tts O chunks ?w1] =>
            destruct (post_chunks_cases tts chunks O w1)
              as (o2 & sent & unsent & -> & -> & [[-> ->]|[e ->]])
        end; tidy.
        -- finish_csv.
        -- intros [= <- <-] _. right. split; [discriminate|].
           split; [reflexivity|]. split; [|left; reflexivity].
           rewrite List.map_app, <- app_assoc.
           eexists _, _. split; reflexivity.
      * (* the bot answered without accepting *)
        destruct (truthy (SLACK_WEBHOOK_URL C)); tidy; [|finish_csv].
        destruct (slack_webhook_api E wtext) as [e|[status body]]; tidy;
          [leaf|].
        destruct (webhook_ok status body); tidy; finish_csv.
    + (* the answer was not JSON *)
      destruct (truthy (SLACK_WEBHOOK_URL C)); tidy; [|finish_csv].
      destruct (slack_webhook_api E wtext) as [e|[status body]]; tidy;
        [leaf|].
      destruct (webhook_ok status body); tidy; finish_csv.
  - (* no bot token *)
    destruct (truthy (SLACK_WEBHOOK_URL C)); tidy; [|finish_csv].
    destruct (slack_webhook_api E wtext) as [e|[status body]]; tidy;
      [leaf|].
    destruct (webhook_ok status body); tidy; finish_csv.
Qed.

End DigestRun.

(** ** The digest cycle: suppression, commit and export *)

Section DigestFacts.
Context {B : PyBuiltins}.
Variable C : config.
Variable E : env.
Variable lb : option Z.
Variable w : world.

Lemma digest_suppressed_run :
  suppressed C E lb w = true ->
  digest C E lb w = (Ret tt, mkWorld (conn w) (S (ticks w)) (calls w) (files w)).
Proof using Type.
  unfold suppressed, digest_rows, digest_since, digest_lookback, digest.
  unfold bind at 1. unfold get_conn at 1. unfold bind at 1. unfold now at 1.
  cbv beta iota. intros ->. reflexivity.
Qed.

Lemma suppressed_by_count :
  suppressed C E lb w =
  ((if MAX_ITEMS_IN_DIGEST C <? 0 then pending_in_window C E lb w
    else Z.min (MAX_ITEMS_IN_DIGEST C) (pending_in_window C E lb w))
   <? DIGEST_MIN_COUNT C).
Proof using Type.
  unfold suppressed, digest_rows, pending_in_window.
  rewrite length_select_pending. reflexivity.
Qed.

(** A cycle that returns leaves [digest_world]. *)
Lemma digest_returns :
  fst (digest C E lb w) = Ret tt ->
  snd (digest C E lb w) = digest_world C E lb w.
Proof using Type.
  destruct (suppressed C E lb w) eqn:Hsup.
  - intros _. rewrite (digest_suppressed_run Hsup). unfold digest_world.
    rewrite Hsup. reflexivity.
  - destruct (digest C E lb w) as [o w'] eqn:Hrun. cbn [fst snd]. intros ->.
    destruct (digest_ends C E lb w _ _ Hrun Hsup) as [[_ ->]|[Hno _]];
      [reflexivity | congruence].
Qed.

(** The requests a cycle makes are the first of those of a cycle that
    returns. *)
Lemma digest_made_first (made : list call) :
  calls (snd (digest C E lb w)) = calls w ++ made ->
  exists rest,
    (if suppressed C E lb w then [] else digest_calls C E lb w) = made ++ rest
    /\ (fst (digest C E lb w) = Ret tt -> rest = []).
Proof using Type.
  destruct (suppressed C E lb w) eqn:Hsup.
  - rewrite (digest_suppressed_run Hsup). cbn [snd calls]. intros H.
    rewrite <- (app_nil_r (calls w)) in H at 1. apply app_inv_head in H.
    subst made. exists []. auto.
  - destruct (digest C E lb w) as [o w'] eqn:Hrun. cbn [fst snd].
    destruct (digest_ends C E lb w _ _ Hrun Hsup)
      as [[-> ->]|(Hno & _ & (made' & rest & Hc & Hd) & _)].
    + unfold digest_world. rewrite Hsup. cbn [calls]. intros H.
      apply app_inv_head in H. subst made. exists [].
      rewrite app_nil_r. auto.
    + intros H. rewrite Hc in H. apply app_inv_head in H. subst made'.
      exists rest. split; [exact Hd | intros ->; congruence].
Qed.

(** The store after a cycle: as it was, but for a cycle that returns with
    [posted] true, which marks the selected rows. *)
Lemma digest_conn :
  conn (snd (digest C E lb w)) =
  if match fst (digest C E lb w) with Ret _ => true | _ => false end
     && negb (suppressed C E lb w) && digest_posted C E lb w
  then mark_notified (conn w) (List.map rid (digest_rows C E lb w))
  else conn w.
Proof using Type.
  destruct (suppressed C E lb w) eqn:Hsup.
  - rewrite (digest_suppressed_run Hsup). reflexivity.
  - destruct (digest C E lb w) as [o w'] eqn:Hrun. cbn [fst snd].
    destruct (digest_ends C E lb w _ _ Hrun Hsup)
      as [[-> ->]|(Hno & -> & _)].
    + unfold digest_world. rewrite Hsup. reflexivity.
    + destruct o as [[]| |]; [congruence | reflexivity | reflexivity].
Qed.

(** The files after a cycle. *)
Lemma digest_files :
  (fst (digest C E lb w) = Ret tt ->
   files (snd (digest C E lb w)) =
   if negb (suppressed C E lb w) && WRITE_CSV C
   then <[csv_path C E w := digest_rows C E lb w]> (files w)
   else files w)
  /\ (files (snd (digest C E lb w)) = files w
      \/ suppressed C E lb w = false /\ WRITE_CSV C = true
         /\ files (snd (digest C E lb w))
            = <[csv_path C E w := digest_rows C E lb w]> (files w)).
Proof using Type.
  destruct (suppressed C E lb w) eqn:Hsup.
  - rewrite (digest_suppressed_run Hsup). cbn [fst snd files negb andb]. auto.
  - destruct (digest C E lb w) as [o w'] eqn:Hrun. cbn [fst snd negb andb].
    destruct (digest_ends C E lb w _ _ Hrun Hsup)
      as [[-> ->]|(Hno & _ & _ & Hf)].
    + unfold digest_world. rewrite Hsup. cbn [files].
      destruct (WRITE_CSV C); auto.
    + split; [congruence|]. destruct Hf as [Hf|[Hw Hf]]; auto.
Qed.

Lemma thread_calls_not_accepted (tts : str) (texts : list str) :
  existsb (accepted_call E) (List.map (SlackThread tts) texts) = false.
Proof using Type.
  induction texts as [|t texts IH]; [reflexivity | exact IH].
Qed.

Lemma accepted_bot_calls :
  existsb (accepted_call E) (bot_calls C E lb w) = ok (bot_reply C E lb w).
Proof using Type.
  unfold bot_calls, bot_reply.
  destruct (truthy (SLACK_BOT_TOKEN C)); [|reflexivity].
  cbn [existsb accepted_call].
  destruct (slack_bot_api E (digest_text C E lb w)) as [e|[r|]];
    [reflexivity | apply orb_false_r | reflexivity].
Qed.

Lemma accepted_thread_calls :
  existsb (accepted_call E) (thread_calls C E lb w) = false.
Proof using Type.
  unfold thread_calls. destruct (ok (bot_reply C E lb w)); [|reflexivity].
  destruct (digest_details C E lb w) as [d|]; [|reflexivity].
  destruct (thread_handle C E lb w) as [tts|]; [|reflexivity].
  destruct (truthy d && POST_LONG_AS_THREAD C && truthy tts);
    [apply thread_calls_not_accepted | reflexivity].
Qed.

Lemma accepted_upload_calls :
  existsb (accepted_call E) (upload_calls C E lb w) = false.
Proof using Type.
  unfold upload_calls. destruct (_ && _ && _); reflexivity.
Qed.

(** Up to the upload, the requests of a cycle hold an accepted one exactly
    when [posted] ends true. *)
Lemma accepted_before_upload :
  existsb (accepted_call E)
    (bot_calls C E lb w ++ thread_calls C E lb w ++ webhook_calls C E lb w)
  = digest_posted C E lb w.
Proof using Type.
  rewrite !existsb_app, accepted_bot_calls, accepted_thread_calls.
  unfold digest_posted, webhook_calls, webhook_called.
  destruct (ok (bot_reply C E lb w)); cbn [negb andb orb]; [reflexivity|].
  destruct (truthy (SLACK_WEBHOOK_URL C)); cbn [existsb accepted_call orb];
    [|reflexivity].
  destruct (slack_webhook_api E (webhook_text C E lb w)) as [e|[s b]];
    [reflexivity | apply orb_false_r].
Qed.

(** The calls of a cycle hold an accepted one exactly when [posted] ends
    true. *)
Lemma accepted_iff_posted :
  existsb (accepted_call E) (digest_calls C E lb w) = digest_posted C E lb w.
Proof using Type.
  unfold digest_calls.
  rewrite !app_assoc, existsb_app, accepted_upload_calls, orb_false_r.
  rewrite <- app_assoc. apply accepted_before_upload.
Qed.

Lemma upload_only_when_posted (p t : str) :
  In (SlackUpload p t) (digest_calls C E lb w) ->
  digest_posted C E lb w = true.
Proof using Type.
  unfold digest_calls. rewrite !in_app_iff. intros [H|[H|[H|H]]].
  - unfold bot_calls in H. destruct (truthy _); simpl in H;
      [destruct H as [H|[]]; discriminate | contradiction].
  - unfold thread_calls in H.
    destruct (ok _); [|contradiction].
    destruct (digest_details C E lb w) as [d|]; [|contradiction].
    destruct (thread_handle C E lb w) as [tts|]; [|contradiction].
    destruct (truthy d && _ && _); [|contradiction].
    apply in_map_iff in H. destruct H as (x & Hx & _). discriminate.
  - unfold webhook_calls in H. destruct (webhook_called C E lb w);
      [destruct H as [H|[]]; discriminate | contradiction].
  - unfold upload_calls in H.
    destruct (digest_posted C E lb w); [reflexivity|].
    rewrite andb_false_r in H. contradiction.
Qed.

(** The upload is the last request of a cycle: requests that hold it hold
    all those made before. *)
Lemma upload_is_last (made rest : list call) (p t : str) :
  digest_calls C E lb w = made ++ rest ->
  In (SlackUpload p t) made ->
  exists more,
    made = (bot_calls C E lb w ++ thread_calls C E lb w
            ++ webhook_calls C E lb w) ++ more.
Proof using Type.
  unfold digest_calls. rewrite !app_assoc. rewrite <- (app_assoc (bot_calls _ _ _ _)).
  set (front := bot_calls C E lb w ++ thread_calls C E lb w
                ++ webhook_calls C E lb w).
  assert (Hfront : forall c, In c front -> c <> SlackUpload p t).
  { intros c Hc Heq. subst c.
    assert (Hd : In (SlackUpload p t) (digest_calls C E lb w)).
    { unfold digest_calls. rewrite !app_assoc, <- (app_assoc (bot_calls _ _ _ _)).
      apply in_or_app. left. exact Hc. }
    unfold front in Hc. rewrite !in_app_iff in Hc.
    destruct Hc as [H|[H|H]].
    - unfold bot_calls in H. destruct (truthy _);
        [destruct H as [H|[]]; discriminate | contradiction].
    - unfold thread_calls in H.
      destruct (ok _); [|contradiction].
      destruct (digest_details C E lb w) as [d|]; [|contradiction].
      destruct (thread_handle C E lb w) as [tts|]; [|contradiction].
      destruct (truthy d && _ && _); [|contradiction].
      apply in_map_iff in H. destruct H as (x & Hx & _). discriminate.
    - unfold webhook_calls in H. destruct (webhook_called C E lb w);
        [destruct H as [H|[]]; discriminate | contradiction]. }
  clearbody front. generalize (upload_calls C E lb w). intros back.
  revert made. induction front as [|a front IH]; intros made Heq Hin.
  - exists made. reflexivity.
  - destruct made as [|a' made]; [contradiction|].
    cbn [app] in Heq. injection Heq as <- Heq.
    destruct Hin as [Ha|Hin].
    + exfalso. apply (Hfront a); [left; reflexivity | exact Ha].
    + destruct (IH (fun c Hc => Hfront c (or_intror Hc)) made Heq Hin)
        as [more ->].
      exists more. reflexivity.
Qed.

(** No upload without an accepted request before it, however the cycle
    ends. *)
Lemma upload_after_accepted (made : list call) (p t : str) :
  calls (snd (digest C E lb w)) = calls w ++ made ->
  In (SlackUpload p t) made ->
  existsb (accepted_call E) made = true.
Proof using Type.
  intros Hmade Hin.
  destruct (digest_made_first made Hmade) as (rest & Hd & _).
  destruct (suppressed C E lb w).
  - destruct made; [contradiction | discriminate].
  - destruct (upload_is_last made rest p t Hd Hin) as [more ->].
    rewrite existsb_app, accepted_before_upload.
    rewrite (upload_only_when_posted p t); [reflexivity|].
    rewrite Hd. apply in_or_app. left. exact Hin.
Qed.


End DigestFacts.

(** C7.  When the number of records pending in the lookback window, capped
    at [MAX_ITEMS_IN_DIGEST] (a negative cap being none), is below
    [DIGEST_MIN_COUNT], the digest cycle returns with the store as it was,
    no request sent and no file written. *)
Theorem digest_suppression {B : PyBuiltins} (C : config) (E : env)
    (lb : option Z) (w : world) :
  (if MAX_ITEMS_IN_DIGEST C <? 0 then pending_in_window C E lb w
   else Z.min (MAX_ITEMS_IN_DIGEST C) (pending_in_window C E lb w))
  < DIGEST_MIN_COUNT C ->
  exists w',
    digest C E lb w = (Ret tt, w')
    /\ conn w' = conn w /\ calls w' = calls w /\ files w' = files w.
Proof.
  intros Hlt. eexists. split.
  - apply digest_suppressed_run. rewrite suppressed_by_count.
    apply Z.ltb_lt. exact Hlt.
  - repeat split.
Qed.

(** C7 with a threshold of three and two records in the window. *)
Lemma digest_suppression_witness :
  let w := world_of [issue_row 1 (py "one") t0; issue_row 2 (py "two") t0] in
  pending_in_window threshold_config calm_env None w = 2
  /\ exists w',
       digest threshold_config calm_env None w = (Ret tt, w')
       /\ conn w' = conn w /\ calls w' = calls w /\ files w' = files w.
Proof.
  intros w. split; [vm_compute; reflexivity|].
  apply (digest_suppression threshold_config calm_env None w).
  vm_compute. reflexivity.
Defined.


(** C6 (as amended).  The export does not wait for a delivery.  A digest
    cycle that runs to its end has written the file, under the name made
    from the clock, exactly when it was not suppressed and [WRITE_CSV] is
    set, whether or not any request was accepted; a cycle that is cut short
    has written that file or none, and a cycle that is suppressed or runs
    with [WRITE_CSV] unset writes none.  However the cycle ends, when no
    request was answered with acceptance the store is as it was and no
    upload was made. *)
Theorem digest_export_rule {B : PyBuiltins} (C : config) (E : env)
    (lb : option Z) (w : world) :
  exists made,
    calls (snd (digest C E lb w)) = calls w ++ made
    /\ (fst (digest C E lb w) = Ret tt ->
        files (snd (digest C E lb w)) =
        if negb (suppressed C E lb w) && WRITE_CSV C
        then <[csv_path C E w := digest_rows C E lb w]> (files w)
        else files w)
    /\ (files (snd (digest C E lb w)) = files w
        \/ suppressed C E lb w = false /\ WRITE_CSV C = true
           /\ files (snd (digest C E lb w))
              = <[csv_path C E w := digest_rows C E lb w]> (files w))
    /\ (existsb (accepted_call E) made = false ->
        conn (snd (digest C E lb w)) = conn w
        /\ forall p t, ~ In (SlackUpload p t) made).
Proof.
  assert (Hmade : exists made,
            calls (snd (digest C E lb w)) = calls w ++ made).
  { destruct (suppressed C E lb w) eqn:Hsup.
    - exists []. rewrite (digest_suppressed_run C E lb w Hsup).
      cbn [snd calls]. rewrite app_nil_r. reflexivity.
    - destruct (digest C E lb w) as [o w'] eqn:Hrun. cbn [snd].
      destruct (digest_ends C E lb w _ _ Hrun Hsup)
        as [[_ ->]|(_ & _ & (made & _ & Hc & _) & _)].
      + exists (digest_calls C E lb w). unfold digest_world.
        rewrite Hsup. reflexivity.
      + exists made. exact Hc. }
  destruct Hmade as [made Hmade]. exists made.
  split; [exact Hmade|].
  destruct (digest_files C E lb w) as [Hret Hany].
  split; [exact Hret|]. split; [exact Hany|].
  intros Hacc. split.
  - rewrite digest_conn.
    destruct (fst (digest C E lb w)) as [[]| |] eqn:Ho; try reflexivity.
    destruct (suppressed C E lb w) eqn:Hsup; [reflexivity|].
    destruct (digest_made_first C E lb w made Hmade) as (rest & Hd & Hr).
    rewrite Hsup in Hd. rewrite (Hr Ho), app_nil_r in Hd. subst made.
    rewrite accepted_iff_posted in Hacc. rewrite Hacc. reflexivity.
  - intros p t Hin.
    rewrite (upload_after_accepted C E lb w made p t Hmade Hin) in Hacc.
    discriminate.
Qed.

(** C6 in two runs: one that returns with nothing accepted, where the file
    is written, and one that is cut short after the bot accepted, where the
    directory could not be made and the files are as they were. *)
Lemma digest_export_rule_witness :
  let w := world_of [issue_row 1 (py "one") t0] in
  (fst (digest webhook_config deaf_env None w) = Ret tt
   /\ files (snd (digest webhook_config deaf_env None w))
      = <[csv_path webhook_config deaf_env w
          := digest_rows webhook_config deaf_env None w]> (files w))
  /\ (fst (digest default_config readonly_env None w) = Raise OSError
      /\ WRITE_CSV default_config = true
      /\ exists made,
           calls (snd (digest default_config readonly_env None w))
           = calls w ++ made
           /\ (files (snd (digest default_config readonly_env None w))
               = files w
               \/ files (snd (digest default_config readonly_env None w))
                  = <[csv_path default_config readonly_env w
                      := digest_rows default_config readonly_env None w]>
                      (files w))).
Proof.
  intros w. split.
  - assert (Hret : fst (digest webhook_config deaf_env None w) = Ret tt)
      by (vm_compute; reflexivity).
    split; [exact Hret|].
    destruct (digest_export_rule webhook_config deaf_env None w)
      as (made & _ & Hfiles & _).
    exact (Hfiles Hret).
  - split; [vm_compute; reflexivity|]. split; [reflexivity|].
    destruct (digest_export_rule default_config readonly_env None w)
      as (made & Hmade & _ & Hany & _).
    exists made. split; [exact Hmade|].
    destruct Hany as [H|(_ & _ & H)]; [left | right]; exact H.
Defined.

(** C6, where the claim as stated fails: neither transport accepts (there
    is no bot token and the webhook answers 500), no record is marked, and
    yet the export file of the cycle is written. *)
Lemma export_written_without_delivery :
  let w := world_of [issue_row 1 (py "one") t0] in
  let w' := snd (digest webhook_config deaf_env None w) in
  fst (digest webhook_config deaf_env None w) = Ret tt
  /\ calls w' = [SlackWebhook (digest_text webhook_config deaf_env None w)]
  /\ existsb (accepted_call deaf_env) (calls w') = false
  /\ conn w' = conn w
  /\ files w = ∅
  /\ files w' !! py "./bounty_csv/bounty_digest_20261104_0000.csv"
     = Some [issue_row 1 (py "one") t0].
Proof.
  intros w w'.
  assert (Hret : fst (digest webhook_config deaf_env None w) = Ret tt)
    by (vm_compute; reflexivity).
  split; [exact Hret|].
  unfold w'. rewrite (digest_returns webhook_config deaf_env None w Hret).
  unfold digest_world.
  replace (suppressed webhook_config deaf_env None w) with false
    by (vm_compute; reflexivity).
  replace (digest_posted webhook_config deaf_env None w) with false
    by (vm_compute; reflexivity).
  cbn [conn calls files WRITE_CSV webhook_config].
  split; [vm_compute; reflexivity|].
  split; [vm_compute; reflexivity|].
  split; [reflexivity|].
  split; [reflexivity|].
  replace (csv_path webhook_config deaf_env w)
    with (py "./bounty_csv/bounty_digest_20261104_0000.csv")
    by (vm_compute; reflexivity).
  rewrite lookup_insert_eq. f_equal.
Qed.

(** ** collect: what the GitHub path stores *)

Section CollectFacts.
Context {B : PyBuiltins}.
Variable C : config.
Variable E : env.

Lemma label_names_world (ls : list (option str)) (w : world) :
  snd (label_names ls w) = w.
Proof using Type.
  induction ls as [|[n|] ls IH]; cbn [label_names]; try reflexivity.
  unfold bind. destruct (label_names ls w) as [[a|e|] w1]; cbn [snd] in *;
    subst; reflexivity.
Qed.

(** One pass of the GitHub loop leaves the world as it was, or has added one
    row stamped with the reading of the clock it took. *)
Lemma collect_github_item_run (it : gh_item) (w : world) :
  (exists o, collect_github_item E it w = (o, w))
  \/ exists k t u rp names,
       collect_github_item E it w =
       (Ret tt,
        mkWorld (insert_pending (conn w) (py "github") k t u rp names []
                                None None (clock E (ticks w)))
                (S (ticks w)) (calls w) (files w)).
Proof using Type.
  unfold collect_github_item, bind, ret.
  destruct (gh_id it) as [i|]; [|left; eexists; reflexivity].
  pose proof (label_names_world (gh_labels it) w) as Hw.
  destruct (label_names (gh_labels it) w) as [[names|e|] w1];
    cbn [snd] in Hw; subst w1; [|left; eexists; reflexivity..].
  destruct (present (conn w) (py "github") (py "gh:" ++ str_of_int i)) eqn:Hp.
  - rewrite upsert_present by exact Hp. left. eexists. reflexivity.
  - rewrite upsert_absent by exact Hp. right.
    unfold stamp_of. cbn [fst snd]. do 5 eexists. reflexivity.
Qed.

Lemma stamped_refl (w : world) : stamped E w w.
Proof using Type.
  split; [lia|]. exists []. rewrite app_nil_r. split; [reflexivity | constructor].
Qed.

Lemma stamped_trans (w1 w2 w3 : world) :
  stamped E w1 w2 -> stamped E w2 w3 -> stamped E w1 w3.
Proof using Type.
  intros (Ht1 & a1 & Hp1 & Hf1) (Ht2 & a2 & Hp2 & Hf2).
  split; [lia|]. exists (a1 ++ a2). split.
  - rewrite Hp2, Hp1, app_assoc. reflexivity.
  - apply Forall_app. split.
    + eapply List.Forall_impl; [|exact Hf1].
      intros r (Hs & n & Hn & Hc). split; [exact Hs|]. exists n. split; [lia | exact Hc].
    + eapply List.Forall_impl; [|exact Hf2].
      intros r (Hs & n & Hn & Hc). split; [exact Hs|]. exists n. split; [lia | exact Hc].
Qed.

Lemma stamped_item (it : gh_item) (w : world) :
  stamped E w (snd (collect_github_item E it w)).
Proof using Type.
  destruct (collect_github_item_run it w)
    as [[o ->]|(k & t & u & rp & names & ->)].
  - apply stamped_refl.
  - cbn [snd]. split; [cbn [ticks]; lia|].
    eexists. split; [reflexivity|].
    constructor; [|constructor]. cbn [source created_at ticks].
    split; [reflexivity|]. exists (ticks w). split; [lia | reflexivity].
Qed.

Lemma stamped_loop (items : list gh_item) :
  forall w, stamped E w (snd (for_each items (collect_github_item E) w)).
Proof using Type.
  induction items as [|it items IH]; intros w; cbn [for_each].
  - apply stamped_refl.
  - unfold bind. pose proof (stamped_item it w) as Hi.
    destruct (collect_github_item E it w) as [[[]|e|] w1]; cbn [snd] in *;
      try exact Hi.
    eapply stamped_trans; [exact Hi | apply IH].
Qed.

Lemma stamped_github_search (languages : list str) (since : Z) (w : world) :
  stamped E w (snd (github_search E languages since w)).
Proof using Type.
  unfold github_search, bind, now, send.
  assert (H : stamped E w
            (mkWorld (conn w) (S (ticks w))
                     (calls w ++ [GithubSearch languages since]) (files w))).
  { split; [cbn [ticks]; lia|]. exists []. cbn [conn].
    rewrite app_nil_r. split; [reflexivity | constructor]. }
  cbn [conn ticks calls files].
  destruct (_ && _); [exact H|].
  destruct (gh_body _); exact H.
Qed.

Lemma stamped_collect_github (languages : list str) (since : option Z)
    (w : world) :
  stamped E w (snd (collect_github C E languages since w)).
Proof using Type.
  unfold collect_github, try_except. unfold bind.
  pose proof (stamped_github_search languages
                (or_int since (WINDOW_MINUTES C)) w) as Hs.
  destruct (github_search E languages _ w) as [[items|e|] w1]; cbn [snd] in Hs.
  - pose proof (stamped_loop items w1) as Hl.
    destruct (for_each items (collect_github_item E) w1) as [[[]|e|] w2];
      cbn [snd] in Hl.
    + cbn [snd]. eapply stamped_trans; eassumption.
    + destruct (is_HTTPError e); cbn [snd]; eapply stamped_trans; eassumption.
    + cbn [snd]. eapply stamped_trans; eassumption.
  - destruct (is_HTTPError e); exact Hs.
  - exact Hs.
Qed.

End CollectFacts.

(** C10.  Every row the GitHub path of [collect] adds is stored with
    [created_at] equal to a reading of the clock taken during that pass: the
    one taken by the upsert that inserts it.  The upstream creation time of
    the issue plays no part. *)
Theorem github_rows_stamped_at_insertion {B : PyBuiltins} (C : config)
    (E : env) (languages : list str) (since : option Z) (w : world) :
  (forall it,
     snd (collect_github_item E it w) = w
     \/ exists r,
          pending (conn (snd (collect_github_item E it w)))
            = pending (conn w) ++ [r]
          /\ source r = py "github"
          /\ created_at r = clock E (ticks w)
          /\ ticks (snd (collect_github_item E it w)) = S (ticks w))
  /\ (forall it upstream,
        collect_github_item E
          (mkGhItem (gh_id it) (gh_title it) (gh_html_url it)
                    (gh_repository_url it) (gh_labels it) upstream) w
        = collect_github_item E it w)
  /\ (let w' := snd (collect_github C E languages since w) in
      exists added,
        pending (conn w') = pending (conn w) ++ added
        /\ Forall (fun r =>
                     source r = py "github"
                     /\ exists n : nat,
                          (ticks w <= n < ticks w')%nat
                          /\ created_at r = clock E n) added).
Proof.
  split; [|split].
  - intros it.
    destruct (collect_github_item_run E it w)
      as [[o ->]|(k & t & u & rp & names & ->)]; [left; reflexivity|].
    right. cbn [snd conn ticks]. eexists. split; [reflexivity|].
    cbn [source created_at]. auto.
  - intros it upstream. reflexivity.
  - apply stamped_collect_github.
Qed.

(** ** collect: which failures stay inside the cycle *)

Section Isolation.
Context {B : PyBuiltins}.
Variable C : config.
Variable E : env.

(** The Algora part lets no [Exception] out. *)
Lemma collect_algora_catches (w : world) (e : exn) :
  fst (collect_algora C E w) = Raise e -> is_Exception e = false.
Proof using Type.
  unfold collect_algora, try_except.
  destruct (bind (algora_list C E) _ w) as [[[]|e'|] w1]; cbn [fst];
    try discriminate.
  destruct (is_Exception e') eqn:He; cbn [fst ret]; [discriminate|].
  intros [= <-]. exact He.
Qed.

(** The GitHub part lets out whatever is not an [HTTPError]: here, the
    error of a body that is not JSON. *)
Lemma collect_github_lets_out (languages : list str) (since : option Z)
    (w : world) :
  let r := github_api E languages (or_int since (WINDOW_MINUTES C)) in
  (400 <=? gh_status r) && (gh_status r <? 600) = false ->
  gh_body r = None ->
  fst (collect_github C E languages since w) = Raise JSONDecodeError.
Proof using Type.
  intros r Hs Hb. unfold collect_github, try_except, github_search, bind,
    now, send. fold r. rewrite Hs, Hb. reflexivity.
Qed.

(** An [HTTPError] of the search is caught. *)
Lemma collect_github_catches_http (languages : list str) (since : option Z)
    (w : world) :
  let r := github_api E languages (or_int since (WINDOW_MINUTES C)) in
  (400 <=? gh_status r) && (gh_status r <? 600) = true ->
  fst (collect_github C E languages since w) = Ret tt.
Proof using Type.
  intros r Hs. unfold collect_github, try_except, github_search, bind,
    now, send. fold r. rewrite Hs. reflexivity.
Qed.

End Isolation.

(** C8, where the code departs from the claim.  GitHub answers 200 with a
    body that is not JSON: [r.json()] raises, the error is no [HTTPError],
    it leaves [collect] and the [__main__] block, and Algora is never asked.
    The same error on the Algora side is caught, and so is a 503 from
    GitHub, after which Algora is asked and its item stored. *)
Lemma github_failure_leaves_collect :
  let r := collect default_config garbled_env None true fresh_world in
  fst r = Raise JSONDecodeError
  /\ calls (snd r) = [GithubProfile; GithubSearch [py "Python"] 12]
  /\ ~ In AlgoraList (calls (snd r))
  /\ fst (main default_config garbled_env (py "collect") fresh_world)
     = Raise JSONDecodeError
  /\ fst (collect default_config algora_down_env None true fresh_world)
     = Ret tt
  /\ (let r' := collect default_config busy_env None true fresh_world in
      fst r' = Ret tt
      /\ In AlgoraList (calls (snd r'))
      /\ List.map key (pending (conn (snd r'))) = [py "algora:7"]).
Proof.
  intros r.
  assert (Hc : calls (snd r) = [GithubProfile; GithubSearch [py "Python"] 12])
    by (vm_compute; reflexivity).
  split; [vm_compute; reflexivity|].
  split; [exact Hc|].
  split; [rewrite Hc; intros [H|[H|[]]]; discriminate|].
  split; [vm_compute; reflexivity|].
  split; [vm_compute; reflexivity|].
  split; [vm_compute; reflexivity|].
  split; [vm_compute; auto|].
  vm_compute; reflexivity.
Qed.

(** ** The size of what is posted *)

Lemma thread_texts_bound (limit : Z) (chunks : list str) :
  Forall (fragment_ok limit) chunks ->
  forall i, Forall (fun t => len t <= limit + 8) (thread_texts i chunks).
Proof.
  induction 1 as [|c chunks [_ Hc] _ IH]; intros i; cbn [thread_texts];
    constructor; [|apply IH].
  unfold len in *. rewrite length_app.
  destruct i; [cbn [length]; lia|].
  change (length (py "(cont.)" ++ [NL])) with 8%nat. lia.
Qed.

(** C5, where the code departs from the claim.  With a budget of 120
    characters and one record whose title has 256, the header fits (104),
    the first fragment is cut at 120, and the second, also cut at 120, is
    posted behind the eight characters of ["(cont.)\n"]: 128.  With a budget
    of 50 the header itself (104) is over it. *)
Lemma continuation_over_budget :
  let posted :=
    calls (snd (digest small_budget_config calm_env None long_title_world)) in
  MAX_SLACK_CHARS small_budget_config = 120
  /\ primary_lengths posted = [104; 120; 128; 75]
  /\ In (SlackThread (py "1793750400.000100")
           (py "(cont.)" ++ [NL] ++ repeat 120%N 120)) posted
  /\ MAX_SLACK_CHARS tiny_budget_config = 50
  /\ primary_lengths
       (calls (snd (digest tiny_budget_config calm_env None
                      (world_of [issue_row 1 (py "one") t0]))))
     = [104; 11; 48].
Proof.
  intros posted.
  split; [reflexivity|].
  split; [vm_compute; reflexivity|].
  split; [vm_compute; auto 10|].
  split; [reflexivity|].
  vm_compute; reflexivity.
Qed.

(** ** The amount in front of a record *)

Section Amount.
Context {B : PyBuiltins}.

Lemma label_amount_none (labs : list str) :
  Forall not_an_amount labs -> label_amount labs = [].
Proof using Type.
  induction 1 as [|lab labs [H|H] _ IH]; cbn [label_amount];
    try reflexivity; rewrite H; [exact IH|].
  destruct (startswith lab (py "USD ")); exact IH.
Qed.

Lemma label_amount_first (before after : list str) (lab : str) (x : pyfloat) :
  Forall not_an_amount before ->
  startswith lab (py "USD ") = true ->
  float_of_str (skipn 4 lab) = Some x ->
  label_amount (before ++ lab :: after) = py "$" ++ format_0f x.
Proof using Type.
  intros Hb Hs Hx. induction Hb as [|l before [H|H] _ IH];
    cbn [label_amount app].
  - rewrite Hs, Hx. reflexivity.
  - rewrite H. exact IH.
  - rewrite H. destruct (startswith l (py "USD ")); exact IH.
Qed.

End Amount.

(** C9 (as amended).  The amount in front of a record is the dollar sign
    followed by the [.0f] rendering of the numeric field [amount] when the
    field is present (whatever [currency] says); otherwise of the number in
    the first label that starts with ["USD "] and whose rest reads as a
    number; labels of any other form, other currency codes included, are
    passed over, and when nothing is found the line is rendered without the
    amount. *)
Theorem bullet_amount_rule {B : PyBuiltins} (r : row) :
  (forall x, amount r = Some x -> bullet_amount r = py "$" ++ format_0f x)
  /\ (forall before lab after x,
        amount r = None ->
        labels r = before ++ lab :: after ->
        Forall not_an_amount before ->
        startswith lab (py "USD ") = true ->
        float_of_str (skipn 4 lab) = Some x ->
        bullet_amount r = py "$" ++ format_0f x)
  /\ (amount r = None -> Forall not_an_amount (labels r) ->
      bullet_amount r = []
      /\ bullet r =
         py "• " ++ (if truthy (repo r) then repo r ++ dash else [])
           ++ title r ++ [NL] ++ py "  " ++ url r ++ py " ("
           ++ utc_hhmm (created_at r) ++ py ")")
  /\ (bullet_amount r <> [] ->
      bullet r =
      py "• " ++ (bullet_amount r ++ dash)
        ++ (if truthy (repo r) then repo r ++ dash else [])
        ++ title r ++ [NL] ++ py "  " ++ url r ++ py " ("
        ++ utc_hhmm (created_at r) ++ py ")").
Proof.
  split; [intros x Hx; unfold bullet_amount; rewrite Hx; reflexivity|].
  split.
  { intros before lab after x Ha Hl Hb Hs Hx.
    unfold bullet_amount. rewrite Ha, Hl.
    apply label_amount_first; assumption. }
  split.
  - intros Ha Hall.
    assert (Hz : bullet_amount r = []).
    { unfold bullet_amount. rewrite Ha. apply label_amount_none. exact Hall. }
    split; [exact Hz|]. unfold bullet. rewrite Hz. reflexivity.
  - intros Hne. unfold bullet.
    destruct (bullet_amount r) as [|c s]; [congruence | reflexivity].
Qed.

(** C9, where the claim as stated fails: a record without the numeric
    field whose label is ["EUR 50.00"] gets no amount, while the same record
    labelled ["USD 50.00"] gets ["$50"]; and a record whose field is 50 with
    currency EUR is shown with the dollar sign. *)
Lemma other_currency_label_ignored :
  let euro_label :=
    @mkRow plain_builtins 1 (py "github") (py "gh:1") (py "one") [] []
           [py "EUR 50.00"] [] None None t0 0 in
  let dollar_label :=
    @mkRow plain_builtins 1 (py "github") (py "gh:1") (py "one") [] []
           [py "USD 50.00"] [] None None t0 0 in
  let euro_field :=
    @mkRow plain_builtins 1 (py "algora") (py "algora:1") (py "one") [] []
           [py "EUR 50.00"] [] (@float_of_str plain_builtins (py "50.0"))
           (Some (py "EUR")) t0 0 in
  bullet_amount euro_label = []
  /\ bullet euro_label = py "• one" ++ [NL] ++ py "   (00:00Z)"
  /\ bullet_amount dollar_label = py "$50"
  /\ bullet_amount euro_field = py "$50".
Proof.
  intros euro_label dollar_label euro_field.
  repeat split; vm_compute; reflexivity.
Qed.

(** * Further properties *)

(** ** Selection *)

Section SelectMore.
Context {B : PyBuiltins}.

Lemma sorted_app_newer (l1 l2 : list row) :
  StronglySorted newer (l1 ++ l2) ->
  forall x y, In x l1 -> In y l2 -> newer x y.
Proof using Type.
  induction l1 as [|a l1 IH]; intros Hs x y Hx Hy; [contradiction|].
  cbn [app] in Hs. inversion Hs as [|? ? Hs' Hall]; subst.
  destruct Hx as [->|Hx].
  - rewrite List.Forall_forall in Hall. apply Hall.
    apply in_or_app. right. exact Hy.
  - apply IH; assumption.
Qed.

Lemma sorted_firstn (n : nat) (l : list row) :
  StronglySorted newer l -> StronglySorted newer (firstn n l).
Proof using Type.
  intros Hs. revert n. induction Hs as [|a l Hs IH Hall]; intros [|n];
    cbn [firstn]; try constructor.
  - apply IH.
  - rewrite List.Forall_forall in *. intros x Hx. apply Hall.
    eapply In_firstn. exact Hx.
Qed.

Lemma sql_limit_sorted (n : Z) (l : list row) :
  StronglySorted newer l -> StronglySorted newer (sql_limit n l).
Proof using Type.
  unfold sql_limit. destruct (n <? 0); [auto | apply sorted_firstn].
Qed.

Lemma sql_limit_split (n : Z) (l : list row) :
  exists rest, l = sql_limit n l ++ rest.
Proof using Type.
  unfold sql_limit. destruct (n <? 0).
  - exists []. rewrite app_nil_r. reflexivity.
  - exists (skipn (Z.to_nat n) l). symmetry. apply firstn_skipn.
Qed.

Lemma sql_limit_all (n : Z) (l : list row) :
  n < 0 \/ Z.of_nat (length l) <= n -> sql_limit n l = l.
Proof using Type.
  unfold sql_limit. intros H. destruct (Z.ltb_spec n 0); [reflexivity|].
  apply firstn_all2. lia.
Qed.

End SelectMore.

(** X1.  What the digest query returns: only rows of the table that lie in
    the window and are not notified, newest first, no more than a limit that
    is not negative; the rows of the window it leaves out are no newer than
    any it returns; and it returns every such row when the limit is negative
    or not below their number. *)
Theorem select_pending_window {B : PyBuiltins} (st : store)
    (since limit : Z) :
  let sel := select_pending st since limit in
  (forall r, In r sel ->
     In r (pending st) /\ since <= created_at r /\ notified r = 0)
  /\ StronglySorted newer sel
  /\ (0 <= limit -> Z.of_nat (length sel) <= limit)
  /\ (forall r r', In r sel -> In r' (pending st) ->
        is_pending since r' = true -> ~ In r' sel ->
        created_at r' <= created_at r)
  /\ (limit < 0
      \/ Z.of_nat (length (List.filter (is_pending since) (pending st)))
         <= limit ->
      forall r, In r (pending st) -> since <= created_at r ->
        notified r = 0 -> In r sel).
Proof.
  intros sel.
  set (S := sort_desc (List.filter (is_pending since) (pending st))).
  assert (HS : StronglySorted newer S) by apply sort_desc_sorted.
  assert (Hsel : sel = sql_limit limit S) by reflexivity.
  assert (HinS : forall r, In r S <->
            In r (pending st) /\ is_pending since r = true).
  { intros r. unfold S. rewrite In_sort_desc. apply List.filter_In. }
  split; [intros r Hr; eapply In_select_pending; exact Hr|].
  split; [rewrite Hsel; apply sql_limit_sorted; exact HS|].
  split.
  { intros Hl. unfold sel. rewrite length_select_pending. cbv zeta.
    destruct (Z.ltb_spec limit 0); lia. }
  split.
  - intros r r' Hr Hr' Hp Hnot.
    destruct (sql_limit_split limit S) as [rest Hsplit].
    rewrite <- Hsel in Hsplit.
    assert (Hrest : In r' rest).
    { assert (H : In r' S) by (apply HinS; auto).
      rewrite Hsplit in H. apply in_app_or in H. tauto. }
    rewrite Hsplit in HS.
    apply (sorted_app_newer sel rest HS r r' Hr Hrest).
  - intros Hall r Hr Hs Hn. rewrite Hsel, sql_limit_all.
    + apply HinS. split; [exact Hr|]. unfold is_pending.
      apply andb_true_iff. split; [apply Z.leb_le | apply Z.eqb_eq]; assumption.
    + unfold S. rewrite length_sort_desc. exact Hall.
Qed.

(** ** Commit *)

Section MarkMore.
Context {B : PyBuiltins}.

Lemma flag_listed (ids : list Z) (r : row) :
  In (rid r) ids -> flag ids r = set_notified r.
Proof using Type.
  intros Hi. unfold flag.
  replace (existsb (Z.eqb (rid r)) ids) with true; [reflexivity|].
  symmetry. apply existsb_exists. exists (rid r). split; [exact Hi|].
  apply Z.eqb_refl.
Qed.


Lemma rid_flag (ids : list Z) (r : row) : rid (flag ids r) = rid r.
Proof using Type. unfold flag. destruct (existsb _ ids); reflexivity. Qed.



End MarkMore.


(** ** Identifiers *)

Section Ids.
Context {B : PyBuiltins}.

Lemma fold_max_ge (z : Z) (l : list Z) :
  z <= fold_right Z.max z l /\ forall x, In x l -> x <= fold_right Z.max z l.
Proof using Type.
  induction l as [|a l [IH1 IH2]]; cbn [fold_right].
  - split; [lia | intros x []].
  - split; [lia|]. intros x [->|Hx]; [lia|]. specialize (IH2 x Hx). lia.
Qed.

Lemma rid_le_top (st : store) (r : row) :
  In r (pending st) -> rid r <= top_id st.
Proof using Type.
  intros Hr. unfold top_id. apply fold_max_ge. apply in_map. exact Hr.
Qed.

Lemma next_id_top (st : store) : next_id st = 1 + top_id st.
Proof using Type. reflexivity. Qed.

Lemma fold_max_app (z a : Z) (l : list Z) :
  fold_right Z.max z (l ++ [a]) = Z.max a (fold_right Z.max z l).
Proof using Type.
  induction l as [|x l IH]; cbn [app fold_right]; [lia|]. rewrite IH. lia.
Qed.

Lemma top_id_insert (st : store) (s k t u rp : str) ls lang amt cur ca :
  top_id (insert_pending st s k t u rp ls lang amt cur ca) = 1 + top_id st.
Proof using Type.
  unfold top_id at 1, insert_pending. cbn [pending seq].
  rewrite List.map_app. cbn [List.map rid]. rewrite fold_max_app.
  rewrite next_id_top.
  pose proof (fold_max_ge (1 + top_id st) (List.map rid (pending st)))
    as [H1 H2].
  assert (H3 : fold_right Z.max (1 + top_id st) (List.map rid (pending st))
               <= 1 + top_id st).
  { assert (Hall : forall x, In x (List.map rid (pending st)) ->
                     x <= 1 + top_id st).
    { intros x Hx. apply in_map_iff in Hx. destruct Hx as (r & <- & Hr).
      pose proof (rid_le_top st r Hr). lia. }
    revert Hall. generalize (List.map rid (pending st)) as l.
    induction l as [|a l IH]; intros Hall; cbn [fold_right]; [lia|].
    assert (a <= 1 + top_id st) by (apply Hall; left; reflexivity).
    assert (fold_right Z.max (1 + top_id st) l <= 1 + top_id st)
      by (apply IH; intros x Hx; apply Hall; right; exact Hx).
    lia. }
  lia.
Qed.

Lemma top_id_mark (st : store) (ids : list Z) :
  top_id (mark_notified st ids) = top_id st.
Proof using Type.
  unfold top_id. rewrite mark_notified_rows. cbn [seq mark_notified].
  rewrite List.map_map. f_equal. apply List.map_ext. intros r.
  unfold flag. destruct (existsb _ ids); reflexivity.
Qed.

Lemma ids_unique_insert (st : store) (s k t u rp : str) ls lang amt cur ca :
  ids_unique st ->
  ids_unique (insert_pending st s k t u rp ls lang amt cur ca).
Proof using Type.
  unfold ids_unique, insert_pending. cbn [pending]. intros Hu.
  rewrite List.map_app. cbn [List.map rid].
  apply NoDup_app. split; [exact Hu|]. split.
  - intros x Hx Hy. apply list_elem_of_singleton in Hy.
    apply list_elem_of_In in Hx.
    apply in_map_iff in Hx. destruct Hx as (r & Hr & Hin).
    pose proof (rid_le_top st r Hin). rewrite next_id_top in Hy. lia.
  - apply NoDup_singleton.
Qed.

Lemma ids_unique_mark (st : store) (ids : list Z) :
  ids_unique st -> ids_unique (mark_notified st ids).
Proof using Type.
  unfold ids_unique. rewrite mark_notified_rows, List.map_map.
  intros Hu. erewrite List.map_ext; [exact Hu|].
  intros r. unfold flag. destruct (existsb _ ids); reflexivity.
Qed.

Lemma ids_unique_run_all (h : list (config * env * op)) (w : world) :
  ids_unique (conn w) -> ids_unique (conn (run_all h w)).
Proof using Type.
  apply (run_all_related keeps_ids_unique); unfold keeps_ids_unique.
  - auto.
  - auto.
  - intros. apply ids_unique_insert. assumption.
  - intros. apply ids_unique_mark. assumption.
  - intros st k v Hu. exact Hu.
Qed.


(** *** Lineage *)

Lemma descends_refl (st : store) : descends st st.
Proof using Type.
  split; [lia|]. intros r Hr. left. exists r. split; [exact Hr | left; reflexivity].
Qed.

Lemma descends_trans (a b c : store) :
  descends a b -> descends b c -> descends a c.
Proof using Type.
  intros [Hab1 Hab2] [Hbc1 Hbc2]. split; [lia|].
  intros r'' Hr''. destruct (Hbc2 r'' Hr'') as [(r' & Hr' & Hs')|Hf]; [|right; lia].
  destruct (Hab2 r' Hr') as [(r & Hr & Hs)|Hf].
  - left. exists r. split; [exact Hr|]. eapply row_step_trans; eassumption.
  - right. destruct Hs' as [->| ->]; cbn [rid set_notified]; exact Hf.
Qed.

Lemma descends_insert (st : store) (s k t u rp : str) ls lang amt cur ca :
  descends st (insert_pending st s k t u rp ls lang amt cur ca).
Proof using Type.
  split; [rewrite top_id_insert; lia|].
  intros r' Hr'. unfold insert_pending in Hr'. cbn [pending] in Hr'.
  apply in_app_or in Hr'. destruct Hr' as [Hr'|[<-|[]]].
  - left. exists r'. split; [exact Hr' | left; reflexivity].
  - right. cbn [rid]. rewrite next_id_top. lia.
Qed.

Lemma descends_mark (st : store) (ids : list Z) :
  descends st (mark_notified st ids).
Proof using Type.
  split; [rewrite top_id_mark; lia|].
  intros r' Hr'. rewrite mark_notified_rows in Hr'.
  apply in_map_iff in Hr'. destruct Hr' as (r & <- & Hr).
  left. exists r. split; [exact Hr|].
  unfold flag, row_step. destruct (existsb _ ids); auto.
Qed.

Lemma descends_meta (st : store) (k : str) (v : json) :
  descends st (meta_set st k v).
Proof using Type.
  split; [unfold top_id; cbn [meta_set pending seq]; lia|].
  intros r Hr. left. exists r. split; [exact Hr | left; reflexivity].
Qed.

Lemma descends_run_all (h : list (config * env * op)) (w : world) :
  descends (conn w) (conn (run_all h w)).
Proof using Type.
  apply (run_all_related descends).
  - apply descends_refl.
  - apply descends_trans.
  - intros. apply descends_insert.
  - apply descends_mark.
  - apply descends_meta.
Qed.

Lemma row_step_same_record (r r' : row) : row_step r r' -> same_record r r'.
Proof using Type.
  intros [->| ->]; unfold same_record; cbn; repeat split; auto.
Qed.

End Ids.

(** X3.  Ids are never reused: through any history of operations a table
    whose ids are pairwise distinct stays so, and the largest id ever used
    never goes down. *)
Theorem ids_stay_unique {B : PyBuiltins} (h : list (config * env * op))
    (w : world) :
  ids_unique (conn w) ->
  ids_unique (conn (run_all h w))
  /\ top_id (conn w) <= top_id (conn (run_all h w)).
Proof.
  intros Hu. split; [apply ids_unique_run_all; exact Hu|].
  apply descends_run_all.
Qed.

Lemma ids_stay_unique_witness :
  ids_unique (conn (world_of [issue_row 1 (py "one") t0]))
  /\ ids_unique
       (conn (run_all [(default_config, calm_env, Digest None);
                       (default_config, garbled_env, Collect None true)]
                      (world_of [issue_row 1 (py "one") t0]))).
Proof.
  assert (H : ids_unique (conn (world_of [issue_row 1 (py "one") t0]))).
  { unfold ids_unique. cbn. apply NoDup_singleton. }
  split; [exact H|].
  exact (proj1 (ids_stay_unique
                  [(default_config, calm_env, Digest None);
                   (default_config, garbled_env, Collect None true)]
                  (world_of [issue_row 1 (py "one") t0]) H)).
Defined.

(** X4.  No operation deletes a row or rewrites one: through any history
    the table does not get shorter and the row at each place keeps its id,
    identity, texts, amount and [created_at]; only [notified] may change, and
    only to 1. *)
Theorem rows_persist {B : PyBuiltins} (h : list (config * env * op))
    (w : world) :
  (length (pending (conn w)) <= length (pending (conn (run_all h w))))%nat
  /\ forall (i : nat) (r : row), pending (conn w) !! i = Some r ->
       exists r', pending (conn (run_all h w)) !! i = Some r'
                  /\ same_record r r'.
Proof.
  destruct (evolves_run_all h w) as (kept & added & Hrows & HF).
  rewrite Hrows. split.
  - rewrite length_app. apply Forall2_length in HF. lia.
  - intros i r Hi.
    assert (Hk : exists r', kept !! i = Some r' /\ row_step r r').
    { clear Hrows. revert i Hi.
      induction HF as [|x y a b Hxy HF IH]; intros i Hi; [discriminate|].
      destruct i as [|i]; cbn in Hi |- *.
      - injection Hi as ->. eauto.
      - apply IH. exact Hi. }
    destruct Hk as (r' & Hr' & Hs). exists r'. split.
    + apply lookup_app_l_Some. exact Hr'.
    + apply row_step_same_record. exact Hs.
Qed.

(** ** The digest cycle: what is sent, and to whom *)

Section DigestMore.
Context {B : PyBuiltins}.
Variable C : config.
Variable E : env.
Variable lb : option Z.
Variable w : world.

(** The requests of a cycle that returns are those of [digest_calls]. *)
Lemma digest_made (made : list call) :
  fst (digest C E lb w) = Ret tt ->
  calls (snd (digest C E lb w)) = calls w ++ made ->
  made = if suppressed C E lb w then [] else digest_calls C E lb w.
Proof using Type.
  intros Hret Hmade.
  destruct (digest_made_first C E lb w made Hmade) as (rest & Hd & Hr).
  rewrite (Hr Hret), app_nil_r in Hd. auto.
Qed.

(** The requests of a cycle, however it ends, are among them. *)
Lemma In_made (made : list call) (c : call) :
  calls (snd (digest C E lb w)) = calls w ++ made ->
  In c made ->
  suppressed C E lb w = false /\ In c (digest_calls C E lb w).
Proof using Type.
  intros Hmade Hin.
  destruct (digest_made_first C E lb w made Hmade) as (rest & Hd & _).
  destruct (suppressed C E lb w).
  - destruct made; [contradiction | discriminate].
  - split; [reflexivity|]. rewrite Hd. apply in_or_app. left. exact Hin.
Qed.

Lemma returned_conn :
  fst (digest C E lb w) = Ret tt ->
  conn (snd (digest C E lb w)) =
  if negb (suppressed C E lb w) && digest_posted C E lb w
  then mark_notified (conn w) (List.map rid (digest_rows C E lb w))
  else conn w.
Proof using Type.
  intros Hret. rewrite digest_conn, Hret. reflexivity.
Qed.

Lemma accepted_made (made : list call) :
  fst (digest C E lb w) = Ret tt ->
  calls (snd (digest C E lb w)) = calls w ++ made ->
  existsb (accepted_call E) made =
  negb (suppressed C E lb w) && digest_posted C E lb w.
Proof using Type.
  intros Hret H. rewrite (digest_made made Hret H).
  destruct (suppressed C E lb w); cbn [negb andb existsb]; [reflexivity|].
  apply accepted_iff_posted.
Qed.

Lemma In_bot_calls (c : call) :
  In c (bot_calls C E lb w) ->
  c = SlackBot (digest_text C E lb w) /\ truthy (SLACK_BOT_TOKEN C) = true.
Proof using Type.
  unfold bot_calls. destruct (truthy (SLACK_BOT_TOKEN C));
    [intros [<-|[]]; auto | intros []].
Qed.

Lemma In_thread_calls (c : call) :
  In c (thread_calls C E lb w) ->
  ok (bot_reply C E lb w) = true
  /\ POST_LONG_AS_THREAD C = true
  /\ exists details tts t,
       digest_details C E lb w = Some details
       /\ thread_handle C E lb w = Some tts /\ truthy tts = true
       /\ c = SlackThread tts t
       /\ In t (thread_texts O
                  (default [] (chunk_text details (MAX_SLACK_CHARS C)))).
Proof using Type.
  unfold thread_calls. destruct (ok (bot_reply C E lb w)); [|intros []].
  destruct (digest_details C E lb w) as [details|]; [|intros []].
  destruct (thread_handle C E lb w) as [tts|]; [|intros []].
  destruct (truthy details && POST_LONG_AS_THREAD C && truthy tts) eqn:Hc;
    [|intros []].
  apply andb_true_iff in Hc. destruct Hc as [Hc Htts].
  apply andb_true_iff in Hc. destruct Hc as [_ Hpost].
  intros Hin. apply in_map_iff in Hin. destruct Hin as (t & <- & Ht).
  split; [reflexivity|]. split; [exact Hpost|].
  exists details, tts, t. auto.
Qed.

Lemma In_webhook_calls (c : call) :
  In c (webhook_calls C E lb w) ->
  c = SlackWebhook (webhook_text C E lb w)
  /\ ok (bot_reply C E lb w) = false.
Proof using Type.
  unfold webhook_calls, webhook_called.
  destruct (ok (bot_reply C E lb w)); cbn [negb andb]; [intros []|].
  destruct (truthy (SLACK_WEBHOOK_URL C)); [intros [<-|[]]; auto | intros []].
Qed.

Lemma In_upload_calls (c : call) :
  In c (upload_calls C E lb w) ->
  c = SlackUpload (csv_path C E w) (py "Bounty digest CSV")
  /\ digest_posted C E lb w = true.
Proof using Type.
  unfold upload_calls.
  destruct (WRITE_CSV C && (digest_posted C E lb w && UPLOAD_CSV_TO_SLACK C)
            && truthy (SLACK_BOT_TOKEN C)) eqn:Hc; [|intros []].
  intros [<-|[]]. split; [reflexivity|].
  destruct (digest_posted C E lb w); [reflexivity|].
  rewrite andb_false_r in Hc. discriminate.
Qed.

Lemma accepted_bot_call :
  truthy (SLACK_BOT_TOKEN C) = true ->
  accepted_call E (SlackBot (digest_text C E lb w)) = ok (bot_reply C E lb w).
Proof using Type.
  intros Ht. unfold bot_reply. rewrite Ht. cbn [accepted_call].
  destruct (slack_bot_api E (digest_text C E lb w)) as [e|[r|]]; reflexivity.
Qed.

(** The text of the digest and its overflow, case by case. *)
Lemma digest_text_cases :
  let bullets := join [NL] (List.map bullet (digest_rows C E lb w)) in
  let summary := digest_summary (digest_rows C E lb w) (digest_lookback C lb) in
  (digest_details C E lb w = None
   /\ digest_text C E lb w = summary ++ bullets
   /\ len (digest_text C E lb w) <= MAX_SLACK_CHARS C)
  \/ (digest_details C E lb w = Some bullets
      /\ digest_text C E lb w = summary ++ py "(Details in thread ⤵️)"
      /\ MAX_SLACK_CHARS C < len (summary ++ bullets)).
Proof using Type.
  intros bullets summary.
  unfold digest_details, digest_text, make_digest_text.
  fold bullets. fold summary.
  destruct (Z.leb_spec (len (summary ++ bullets)) (MAX_SLACK_CHARS C));
    cbn [fst snd]; [left | right]; auto.
Qed.

End DigestMore.

(** X5.  A record that was delivered in a cycle that ran to its end is never
    put in a digest again.  Once a cycle has had a request accepted and has
    returned, no selection made afterwards, after any further operations and
    with any window and limit, returns a row whose id was among those the
    cycle selected. *)
Theorem delivered_never_selected_again {B : PyBuiltins} (C : config) (E : env)
    (lb : option Z) (w : world) (made : list call) :
  fst (digest C E lb w) = Ret tt ->
  calls (snd (digest C E lb w)) = calls w ++ made ->
  existsb (accepted_call E) made = true ->
  forall (h : list (config * env * op)) (since limit : Z) (r : row),
    In r (select_pending (conn (run_all h (snd (digest C E lb w))))
                         since limit) ->
    ~ In (rid r) (List.map rid (digest_rows C E lb w)).
Proof.
  intros HB Hmade Hacc h since limit r Hr Hid.
  rewrite (accepted_made C E lb w made HB Hmade) in Hacc.
  pose proof (returned_conn C E lb w HB) as Hconn. rewrite Hacc in Hconn.
  apply In_select_pending in Hr. destruct Hr as (Hin & _ & Hnot).
  apply in_map_iff in Hid. destruct Hid as (r0 & Hrid & Hsel0).
  assert (Hr0 : In r0 (pending (conn w)))
    by (apply In_select_pending in Hsel0; tauto).
  destruct (descends_run_all h (snd (digest C E lb w))) as [_ Hd].
  destruct (Hd r Hin) as [(r1 & Hr1 & Hstep)|Hfresh].
  - assert (r = r1).
    { destruct Hstep as [->| ->]; [reflexivity|]. cbn in Hnot. lia. }
    subst r1. rewrite Hconn, mark_notified_rows in Hr1.
    apply in_map_iff in Hr1. destruct Hr1 as (r2 & Hflag & Hr2).
    assert (Hrid2 : rid r2 = rid r)
      by (rewrite <- Hflag; symmetry; apply rid_flag).
    rewrite flag_listed in Hflag.
    + rewrite <- Hflag in Hnot. cbn in Hnot. lia.
    + rewrite Hrid2, <- Hrid. apply in_map. exact Hsel0.
  - rewrite Hconn, top_id_mark in Hfresh.
    pose proof (rid_le_top (conn w) r0 Hr0). lia.
Qed.

Lemma delivered_never_selected_again_witness :
  let w := world_of [issue_row 1 (py "one") t0] in
  let made := [SlackBot (digest_text default_config calm_env None w)] in
  fst (digest default_config calm_env None w) = Ret tt
  /\ calls (snd (digest default_config calm_env None w)) = calls w ++ made
  /\ existsb (accepted_call calm_env) made = true
  /\ forall h since limit r,
       In r (select_pending
               (conn (run_all h (snd (digest default_config calm_env None w))))
               since limit) ->
       ~ In (rid r) [1].
Proof.
  intros w made.
  assert (H1 : fst (digest default_config calm_env None w) = Ret tt)
    by (vm_compute; reflexivity).
  assert (H2 : calls (snd (digest default_config calm_env None w))
               = calls w ++ made) by (vm_compute; reflexivity).
  assert (H3 : existsb (accepted_call calm_env) made = true)
    by (vm_compute; reflexivity).
  split; [exact H1|]. split; [exact H2|]. split; [exact H3|].
  exact (delivered_never_selected_again default_config calm_env None w made
           H1 H2 H3).
Defined.



Section DigestCalls.
Context {B : PyBuiltins}.
Variable C : config.
Variable E : env.
Variable lb : option Z.
Variable w : world.

Lemma filter_none {A} (f : A -> bool) (l : list A) :
  (forall x, In x l -> f x = false) -> List.filter f l = [].
Proof using Type.
  induction l as [|a l IH]; intros H; [reflexivity|]. cbn [List.filter].
  rewrite (H a) by (left; reflexivity). apply IH.
  intros x Hx. apply H. right. exact Hx.
Qed.

Lemma bot_calls_short : (length (bot_calls C E lb w) <= 1)%nat.
Proof using Type.
  unfold bot_calls. destruct (truthy _); cbn; lia.
Qed.

Lemma webhook_calls_short : (length (webhook_calls C E lb w) <= 1)%nat.
Proof using Type.
  unfold webhook_calls. destruct (webhook_called _ _ _ _); cbn; lia.
Qed.

Lemma length_filter_le {A} (f : A -> bool) (l : list A) :
  (length (List.filter f l) <= length l)%nat.
Proof using Type.
  induction l as [|a l IH]; cbn [List.filter length]; [lia|].
  destruct (f a); cbn [length]; lia.
Qed.

Lemma one_bot_call :
  (length (List.filter is_bot_call (digest_calls C E lb w)) <= 1)%nat.
Proof using Type.
  unfold digest_calls. rewrite !List.filter_app, !length_app.
  rewrite (filter_none is_bot_call (thread_calls C E lb w)).
  2:{ intros c Hc. apply In_thread_calls in Hc.
      destruct Hc as (_ & _ & d & tts & t & _ & _ & _ & -> & _). reflexivity. }
  rewrite (filter_none is_bot_call (webhook_calls C E lb w)).
  2:{ intros c Hc. apply In_webhook_calls in Hc. destruct Hc as [-> _].
      reflexivity. }
  rewrite (filter_none is_bot_call (upload_calls C E lb w)).
  2:{ intros c Hc. apply In_upload_calls in Hc. destruct Hc as [-> _].
      reflexivity. }
  pose proof (length_filter_le is_bot_call (bot_calls C E lb w)).
  pose proof bot_calls_short. cbn [length]. lia.
Qed.

Lemma one_webhook_call :
  (length (List.filter is_webhook_call (digest_calls C E lb w)) <= 1)%nat.
Proof using Type.
  unfold digest_calls. rewrite !List.filter_app, !length_app.
  rewrite (filter_none is_webhook_call (bot_calls C E lb w)).
  2:{ intros c Hc. apply In_bot_calls in Hc. destruct Hc as [-> _].
      reflexivity. }
  rewrite (filter_none is_webhook_call (thread_calls C E lb w)).
  2:{ intros c Hc. apply In_thread_calls in Hc.
      destruct Hc as (_ & _ & d & tts & t & _ & _ & _ & -> & _). reflexivity. }
  rewrite (filter_none is_webhook_call (upload_calls C E lb w)).
  2:{ intros c Hc. apply In_upload_calls in Hc. destruct Hc as [-> _].
      reflexivity. }
  pose proof (length_filter_le is_webhook_call (webhook_calls C E lb w)).
  pose proof webhook_calls_short. cbn [length]. lia.
Qed.

(** Which part of a cycle a request belongs to. *)
Lemma In_digest_calls (c : call) :
  In c (digest_calls C E lb w) ->
  match c with
  | SlackBot t =>
      t = digest_text C E lb w /\ truthy (SLACK_BOT_TOKEN C) = true
  | SlackThread tts t =>
      ok (bot_reply C E lb w) = true /\ POST_LONG_AS_THREAD C = true
      /\ exists details,
           digest_details C E lb w = Some details
           /\ thread_handle C E lb w = Some tts /\ truthy tts = true
           /\ In t (thread_texts O
                      (default [] (chunk_text details (MAX_SLACK_CHARS C))))
  | SlackWebhook t =>
      t = webhook_text C E lb w /\ ok (bot_reply C E lb w) = false
  | SlackUpload p t =>
      p = csv_path C E w /\ t = py "Bounty digest CSV"
      /\ digest_posted C E lb w = true
  | _ => False
  end.
Proof using Type.
  unfold digest_calls. rewrite !in_app_iff. intros [H|[H|[H|H]]].
  - apply In_bot_calls in H. destruct H as [-> H]. auto.
  - apply In_thread_calls in H.
    destruct H as (H1 & H2 & d & tts & t & H3 & H4 & H5 & -> & H6).
    split; [exact H1|]. split; [exact H2|]. exists d. auto.
  - apply In_webhook_calls in H. destruct H as [-> H]. auto.
  - apply In_upload_calls in H. destruct H as [-> H]. auto.
Qed.

End DigestCalls.

(** X7.  One cycle, however it ends, makes at most one bot post and at most
    one webhook post; the webhook is asked only when the bot post was not
    accepted; thread posts are made only after an accepted bot post and never
    along with a webhook post; and the file is uploaded only after a request
    of the cycle was accepted. *)
Theorem transports_take_turns {B : PyBuiltins} (C : config) (E : env)
    (lb : option Z) (w : world) (made : list call) :
  calls (snd (digest C E lb w)) = calls w ++ made ->
  (length (List.filter is_bot_call made) <= 1)%nat
  /\ (length (List.filter is_webhook_call made) <= 1)%nat
  /\ (forall t t', In (SlackWebhook t) made -> In (SlackBot t') made ->
        accepted_call E (SlackBot t') = false)
  /\ (forall tts t, In (SlackThread tts t) made ->
        (exists t', In (SlackBot t') made
                    /\ accepted_call E (SlackBot t') = true)
        /\ forall t', ~ In (SlackWebhook t') made)
  /\ (forall p t, In (SlackUpload p t) made ->
        existsb (accepted_call E) made = true).
Proof.
  intros Hmade.
  destruct (digest_made_first C E lb w made Hmade) as (rest & Hd & _).
  destruct (suppressed C E lb w) eqn:Hsup.
  { destruct made; [|discriminate].
    cbn. repeat split; try lia; intros; contradiction. }
  assert (Hin : forall c, In c made -> In c (digest_calls C E lb w)).
  { intros c Hc. rewrite Hd. apply in_or_app. left. exact Hc. }
  split.
  { pose proof (one_bot_call C E lb w) as H. rewrite Hd in H.
    rewrite List.filter_app, length_app in H. lia. }
  split.
  { pose proof (one_webhook_call C E lb w) as H. rewrite Hd in H.
    rewrite List.filter_app, length_app in H. lia. }
  split; [|split].
  - intros t t' Hw Hb.
    apply Hin, In_digest_calls in Hw. apply Hin, In_digest_calls in Hb.
    destruct Hw as [_ Hw], Hb as [-> Hb].
    rewrite accepted_bot_call by exact Hb. exact Hw.
  - intros tts t Ht. pose proof (In_digest_calls C E lb w _ (Hin _ Ht)) as Ht'.
    destruct Ht' as (Hok & _ & _).
    assert (Htok : truthy (SLACK_BOT_TOKEN C) = true).
    { unfold bot_reply in Hok. destruct (truthy (SLACK_BOT_TOKEN C));
        [reflexivity | discriminate]. }
    split.
    + exists (digest_text C E lb w). split.
      * unfold digest_calls, bot_calls in Hd. rewrite Htok in Hd.
        destruct made as [|c made]; [contradiction|].
        cbn [app] in Hd. injection Hd as <- _. left. reflexivity.
      * rewrite accepted_bot_call by exact Htok. exact Hok.
    + intros t' Hw. apply Hin, In_digest_calls in Hw. destruct Hw as [_ Hw].
      congruence.
  - intros p t Hu. exact (upload_after_accepted C E lb w made p t Hmade Hu).
Qed.

Lemma transports_take_turns_witness :
  let w := long_title_world in
  calls (snd (digest small_budget_config calm_env None w))
  = calls w ++ calls (snd (digest small_budget_config calm_env None w))
  /\ (length (List.filter is_bot_call
        (calls (snd (digest small_budget_config calm_env None w)))) <= 1)%nat.
Proof.
  intros w.
  assert (H2 : calls (snd (digest small_budget_config calm_env None w))
     = calls w ++ calls (snd (digest small_budget_config calm_env None w)))
    by reflexivity.
  split; [exact H2|].
  exact (proj1 (transports_take_turns small_budget_config calm_env None w
                  _ H2)).
Defined.

(** X8.  What a cycle hands to the primary transport is bounded when the
    budget is of one character at least, however the cycle ends: a bot post
    made when the text needed no overflow has at most [MAX_SLACK_CHARS]
    characters, and every thread post has at most eight more than that. *)
Theorem posted_texts_bounded {B : PyBuiltins} (C : config) (E : env)
    (lb : option Z) (w : world) (made : list call) :
  1 <= MAX_SLACK_CHARS C ->
  calls (snd (digest C E lb w)) = calls w ++ made ->
  (forall t, In (SlackBot t) made -> digest_details C E lb w = None ->
     len t <= MAX_SLACK_CHARS C)
  /\ (forall tts t, In (SlackThread tts t) made ->
        len t <= MAX_SLACK_CHARS C + 8).
Proof.
  intros HB Hmade.
  split.
  - intros t Ht Hnone. destruct (In_made C E lb w made _ Hmade Ht) as [_ Hin].
    apply In_digest_calls in Hin. destruct Hin as [-> _].
    destruct (digest_text_cases C E lb w) as [(_ & _ & H)|(H & _)];
      [exact H | congruence].
  - intros tts t Ht. destruct (In_made C E lb w made _ Hmade Ht) as [_ Hin'].
    apply In_digest_calls in Hin'.
    destruct Hin' as (_ & _ & d & _ & _ & _ & Hin).
    destruct (chunk_loop_ok _ HB (S (length d)) d [])
      as (chunks & gaps & Hrun & Hok & _); [lia|].
    cbn [app] in Hrun. fold (chunk_text d (MAX_SLACK_CHARS C)) in Hrun.
    rewrite Hrun in Hin. cbn [default from_option id] in Hin.
    pose proof (thread_texts_bound _ chunks Hok O) as Hall.
    rewrite List.Forall_forall in Hall. apply Hall. exact Hin.
Qed.

Lemma posted_texts_bounded_witness :
  let w := long_title_world in
  1 <= MAX_SLACK_CHARS small_budget_config
  /\ calls (snd (digest small_budget_config calm_env None w))
     = calls w ++ calls (snd (digest small_budget_config calm_env None w))
  /\ forall tts t,
       In (SlackThread tts t)
          (calls (snd (digest small_budget_config calm_env None w))) ->
       len t <= MAX_SLACK_CHARS small_budget_config + 8.
Proof.
  intros w.
  assert (H1 : 1 <= MAX_SLACK_CHARS small_budget_config)
    by (vm_compute; discriminate).
  assert (H2 : calls (snd (digest small_budget_config calm_env None w))
     = calls w ++ calls (snd (digest small_budget_config calm_env None w)))
    by reflexivity.
  split; [exact H1|]. split; [exact H2|].
  exact (proj2 (posted_texts_bounded small_budget_config calm_env None w
                  _ H1 H2)).
Defined.

Lemma webhook_shape (summary tail bullets : str) (M : Z) :
  M < len (summary ++ bullets) ->
  (exists front,
     (if truthy bullets then (summary ++ tail) ++ [NL; NL] ++ bullets
      else summary ++ tail) = front ++ bullets)
  /\ M < len (if truthy bullets then (summary ++ tail) ++ [NL; NL] ++ bullets
              else summary ++ tail).
Proof.
  intros Hlen. unfold len in *. rewrite length_app in Hlen.
  destruct bullets as [|c bs]; cbn [truthy].
  - split; [exists (summary ++ tail); rewrite app_nil_r; reflexivity|].
    rewrite length_app. cbn [length] in *. lia.
  - split; [exists ((summary ++ tail) ++ [NL; NL]);
            rewrite <- !app_assoc; reflexivity|].
    rewrite !length_app. cbn [length] in *. unfold char in *. lia.
Qed.

(** X9.  The webhook gets everything in one message: the text handed to it
    ends with the lines of all the selected records, and when the text
    needed an overflow it is longer than [MAX_SLACK_CHARS]: the fallback
    enforces no size. *)
Theorem webhook_gets_everything {B : PyBuiltins} (C : config) (E : env)
    (lb : option Z) (w : world) (made : list call) (t : str) :
  calls (snd (digest C E lb w)) = calls w ++ made ->
  In (SlackWebhook t) made ->
  (exists front,
     t = front ++ join [NL] (List.map bullet (digest_rows C E lb w)))
  /\ (digest_details C E lb w <> None -> MAX_SLACK_CHARS C < len t).
Proof.
  intros Hmade Ht.
  destruct (In_made C E lb w made _ Hmade Ht) as [_ Hin]. clear Ht.
  apply In_digest_calls in Hin. destruct Hin as [-> _].
  unfold webhook_text.
  destruct (digest_text_cases C E lb w) as [(Hd & Ht & _)|(Hd & Ht & Hlen)];
    rewrite Hd, Ht.
  - split; [eexists; reflexivity | congruence].
  - pose proof (webhook_shape _ (py "(Details in thread ⤵️)") _ _ Hlen)
      as [H1 H2].
    split; [exact H1 | intros _; exact H2].
Qed.

Lemma webhook_gets_everything_witness :
  let w := world_of [issue_row 1 (py "one") t0] in
  let made := [SlackWebhook (digest_text webhook_config deaf_env None w)] in
  calls (snd (digest webhook_config deaf_env None w)) = calls w ++ made
  /\ In (SlackWebhook (digest_text webhook_config deaf_env None w)) made
  /\ exists front,
       digest_text webhook_config deaf_env None w
       = front ++ join [NL] (List.map bullet
                               (digest_rows webhook_config deaf_env None w)).
Proof.
  intros w made.
  assert (H2 : calls (snd (digest webhook_config deaf_env None w))
               = calls w ++ made) by (vm_compute; reflexivity).
  assert (H3 : In (SlackWebhook (digest_text webhook_config deaf_env None w))
                  made) by (left; reflexivity).
  split; [exact H2|]. split; [exact H3|].
  exact (proj1 (webhook_gets_everything webhook_config deaf_env None w made
                  _ H2 H3)).
Defined.



(** ** Ingestion *)

Section Ingestion.
Context {B : PyBuiltins}.
Variable C : config.
Variable E : env.

Lemma present_app (st : store) (s k : str) (r : row) (sq : Z) m :
  present (mkStore (pending st ++ [r]) sq m) s k
  = present st s k || same_identity s k r.
Proof using Type.
  unfold present. cbn [pending]. rewrite existsb_app. cbn [existsb].
  rewrite orb_false_r. reflexivity.
Qed.

Lemma label_names_readable (ls : list (option str)) (w : world) :
  Forall (fun l => l <> None) ls ->
  exists names, label_names ls w = (Ret names, w).
Proof using Type.
  induction 1 as [|[n|] ls Hn _ IH]; cbn [label_names].
  - exists []. reflexivity.
  - destruct IH as [names IH]. exists (n :: names).
    unfold bind. rewrite IH. reflexivity.
  - congruence.
Qed.

Lemma collect_github_item_readable (it : gh_item) (w : world) :
  readable it -> fst (collect_github_item E it w) = Ret tt.
Proof using Type.
  intros [Hid Hls]. unfold collect_github_item, bind, ret.
  destruct (gh_id it) as [i|]; [|congruence].
  destruct (label_names_readable (gh_labels it) w Hls) as [names ->].
  destruct (present (conn w) (py "github") (py "gh:" ++ str_of_int i)) eqn:Hp.
  - rewrite upsert_present by exact Hp. reflexivity.
  - rewrite upsert_absent by exact Hp. reflexivity.
Qed.

Lemma collect_github_item_no_id (it : gh_item) (w : world) :
  gh_id it = None -> collect_github_item E it w = (Raise KeyError, w).
Proof using Type.
  intros H. unfold collect_github_item, bind. rewrite H. reflexivity.
Qed.


(** The loop stops at the first item that raises. *)
Lemma for_each_stops {A} (body : A -> M unit) (good : list A) (bad : A)
    (rest : list A) (e : exn) :
  (forall x w, In x good -> fst (body x w) = Ret tt) ->
  (forall w, body bad w = (Raise e, w)) ->
  forall w,
    for_each (good ++ bad :: rest) body w
    = (Raise e, snd (for_each good body w)).
Proof using Type.
  intros Hgood Hbad. induction good as [|x good IH]; intros w;
    cbn [app for_each].
  - unfold bind, ret. rewrite Hbad. reflexivity.
  - unfold bind. pose proof (Hgood x w (or_introl eq_refl)) as Hx.
    destruct (body x w) as [[[]|e'|] w1]; cbn [fst] in Hx; try discriminate.
    apply IH. intros y w' Hy. apply Hgood. right. exact Hy.
Qed.


End Ingestion.

(** X11.  Two candidates that differ in source or in key are two records:
    upserted one after the other into a store that has neither, both are
    inserted, at the end of the table in that order and under consecutive
    ids above every id used so far. *)
Theorem distinct_identities_both_stored {B : PyBuiltins} (E : env)
    (s1 k1 t1 u1 rp1 : str) (ls1 : list str) (lang1 : str)
    (amt1 : option pyfloat) (cur1 : option str) (ca1 : option Z)
    (s2 k2 t2 u2 rp2 : str) (ls2 : list str) (lang2 : str)
    (amt2 : option pyfloat) (cur2 : option str) (ca2 : option Z)
    (w : world) :
  s1 <> s2 \/ k1 <> k2 ->
  present (conn w) s1 k1 = false ->
  present (conn w) s2 k2 = false ->
  let first := upsert_pending E s1 k1 t1 u1 rp1 ls1 lang1 amt1 cur1 ca1 w in
  let second :=
    upsert_pending E s2 k2 t2 u2 rp2 ls2 lang2 amt2 cur2 ca2 (snd first) in
  fst first = Ret true /\ fst second = Ret true
  /\ exists r1 r2,
       pending (conn (snd second)) = pending (conn w) ++ [r1; r2]
       /\ source r1 = s1 /\ key r1 = k1 /\ source r2 = s2 /\ key r2 = k2
       /\ rid r1 = 1 + top_id (conn w) /\ rid r2 = 1 + rid r1.
Proof.
  intros Hne Hp1 Hp2 first second.
  pose proof (upsert_absent E s1 k1 t1 u1 rp1 ls1 lang1 amt1 cur1 ca1 w Hp1)
    as H1. fold first in H1.
  assert (Hp2' : present (conn (snd first)) s2 k2 = false).
  { rewrite H1. cbn [snd conn]. unfold insert_pending.
    rewrite present_app, Hp2. cbn [orb].
    destruct (same_identity s2 k2 _) eqn:Hs; [|reflexivity].
    apply same_identity_eq in Hs. cbn in Hs. destruct Hs as [-> ->].
    destruct Hne; congruence. }
  pose proof (upsert_absent E s2 k2 t2 u2 rp2 ls2 lang2 amt2 cur2 ca2
                (snd first) Hp2') as H2. fold second in H2.
  split; [rewrite H1; reflexivity|]. split; [rewrite H2; reflexivity|].
  rewrite H2. cbn [snd conn]. rewrite H1. cbn [snd conn].
  set (st1 := insert_pending (conn w) s1 k1 t1 u1 rp1 ls1 lang1 amt1 cur1 _).
  exists (mkRow (next_id (conn w)) s1 k1 t1 u1 rp1 ls1 lang1 amt1 cur1
                (fst (stamp_of E ca1 w)) 0),
         (mkRow (next_id st1) s2 k2 t2 u2 rp2 ls2 lang2 amt2 cur2
                (fst (stamp_of E ca2 (snd first))) 0).
  split.
  - unfold insert_pending at 1. cbn [pending].
    unfold st1, insert_pending. cbn [pending].
    rewrite <- app_assoc. rewrite H1. reflexivity.
  - cbn [source key rid]. repeat split.
    unfold st1. rewrite !next_id_top, top_id_insert. reflexivity.
Qed.

Lemma distinct_identities_both_stored_witness :
  let first :=
    upsert_pending calm_env (py "github") (py "7") [] [] [] [] [] None None
                   None fresh_world in
  let second :=
    upsert_pending calm_env (py "algora") (py "7") [] [] [] [] [] None None
                   None (snd first) in
  (py "github" <> py "algora" \/ py "7" <> py "7")
  /\ fst first = Ret true /\ fst second = Ret true.
Proof.
  intros first second.
  assert (H : py "github" <> py "algora" \/ py "7" <> py "7")
    by (left; vm_compute; discriminate).
  split; [exact H|].
  destruct (distinct_identities_both_stored calm_env
              (py "github") (py "7") [] [] [] [] [] None None None
              (py "algora") (py "7") [] [] [] [] [] None None None
              fresh_world H) as (H1 & H2 & _); [reflexivity..|].
  split; assumption.
Defined.

(** X12.  The GitHub loop keeps what it has stored when it fails.  When the
    answer lists readable items followed by one without an id, the GitHub
    part of [collect] ends with [KeyError], the items before it have been
    upserted exactly as if they were the whole answer, and those after it are
    not looked at. *)
Theorem github_items_before_failure_kept {B : PyBuiltins} (C : config)
    (E : env) (languages : list str) (since : option Z) (w : world)
    (status : Z) (good rest : list gh_item) (bad : gh_item) :
  github_api E languages (or_int since (WINDOW_MINUTES C))
  = mkGhResponse status (Some (good ++ bad :: rest)) ->
  (400 <=? status) && (status <? 600) = false ->
  Forall readable good ->
  gh_id bad = None ->
  let searched :=
    mkWorld (conn w) (S (ticks w))
            (calls w ++ [GithubSearch languages
                           (or_int since (WINDOW_MINUTES C))])
            (files w) in
  collect_github C E languages since w
  = (Raise KeyError, snd (for_each good (collect_github_item E) searched)).
Proof.
  intros Hapi Hst Hgood Hbad searched.
  unfold collect_github, try_except.
  assert (Hs : github_search E languages (or_int since (WINDOW_MINUTES C)) w
               = (Ret (good ++ bad :: rest), searched)).
  { unfold github_search, bind, now, send. rewrite Hapi.
    cbn [gh_status gh_body]. rewrite Hst. reflexivity. }
  unfold bind at 1. rewrite Hs.
  rewrite (for_each_stops (collect_github_item E) good bad rest KeyError).
  - reflexivity.
  - intros x w' Hx. apply collect_github_item_readable.
    rewrite List.Forall_forall in Hgood. apply Hgood. exact Hx.
  - intros w'. apply collect_github_item_no_id. exact Hbad.
Qed.

(** ** The language cache *)

Section Languages.
Context {B : PyBuiltins}.
Variable C : config.

Lemma cache_keys_differ : py "profile_languages" <> py "profile_languages_ts".
Proof using Type. vm_compute. discriminate. Qed.

Lemma or_default_truthy (top : list str) :
  json_truthy (JStrs (or_default top)) = true.
Proof using Type. destruct top; reflexivity. Qed.

(** A run that finds no cached list fetches one and stores it with the
    time. *)
Lemma ensure_languages_first (E : env) (w : world) (top : list str) :
  USE_PROFILE_LANGS C = true ->
  meta_get (conn w) (py "profile_languages") = None ->
  profile_api E = inr top ->
  ensure_languages C E w =
  (Ret (or_default top),
   mkWorld (meta_set (meta_set (conn w) (py "profile_languages")
                               (JStrs (or_default top)))
                     (py "profile_languages_ts") (JInt (clock E (ticks w))))
           (S (ticks w)) (calls w ++ [GithubProfile]) (files w)).
Proof using Type.
  intros Huse Hnone Hapi. unfold ensure_languages. rewrite Huse.
  unfold fetch_profile_languages. rewrite Hapi.
  unfold bind, get_conn, put_conn, set_conn, send, now, ret.
  cbn [conn ticks calls files]. rewrite Hnone.
  cbn [conn ticks calls files]. unfold or_default. reflexivity.
Qed.

(** A run that finds a list and a time less than a day old returns the
    list, asking nothing. *)
Lemma ensure_languages_hit (E : env) (w : world) (cached : list str) (t : Z) :
  USE_PROFILE_LANGS C = true ->
  meta_get (conn w) (py "profile_languages") = Some (JStrs cached) ->
  meta_get (conn w) (py "profile_languages_ts") = Some (JInt t) ->
  json_truthy (JStrs cached) = true -> t <> 0 ->
  clock E (ticks w) - t < 24 * 3600 ->
  ensure_languages C E w =
  (Ret cached, mkWorld (conn w) (S (ticks w)) (calls w) (files w)).
Proof using Type.
  intros Huse H1 H2 Hc Ht Hfresh. unfold ensure_languages. rewrite Huse.
  unfold bind at 1. unfold get_conn at 1. cbv beta iota.
  rewrite H1, H2, Hc. cbn [json_truthy andb].
  replace (t =? 0) with false by (symmetry; apply Z.eqb_neq; exact Ht).
  cbn [negb]. unfold bind, now, ret. cbn [conn ticks calls files].
  replace (clock E (ticks w) - t <? 24 * 3600) with true
    by (symmetry; apply Z.ltb_lt; exact Hfresh).
  reflexivity.
Qed.

(** A run that finds a list and a time a day old or more fetches again. *)
Lemma ensure_languages_stale (E : env) (w : world) (cached top : list str)
    (t : Z) :
  USE_PROFILE_LANGS C = true ->
  meta_get (conn w) (py "profile_languages") = Some (JStrs cached) ->
  meta_get (conn w) (py "profile_languages_ts") = Some (JInt t) ->
  json_truthy (JStrs cached) = true -> t <> 0 ->
  24 * 3600 <= clock E (ticks w) - t ->
  profile_api E = inr top ->
  ensure_languages C E w =
  (Ret (or_default top),
   mkWorld (meta_set (meta_set (conn w) (py "profile_languages")
                               (JStrs (or_default top)))
                     (py "profile_languages_ts")
                     (JInt (clock E (S (ticks w)))))
           (S (S (ticks w))) (calls w ++ [GithubProfile]) (files w)).
Proof using Type.
  intros Huse H1 H2 Hc Ht Hstale Hapi. unfold ensure_languages. rewrite Huse.
  unfold bind at 1. unfold get_conn at 1. cbv beta iota.
  rewrite H1, H2, Hc. cbn [json_truthy andb].
  replace (t =? 0) with false by (symmetry; apply Z.eqb_neq; exact Ht).
  cbn [negb]. unfold fetch_profile_languages. rewrite Hapi.
  unfold bind, now, ret, get_conn, put_conn, set_conn, send.
  cbn [conn ticks calls files].
  replace (clock E (ticks w) - t <? 24 * 3600) with false
    by (symmetry; apply Z.ltb_ge; exact Hstale).
  cbn [conn ticks calls files]. unfold or_default. reflexivity.
Qed.

End Languages.

(** X13.  The languages of the profile are fetched once a day.  A run that
    finds no cached list fetches it (never returning an empty list), stores
    it with the time and leaves the records alone; provided that time is not
    0, a later run less than a day after returns the same list without
    asking GitHub and without touching the store, and a run a day later or
    more fetches again. *)
Theorem languages_cached_for_a_day {B : PyBuiltins} (C : config)
    (E E' : env) (w : world) (top : list str) :
  USE_PROFILE_LANGS C = true ->
  meta_get (conn w) (py "profile_languages") = None ->
  profile_api E = inr top ->
  clock E (ticks w) <> 0 ->
  let first := ensure_languages C E w in
  let again := ensure_languages C E' (snd first) in
  fst first = Ret (or_default top)
  /\ or_default top <> []
  /\ calls (snd first) = calls w ++ [GithubProfile]
  /\ pending (conn (snd first)) = pending (conn w)
  /\ (clock E' (ticks (snd first)) - clock E (ticks w) < 24 * 3600 ->
      fst again = Ret (or_default top)
      /\ calls (snd again) = calls (snd first)
      /\ conn (snd again) = conn (snd first))
  /\ (24 * 3600 <= clock E' (ticks (snd first)) - clock E (ticks w) ->
      forall top', profile_api E' = inr top' ->
        fst again = Ret (or_default top')
        /\ calls (snd again) = calls (snd first) ++ [GithubProfile]).
Proof.
  intros Huse Hnone Hapi Hclock first again.
  pose proof (ensure_languages_first C E w top Huse Hnone Hapi) as Hf.
  fold first in Hf.
  assert (H1 : meta_get (conn (snd first)) (py "profile_languages")
               = Some (JStrs (or_default top))).
  { rewrite Hf. cbn [snd conn]. unfold meta_get, meta_set. cbn [meta].
    rewrite lookup_insert_ne by (apply not_eq_sym, cache_keys_differ).
    apply lookup_insert_eq. }
  assert (H2 : meta_get (conn (snd first)) (py "profile_languages_ts")
               = Some (JInt (clock E (ticks w)))).
  { rewrite Hf. cbn [snd conn]. unfold meta_get, meta_set. cbn [meta].
    apply lookup_insert_eq. }
  split; [rewrite Hf; reflexivity|].
  split; [destruct top; discriminate|].
  split; [rewrite Hf; reflexivity|].
  split; [rewrite Hf; reflexivity|].
  split.
  - intros Hfresh. unfold again.
    rewrite (ensure_languages_hit C E' (snd first) _ _ Huse H1 H2
               (or_default_truthy top) Hclock Hfresh).
    cbn [fst snd calls conn]. auto.
  - intros Hstale top' Hapi'. unfold again.
    rewrite (ensure_languages_stale C E' (snd first) _ top' _ Huse H1 H2
               (or_default_truthy top) Hclock Hstale Hapi').
    cbn [fst snd calls]. auto.
Qed.

Lemma languages_cached_for_a_day_witness :
  let first := ensure_languages default_config calm_env fresh_world in
  USE_PROFILE_LANGS default_config = true
  /\ clock calm_env (ticks fresh_world) <> 0
  /\ fst first = Ret [py "Python"]
  /\ calls (snd first) = [GithubProfile].
Proof.
  intros first.
  assert (H1 : USE_PROFILE_LANGS default_config = true) by reflexivity.
  assert (H2 : clock calm_env (ticks fresh_world) <> 0)
    by (vm_compute; discriminate).
  destruct (languages_cached_for_a_day default_config calm_env calm_env
              fresh_world [py "Python"] H1 eq_refl eq_refl H2)
    as (H3 & _ & H4 & _).
  auto.
Defined.

(** X14.  Without [USE_PROFILE_LANGS] the static list is returned and
    nothing is asked or stored.  With it, when nothing is cached and the
    profile request raises, the error leaves [ensure_languages] and
    [collect]: the cache is not written, no source is asked and no record is
    stored. *)
Theorem languages_fallbacks {B : PyBuiltins} (C : config) (E : env)
    (w : world) :
  (USE_PROFILE_LANGS C = false ->
   ensure_languages C E w = (Ret (STATIC_LANGUAGES C), w))
  /\ (forall e since include_algora,
        USE_PROFILE_LANGS C = true ->
        meta_get (conn w) (py "profile_languages") = None ->
        profile_api E = inl e ->
        let failed :=
          mkWorld (conn w) (ticks w) (calls w ++ [GithubProfile]) (files w) in
        ensure_languages C E w = (Raise e, failed)
        /\ collect C E since include_algora w = (Raise e, failed)).
Proof.
  split.
  - intros Huse. unfold ensure_languages. rewrite Huse. reflexivity.
  - intros e since include_algora Huse Hnone Hapi failed.
    assert (H : ensure_languages C E w = (Raise e, failed)).
    { unfold ensure_languages. rewrite Huse.
      unfold fetch_profile_languages. rewrite Hapi.
      unfold bind, get_conn, send, raise. cbn [conn ticks calls files].
      rewrite Hnone. reflexivity. }
    split; [exact H|]. unfold collect. unfold bind at 1. rewrite H.
    reflexivity.
Qed.

Lemma languages_fallbacks_witness :
  USE_PROFILE_LANGS default_config = true
  /\ profile_api no_profile_env = inl HTTPError
  /\ fst (collect default_config no_profile_env None true fresh_world)
     = Raise HTTPError.
Proof.
  split; [reflexivity|]. split; [reflexivity|].
  destruct (proj2 (languages_fallbacks default_config no_profile_env
                     fresh_world)
              HTTPError None true eq_refl eq_refl eq_refl) as [_ H].
  rewrite H. reflexivity.
Defined.

Lemma github_items_before_failure_kept_witness :
  let good := [mkGhItem (Some 11) (Some (py "first")) None None
                        [Some (py "bounty")] (py "2026-11-03T23:59:00Z")] in
  Forall readable good
  /\ fst (collect_github default_config broken_item_env [py "Python"] None
                        fresh_world) = Raise KeyError
  /\ List.map key
       (pending (conn (snd (collect_github default_config broken_item_env
                              [py "Python"] None fresh_world))))
     = [py "gh:11"].
Proof.
  intros good.
  assert (Hg : Forall readable good).
  { constructor; [|constructor]. split; [discriminate|].
    constructor; [discriminate | constructor]. }
  split; [exact Hg|].
  rewrite (github_items_before_failure_kept default_config broken_item_env
             [py "Python"] None fresh_world 200 good
             [mkGhItem (Some 13) (Some (py "third")) None None [] []]
             (mkGhItem None (Some (py "second")) None None [] [])
             eq_refl eq_refl Hg eq_refl).
  split; [reflexivity | vm_compute; reflexivity].
Defined.


(** X16.  The Algora part: with no organisation configured it asks nothing
    and changes nothing; no [Exception] leaves it; and an item not yet
    present is stored as listed, with its source, id, texts, labels, amount
    and currency, and with the time the listing gave it when that is not 0. *)
Theorem algora_part {B : PyBuiltins} (C : config) (E : env) (w : world) :
  (ALGORA_ORGS C = [] -> collect_algora C E w = (Ret tt, w))
  /\ (forall e, fst (collect_algora C E w) = Raise e ->
        e = KeyboardInterrupt)
  /\ (forall b w0,
        present (conn w0) (al_source b) (al_id b) = false ->
        fst (collect_algora_item E b w0) = Ret tt
        /\ exists r,
             pending (conn (snd (collect_algora_item E b w0)))
             = pending (conn w0) ++ [r]
             /\ source r = al_source b /\ key r = al_id b
             /\ title r = al_title b /\ url r = al_url b
             /\ repo r = al_repo b /\ labels r = al_labels b
             /\ amount r = al_amount b /\ currency r = al_currency b
             /\ notified r = 0
             /\ created_at r =
                match al_created_at b with
                | Some t => if t =? 0 then clock E (ticks w0) else t
                | None => clock E (ticks w0)
                end).
Proof.
  split; [|split].
  - intros Horgs. unfold collect_algora, try_except, algora_list, bind.
    rewrite Horgs. reflexivity.
  - intros e He. apply collect_algora_catches in He.
    destruct e; cbn in He; congruence.
  - intros b w0 Hp. unfold collect_algora_item, bind.
    rewrite upsert_absent by exact Hp. cbn [fst snd conn ret].
    split; [reflexivity|]. eexists. split; [reflexivity|].
    cbn [source key title url repo labels amount currency notified
         created_at].
    repeat split. unfold stamp_of.
    destruct (al_created_at b) as [t|]; [destruct (t =? 0)|]; reflexivity.
Qed.



(** X18.  Two exports in one minute share a file.  When a cycle that ran to
    its end and wrote its export is followed by another that does so while
    its clock reading falls in the same minute, the second writes under the
    same name: the files are then those from before the first cycle plus that
    one file, holding the rows of the second. *)
Theorem same_minute_export_overwritten {B : PyBuiltins} (C : config)
    (E : env) (lb lb' : option Z) (w : world) :
  WRITE_CSV C = true ->
  suppressed C E lb w = false ->
  fst (digest C E lb w) = Ret tt ->
  let w1 := snd (digest C E lb w) in
  suppressed C E lb' w1 = false ->
  fst (digest C E lb' w1) = Ret tt ->
  utc_stamp (clock E (S (ticks w1))) = utc_stamp (clock E (S (ticks w))) ->
  files w1 = <[csv_path C E w := digest_rows C E lb w]> (files w)
  /\ files (snd (digest C E lb' w1))
     = <[csv_path C E w := digest_rows C E lb' w1]> (files w).
Proof.
  intros Hcsv Hs Hret w1 Hs1 Hret1 Hstamp.
  assert (H1 : files w1 = <[csv_path C E w := digest_rows C E lb w]> (files w)).
  { unfold w1. rewrite (digest_returns C E lb w Hret).
    unfold digest_world. rewrite Hs, Hcsv. reflexivity. }
  split; [exact H1|].
  rewrite (digest_returns C E lb' w1 Hret1).
  unfold digest_world. rewrite Hs1, Hcsv. cbn [files]. rewrite H1.
  assert (Hp : csv_path C E w1 = csv_path C E w).
  { unfold csv_path. rewrite Hstamp. reflexivity. }
  rewrite Hp. apply insert_insert_eq.
Qed.

Lemma same_minute_export_overwritten_witness :
  let w := world_of [issue_row 1 (py "one") t0] in
  let w1 := snd (digest webhook_config deaf_env None w) in
  fst (digest webhook_config deaf_env None w) = Ret tt
  /\ suppressed webhook_config deaf_env None w = false
  /\ suppressed webhook_config deaf_env None w1 = false
  /\ fst (digest webhook_config deaf_env None w1) = Ret tt
  /\ files (snd (digest webhook_config deaf_env None w1))
     = <[csv_path webhook_config deaf_env w
         := digest_rows webhook_config deaf_env None w1]> (files w).
Proof.
  intros w w1.
  assert (H1 : fst (digest webhook_config deaf_env None w) = Ret tt)
    by (vm_compute; reflexivity).
  assert (H2 : suppressed webhook_config deaf_env None w = false)
    by (vm_compute; reflexivity).
  assert (H3 : suppressed webhook_config deaf_env None w1 = false)
    by (vm_compute; reflexivity).
  assert (H4 : fst (digest webhook_config deaf_env None w1) = Ret tt)
    by (vm_compute; reflexivity).
  split; [exact H1|]. split; [exact H2|]. split; [exact H3|].
  split; [exact H4|].
  refine (proj2 (same_minute_export_overwritten webhook_config deaf_env
                   None None w eq_refl H2 H1 H3 H4 _)).
  vm_compute. reflexivity.
Defined.

(** ** chunk_text: fragments and budgets *)

Lemma lstrip_clean (s : str) : lstrip s = [] \/ starts_clean (lstrip s).
Proof.
  induction s as [|c s IH]; cbn [lstrip]; [left; reflexivity|].
  destruct (isspace c) eqn:Hc; [exact IH | right; exact Hc].
Qed.

Lemma chunk_loop_fragments (B : Z) (HB : 1 <= B) (fuel : nat) :
  forall (s : str) (out : list str),
    chunk_loop fuel s B [] = Some out ->
    (length out <= length s)%nat
    /\ Forall starts_clean (tl out)
    /\ (starts_clean s -> Forall starts_clean out).
Proof.
  induction fuel as [|fuel IH]; intros s out Hrun; [discriminate|].
  destruct s as [|x s'] eqn:Es.
  - cbn in Hrun. injection Hrun as <-. cbn. repeat split; try lia; constructor.
  - rewrite <- Es in *. assert (Hne : s <> []) by (subst; discriminate).
    destruct (Z.leb_spec (len s) B) as [Hle|Hgt].
    + assert (out = [s]).
      { subst s. cbn in Hrun. apply Z.leb_le in Hle.
        cbn in Hle. rewrite Hle in Hrun. cbn in Hrun. congruence. }
      subst out. cbn [length tl]. split; [subst s; cbn; lia|].
      split; [constructor|]. intros Hc. constructor; [exact Hc | constructor].
    + rewrite (chunk_loop_step B HB) in Hrun by exact Hgt.
      rewrite chunk_loop_acc in Hrun.
      pose proof (cut_of_range B HB s Hgt) as Hcut.
      set (n := Z.to_nat (cut_of B s)) in *.
      destruct (chunk_loop fuel (lstrip (drop n s)) B []) as [out'|] eqn:Hrest;
        [|discriminate].
      cbn in Hrun. injection Hrun as <-.
      destruct (IH _ _ Hrest) as (Hlen & _ & Hclean).
      assert (Hout' : Forall starts_clean out').
      { destruct (lstrip_clean (drop n s)) as [Hnil|Hc]; [|auto].
        rewrite Hnil in Hrest. destruct fuel; [discriminate|].
        cbn in Hrest. injection Hrest as <-. constructor. }
      pose proof (lstrip_length (drop n s)) as Hl. rewrite length_drop in Hl.
      unfold len in Hgt. cbn [length tl].
      assert (Hn : (1 <= n)%nat) by (unfold n; lia).
      assert (Hn' : (n <= length s)%nat) by (unfold n; lia).
      split; [unfold char in *; lia|]. split; [exact Hout'|].
      intros Hc. constructor; [|exact Hout'].
      subst s. destruct n as [|n']; [lia|]. exact Hc.
Qed.

(** X19.  The fragments of a text are no more than its characters, and
    every fragment after the first begins with a character that is not white
    space, as does the first when the text does. *)
Theorem fragments_start_clean (T : str) (B : Z) (chunks : list str) :
  1 <= B ->
  chunk_text T B = Some chunks ->
  (length chunks <= length T)%nat
  /\ Forall starts_clean (tl chunks)
  /\ (starts_clean T -> Forall starts_clean chunks).
Proof.
  intros HB Hrun. exact (chunk_loop_fragments B HB _ T chunks Hrun).
Qed.

Lemma fragments_start_clean_witness :
  1 <= 4
  /\ chunk_text (py "ab" ++ [NL] ++ py "cd ef gh") 4
     = Some [py "ab"; py "cd e"; py "f gh"]
  /\ Forall starts_clean (tl [py "ab"; py "cd e"; py "f gh"]).
Proof.
  assert (H1 : 1 <= 4) by lia.
  assert (H2 : chunk_text (py "ab" ++ [NL] ++ py "cd ef gh") 4
               = Some [py "ab"; py "cd e"; py "f gh"]) by reflexivity.
  split; [exact H1|]. split; [exact H2|].
  exact (proj1 (proj2 (fragments_start_clean _ 4 _ H1 H2))).
Defined.

Lemma chunk_loop_zero (c : char) (s : str) :
  isspace c = false ->
  forall (fuel : nat) (acc : list str), chunk_loop fuel (c :: s) 0 acc = None.
Proof.
  intros Hc. induction fuel as [|fuel IH]; intros acc; [reflexivity|].
  cbn [chunk_loop truthy negb].
  assert (Hlen : (len (c :: s) <=? 0) = false).
  { apply Z.leb_gt. unfold len. cbn [length]. lia. }
  rewrite Hlen.
  assert (Hfind : rfind NL (c :: s) 0 = -1) by reflexivity.
  rewrite Hfind. cbn [Z.leb Z.compare].
  change (slice_from (c :: s) 0) with (c :: s).
  cbn [lstrip]. rewrite Hc. apply IH.
Qed.

(** X20.  A budget of zero never ends: on a text that begins with a
    character that is not white space the loop cuts an empty fragment off,
    is left with the same text and goes round for ever; no number of
    iterations gives a result, from any list of fragments already made. *)
Theorem zero_budget_never_ends (c : char) (s : str) :
  isspace c = false ->
  chunk_text (c :: s) 0 = None
  /\ forall (fuel : nat) (acc : list str),
       chunk_loop fuel (c :: s) 0 acc = None.
Proof.
  intros Hc. split; [|exact (chunk_loop_zero c s Hc)].
  unfold chunk_text. apply chunk_loop_zero. exact Hc.
Qed.

Lemma zero_budget_never_ends_witness :
  isspace 97%N = false
  /\ chunk_text (py "abc") 0 = None
  /\ chunk_loop 1000 (py "abc") 0 [] = None.
Proof.
  assert (H : isspace 97%N = false) by reflexivity.
  split; [exact H|].
  split.
  - exact (proj1 (zero_budget_never_ends 97%N (py "bc") H)).
  - exact (proj2 (zero_budget_never_ends 97%N (py "bc") H) 1000%nat []).
Defined.

Section ZeroBudget.
Context {B : PyBuiltins}.

Lemma bullet_head (r : row) : exists rest, bullet r = 8226%N :: rest.
Proof using Type.
  unfold bullet. change (py "• ") with [8226%N; 32%N]. cbn [app].
  eexists. reflexivity.
Qed.

Lemma bullets_head (rows : list row) :
  rows <> [] ->
  exists rest, join [NL] (List.map bullet rows) = 8226%N :: rest.
Proof using Type.
  destruct rows as [|r rows]; [congruence|]. intros _.
  destruct (bullet_head r) as [rest Hr]. cbn [List.map join].
  destruct (List.map bullet rows); rewrite Hr; cbn [app]; eexists; reflexivity.
Qed.

End ZeroBudget.

(** X21.  With [MAX_SLACK_CHARS] set to 0 a digest that has records never
    returns once the bot has accepted the header with a timestamp: the
    header has been posted, the chunking of the overflow goes round for ever,
    and nothing has been marked. *)
Theorem zero_budget_digest_hangs {B : PyBuiltins} (C : config) (E : env)
    (lb : option Z) (w : world) (reply : slack_reply) (tts : str) :
  MAX_SLACK_CHARS C = 0 ->
  suppressed C E lb w = false ->
  digest_rows C E lb w <> [] ->
  truthy (SLACK_BOT_TOKEN C) = true ->
  slack_bot_api E (digest_text C E lb w) = inr (Some reply) ->
  ok reply = true ->
  (if truthy_opt (ts reply) then ts reply else message_ts reply) = Some tts ->
  truthy tts = true ->
  POST_LONG_AS_THREAD C = true ->
  digest C E lb w
  = (Hang,
     mkWorld (conn w) (S (ticks w))
             (calls w ++ [SlackBot (digest_text C E lb w)]) (files w)).
Proof.
  intros Hmax Hsup Hrows Htok Hapi Hok Hts Htts Hpost.
  destruct (bullets_head (digest_rows C E lb w) Hrows) as [rest Hb].
  assert (Hdet : digest_details C E lb w = Some (8226%N :: rest)).
  { unfold digest_details, make_digest_text. rewrite Hmax, Hb.
    replace (len _ <=? 0) with false; [reflexivity|].
    symmetry. apply Z.leb_gt. unfold len. rewrite length_app.
    cbn [length]. lia. }
  revert Hsup Hapi Hdet.
  unfold suppressed, digest_text, digest_details, digest_rows, digest_since,
    digest_lookback.
  unfold digest.
  unfold bind at 1. unfold get_conn at 1. unfold bind at 1. unfold now at 1.
  cbv beta iota.
  set (rows := select_pending _ _ _).
  set (mk := make_digest_text C rows _).
  clearbody rows mk. destruct mk as [text details]. cbn [fst snd].
  intros -> Hapi ->.
  unfold post_slack_bot, send, hang.
  unfold bind, ret. rewrite Htok. cbn [negb].
  cbv beta iota. cbn [conn ticks calls files]. rewrite Hapi.
  cbv beta iota. rewrite Hok. cbv beta iota. rewrite Hts.
  cbn [truthy]. rewrite Hpost, Htts. cbn [andb].
  unfold chunk_text. rewrite Hmax.
  rewrite (chunk_loop_zero 8226%N rest eq_refl). reflexivity.
Qed.

Lemma zero_budget_digest_hangs_witness :
  let C := zero_budget_config in
  let w := world_of [issue_row 1 (py "Fix the parser") (t0 - 600)] in
  MAX_SLACK_CHARS C = 0
  /\ digest_rows C calm_env None w <> []
  /\ digest C calm_env None w
     = (Hang,
        mkWorld (conn w) (S (ticks w))
                (calls w ++ [SlackBot (digest_text C calm_env None w)])
                (files w)).
Proof.
  intros C w.
  assert (H1 : MAX_SLACK_CHARS C = 0) by reflexivity.
  assert (H2 : digest_rows C calm_env None w <> []).
  { intros H. apply (f_equal (@length _)) in H. vm_compute in H.
    discriminate. }
  split; [exact H1|]. split; [exact H2|].
  refine (zero_budget_digest_hangs C calm_env None w
            (mkReply true (Some (py "1793750400.000100")) None)
            (py "1793750400.000100") H1 _ H2 _ _ _ _ _ _).
  - vm_compute; reflexivity.
  - reflexivity.
  - reflexivity.
  - reflexivity.
  - reflexivity.
  - reflexivity.
  - reflexivity.
Defined.

(** ** The commit of a cycle, however it ends *)



(** ** env_csv *)

Lemma lstrip_id (s : str) : starts_clean s -> lstrip s = s.
Proof.
  destruct s as [|x s]; [intros []|]. cbn. intros ->. reflexivity.
Qed.

Lemma lstrip_idem (s : str) : lstrip (lstrip s) = lstrip s.
Proof.
  destruct (lstrip_clean s) as [-> | Hc]; [reflexivity | apply lstrip_id, Hc].
Qed.

Lemma lstrip_In (a : char) (s : str) : In a (lstrip s) -> In a s.
Proof.
  induction s as [|x s IH]; cbn [lstrip]; [tauto|].
  destruct (isspace x); [right; auto | tauto].
Qed.

Lemma lstrip_snoc (x : char) (l : str) :
  isspace x = false -> exists m, lstrip (l ++ [x]) = m ++ [x].
Proof.
  intros Hx. induction l as [|y l IH]; cbn [app lstrip].
  - rewrite Hx. exists []. reflexivity.
  - destruct (isspace y); [exact IH | exists (y :: l); reflexivity].
Qed.

Lemma strip_In (a : char) (s : str) : In a (strip s) -> In a s.
Proof.
  unfold strip. intros H. apply in_rev in H. apply lstrip_In in H.
  apply in_rev in H. apply lstrip_In in H. exact H.
Qed.

(** A stripped text is empty or has a character that is not white space at
    both ends. *)
Lemma strip_ends (s : str) :
  strip s = [] \/ (starts_clean (strip s) /\ starts_clean (rev (strip s))).
Proof.
  unfold strip.
  destruct (lstrip_clean s) as [-> | Hc]; [left; reflexivity|].
  destruct (lstrip s) as [|x a]; [destruct Hc|]. cbn in Hc. right.
  cbn [rev]. destruct (lstrip_snoc x (rev a) Hc) as [m Hm].
  unfold char in *. rewrite rev_involutive. split.
  - rewrite Hm, rev_app_distr. exact Hc.
  - destruct (lstrip_clean (rev a ++ [x])) as [He|Hc']; [|exact Hc'].
    rewrite Hm in He. destruct m; discriminate.
Qed.

Lemma strip_id (x : str) :
  starts_clean x -> starts_clean (rev x) -> strip x = x.
Proof.
  intros H1 H2. unfold strip. rewrite (lstrip_id x H1), (lstrip_id _ H2).
  apply rev_involutive.
Qed.

Lemma strip_idem (s : str) : strip (strip s) = strip s.
Proof.
  destruct (strip_ends s) as [-> | [H1 H2]]; [reflexivity|].
  apply strip_id; assumption.
Qed.

Lemma entry_ends (x : str) :
  entry x -> starts_clean x /\ starts_clean (rev x).
Proof.
  intros (Hne & Hs & _). destruct (strip_ends x) as [He | H].
  - congruence.
  - rewrite Hs in H. exact H.
Qed.

Lemma split_on_In (c : char) (s : str) :
  Forall (fun p => ~ In c p) (split_on c s).
Proof.
  induction s as [|x s IH]; cbn [split_on].
  - constructor; [tauto | constructor].
  - destruct (N.eqb_spec x c) as [->|Hne].
    + constructor; [cbn; tauto | exact IH].
    + destruct (split_on c s) as [|p ps].
      * constructor; [|constructor]. intros [H|[]]. congruence.
      * inversion IH as [|? ? Hp Hps]; subst. constructor; [|exact Hps].
        intros [H|H]; [congruence | tauto].
Qed.

Lemma split_on_none (c : char) (p : str) :
  ~ In c p -> split_on c p = [p].
Proof.
  induction p as [|x p IH]; intros Hn; [reflexivity|]. cbn [split_on].
  destruct (N.eqb_spec x c) as [->|Hne]; [exfalso; apply Hn; left; reflexivity|].
  rewrite IH by (intros H; apply Hn; right; exact H). reflexivity.
Qed.

Lemma split_on_app (c : char) (p rest : str) :
  ~ In c p -> split_on c (p ++ c :: rest) = p :: split_on c rest.
Proof.
  induction p as [|x p IH]; intros Hn; cbn [app split_on].
  - rewrite N.eqb_refl. reflexivity.
  - destruct (N.eqb_spec x c) as [->|Hne]; [exfalso; apply Hn; left; reflexivity|].
    rewrite IH by (intros H; apply Hn; right; exact H). reflexivity.
Qed.

Lemma split_on_join (c : char) (l : list str) :
  l <> [] -> Forall (fun p => ~ In c p) l -> split_on c (join [c] l) = l.
Proof.
  induction l as [|p l IH]; [congruence|]. intros _ Hall.
  inversion Hall as [|? ? Hp Hl]; subst.
  destruct l as [|q l].
  - cbn [join]. apply split_on_none, Hp.
  - change (join [c] (p :: q :: l)) with (p ++ c :: join [c] (q :: l)).
    rewrite split_on_app by exact Hp. f_equal. apply IH; [discriminate|exact Hl].
Qed.

Lemma all_space_no_comma (a : str) : all_space a -> ~ In 44%N a.
Proof.
  intros Ha Hin. unfold all_space in Ha.
  rewrite List.Forall_forall in Ha. specialize (Ha _ Hin). discriminate.
Qed.

Lemma lstrip_all_space (a s : str) : all_space a -> lstrip (a ++ s) = lstrip s.
Proof.
  induction 1 as [|x a Hx _ IH]; [reflexivity|]. cbn [app lstrip].
  rewrite Hx. exact IH.
Qed.

Lemma strip_padded (t : str * str * str) :
  well_padded t -> strip (padded t) = body t /\ ~ In 44%N (padded t).
Proof.
  destruct t as [[a x] b]. cbn [well_padded padded body].
  intros (Ha & Hx & Hb). destruct (entry_ends x Hx) as [H1 H2]. split.
  - unfold strip. rewrite lstrip_all_space by exact Ha.
    assert (Hxb : starts_clean (x ++ b)).
    { destruct x; [destruct H1 | exact H1]. }
    rewrite (lstrip_id _ Hxb), rev_app_distr.
    rewrite lstrip_all_space by (apply Forall_rev, Hb).
    rewrite (lstrip_id _ H2). apply rev_involutive.
  - intros Hin. apply in_app_or in Hin. destruct Hin as [Hin|Hin];
      [exact (all_space_no_comma a Ha Hin)|].
    apply in_app_or in Hin. destruct Hin as [Hin|Hin];
      [exact (proj2 (proj2 Hx) Hin) | exact (all_space_no_comma b Hb Hin)].
Qed.

(** X22.  Every entry [env_csv] returns is not empty, has no white space at
    either end and no comma in it, whatever the setting holds. *)
Theorem env_csv_entries (value : option str) (default : str) :
  Forall entry (env_csv value default).
Proof.
  unfold env_csv. set (s := match value with Some v => v | None => default end).
  clearbody s. pose proof (split_on_In 44%N s) as Hall.
  induction Hall as [|p ps Hp _ IH]; cbn [List.filter List.map]; [constructor|].
  destruct (truthy (strip p)) eqn:Ht; [|exact IH].
  cbn [List.map]. constructor; [|exact IH]. repeat split.
  - intros He. rewrite He in Ht. discriminate.
  - apply strip_idem.
  - intros Hin. apply Hp. apply strip_In. exact Hin.
Qed.

(** X23.  Entries written one after the other with commas between them, each
    with any white space around it, are read back as they are and in their
    order, from the variable when it is set and from the default when it is
    not. *)
Theorem env_csv_reads_back (l : list (str * str * str)) (other : str) :
  Forall well_padded l ->
  env_csv (Some (join [44%N] (List.map padded l))) other = List.map body l
  /\ env_csv None (join [44%N] (List.map padded l)) = List.map body l.
Proof.
  intros Hall.
  assert (H : env_csv (Some (join [44%N] (List.map padded l))) other
              = List.map body l).
  { unfold env_csv. destruct l as [|t l]; [reflexivity|].
    rewrite split_on_join.
    - induction Hall as [|t' l' Ht _ IH]; [reflexivity|].
      cbn [List.map List.filter].
      destruct (strip_padded t' Ht) as [Hs _]. rewrite Hs.
      assert (Hb : truthy (body t') = true).
      { destruct t' as [[a x] b]. cbn in Ht |- *.
        destruct Ht as (_ & (Hne & _) & _). destruct x; [congruence|reflexivity]. }
      rewrite Hb. cbn [List.map]. rewrite Hs. f_equal. exact IH.
    - discriminate.
    - rewrite List.Forall_forall. intros p Hp. apply in_map_iff in Hp.
      destruct Hp as (t' & <- & Hin).
      rewrite List.Forall_forall in Hall.
      exact (proj2 (strip_padded t' (Hall _ Hin))). }
  split; [exact H | exact H].
Qed.

Lemma env_csv_reads_back_witness :
  let l := [([], py "TypeScript", []); (py " ", py "Go", py "  ");
            ([], py "Objective C", [NL])] in
  Forall well_padded l
  /\ env_csv None (join [44%N] (List.map padded l))
     = [py "TypeScript"; py "Go"; py "Objective C"].
Proof.
  intros l.
  assert (H : Forall well_padded l).
  { repeat constructor; try discriminate; try reflexivity;
      cbn; intros H; repeat (destruct H as [H|H]; [discriminate|]); exact H. }
  split; [exact H|].
  exact (proj2 (env_csv_reads_back l [] H)).
Defined.

(** ** The languages of the profile *)

Lemma read_pages_agree (pages pages' : Z -> exn + list (option str))
    (left : nat) :
  forall (page : Z) (langs : list (str * Z)),
    (forall p, page <= p < page + Z.of_nat left -> pages p = pages' p) ->
    read_pages pages left page langs = read_pages pages' left page langs.
Proof.
  induction left as [|left IH]; intros page langs Hsame; [reflexivity|].
  cbn [read_pages]. rewrite <- (Hsame page) by lia.
  destruct (pages page) as [e|[|repo repos]]; try reflexivity.
  apply IH. intros p Hp. apply Hsame. lia.
Qed.

(** X24.  [fetch_profile_languages] reads five pages at most and returns
    between one and eight languages: two sequences of answers that agree on
    pages 1 to 5 give the same result, exception included, and a list that is
    returned is not empty and has no more than eight names. *)
Theorem profile_languages_five_pages
    (pages pages' : Z -> exn + list (option str)) :
  (forall p, 1 <= p <= 5 -> pages p = pages' p) ->
  profile_languages pages = profile_languages pages'
  /\ forall top, profile_languages pages = inr top ->
       top <> [] /\ (length top <= 8)%nat.
Proof.
  intros Hsame. split.
  - unfold profile_languages.
    rewrite (read_pages_agree pages pages' 5 1 []); [reflexivity|].
    intros p Hp. apply Hsame. lia.
  - intros top. unfold profile_languages.
    destruct (read_pages pages 5 1 []) as [e|langs]; [discriminate|].
    intros [= <-].
    pose proof (firstn_le_length 8 (fold_right insert_count [] langs)) as Hl.
    unfold most_common.
    destruct (List.map fst (firstn 8 (fold_right insert_count [] langs)))
      as [|x xs] eqn:Hm.
    + split; [discriminate | cbn; lia].
    + split; [discriminate|]. rewrite <- Hm, length_map. exact Hl.
Qed.

Lemma profile_languages_five_pages_witness :
  let pages := fun p : Z =>
    if p <=? 2 then inr [Some (py "Go"); None; Some (py "Rust"); Some (py "Go")]
    else if p <=? 5 then inr [] else inl HTTPError in
  let pages' := fun p : Z =>
    if p <=? 2 then inr [Some (py "Go"); None; Some (py "Rust"); Some (py "Go")]
    else inr [] in
  profile_languages pages = inr [py "Go"; py "Rust"]
  /\ profile_languages pages = profile_languages pages'.
Proof.
  intros pages pages'. split; [reflexivity|].
  refine (proj1 (profile_languages_five_pages pages pages' _)).
  intros p Hp. unfold pages, pages'.
  destruct (p <=? 2); [reflexivity|].
  destruct (Z.leb_spec p 5); [reflexivity | lia].
Defined.
